(** * Project aggregation pipeline: normalisation, local loading, merge and ranking

    A shallow embedding of [scripts/normalize.ts], [scripts/load-manual.ts],
    [scripts/build-projects.ts], the fetch of [scripts/github.ts], the
    schemas of [src/types/project.ts] and the queries of
    [src/lib/projects.ts], followed by the properties of the pipeline.

    Conventions of the embedding:
    - a JavaScript string is a [string]; a number is an IEEE 754 double
      ([spec_float]); an optional, nullable or possibly [undefined] value of
      a checked type is an [option]; a value whose type the code has not
      checked is a [JsValue];
    - a value of a string-literal union type is a constructor of an enumeration;
    - code that can throw returns a [result]; [try { .. } catch] is [try_catch];
    - the library calls whose behaviour is not part of the repository
      ([yaml.load] of js-yaml, [new Date(s).getTime()], the clock, the
      GraphQL client and [toLowerCase] on free text) are parameters of the
      section that holds the pipeline. *)

From Stdlib Require Import List String Ascii ZArith Bool Lia Permutation Sorted SpecFloat.
Import ListNotations.
Local Open Scope string_scope.
Local Open Scope list_scope.

Set Implicit Arguments.

(* ================================================================== *)
(** ** Exceptions *)

(** Every value thrown in the modelled code is an [Error] object; only its
    message is ever observed. *)
Inductive exn : Type :=
| Error (message : string).

Inductive result (A : Type) : Type :=
| Return (value : A)
| Throw (e : exn).

Arguments Return {A} value.
Arguments Throw {A} e.

Definition bind {A B : Type} (c : result A) (k : A -> result B) : result B :=
  match c with
  | Return v => k v
  | Throw e => Throw e
  end.

Definition try_catch {A : Type} (body : result A) (handler : exn -> result A) : result A :=
  match body with
  | Return v => Return v
  | Throw e => handler e
  end.

Notation "'let*' x ':=' c 'in' k" := (bind c (fun x => k))
  (at level 61, x name, c at next level, right associativity).

Definition error_message (e : exn) : string :=
  match e with Error m => m end.

(* ================================================================== *)
(** ** JavaScript strings and arrays *)

(** [s.startsWith(p)] *)
Fixpoint startsWith (s p : string) {struct p} : bool :=
  match p with
  | EmptyString => true
  | String c p' =>
      match s with
      | EmptyString => false
      | String d s' => Ascii.eqb d c && startsWith s' p'
      end
  end.

Fixpoint drop (n : nat) (s : string) : string :=
  match n with
  | O => s
  | S n' => match s with
            | EmptyString => EmptyString
            | String _ s' => drop n' s'
            end
  end.

(** [s.replace(pat, rep)] for a string pattern: the first occurrence of [pat]
    is replaced. The replacement strings used by the pipeline are empty, so
    the [$]-patterns of the replacement text do not arise. *)
Fixpoint replace (pat rep s : string) {struct s} : string :=
  if startsWith s pat then rep ++ drop (String.length pat) s
  else match s with
       | EmptyString => EmptyString
       | String c s' => String c (replace pat rep s')
       end.

(** [s.endsWith(p)] *)
Definition endsWith (s p : string) : bool :=
  let n := String.length s in
  let m := String.length p in
  Nat.leb m n && String.eqb (drop (n - m) s) p.

(** [xs.includes(x)] on an array of strings *)
Definition includes (xs : list string) (x : string) : bool :=
  existsb (String.eqb x) xs.

(** [[...new Set(xs)]]: a [Set] keeps the first insertion of every element
    and iterates in insertion order. *)
Definition Set_add (seen : list string) (x : string) : list string :=
  if includes seen x then seen else seen ++ [x].

Definition Set_of (xs : list string) : list string :=
  fold_left Set_add xs [].

(** [s.toLowerCase()] and [s.trim()], on ASCII letters and ASCII white space:
    the strings they are applied to are the literals of the enumerations. *)
Definition lower_char (c : ascii) : ascii :=
  let n := nat_of_ascii c in
  if Nat.leb 65 n && Nat.leb n 90 then ascii_of_nat (n + 32) else c.

Fixpoint toLowerCase (s : string) : string :=
  match s with
  | EmptyString => EmptyString
  | String c s' => String (lower_char c) (toLowerCase s')
  end.

Definition is_space (c : ascii) : bool :=
  let n := nat_of_ascii c in
  Nat.eqb n 32 || (Nat.leb 9 n && Nat.leb n 13).

Fixpoint trimStart (s : string) : string :=
  match s with
  | EmptyString => EmptyString
  | String c s' => if is_space c then trimStart s' else s
  end.

Fixpoint trimEnd (s : string) : string :=
  match s with
  | EmptyString => EmptyString
  | String c s' =>
      match trimEnd s' with
      | EmptyString => if is_space c then EmptyString else String c EmptyString
      | kept => String c kept
      end
  end.

Definition trim (s : string) : string := trimEnd (trimStart s).

(** [path.parse(base).name] for a file name without directory part: the name
    up to its last dot, unless that dot is the first character. *)
Fixpoint last_dot (s : string) : option nat :=
  match s with
  | EmptyString => None
  | String c s' =>
      match last_dot s' with
      | Some i => Some (S i)
      | None => if Ascii.eqb c "." then Some O else None
      end
  end.

Definition path_parse_name (base : string) : string :=
  match last_dot base with
  | Some (S i) => substring 0 (S i) base
  | _ => base
  end.

Definition double_quote : string := String (ascii_of_nat 34) EmptyString.

(** Truthiness of an optional string: [undefined], [null] and [''] are falsy. *)
Definition truthy (v : option string) : option string :=
  match v with
  | Some "" => None
  | other => other
  end.

(** [a || b] on optional strings. *)
Definition or_else (a b : option string) : option string :=
  match truthy a with
  | Some s => Some s
  | None => b
  end.

(** [a || d] where [d] is a string. *)
Definition or_default (a : option string) (d : string) : string :=
  match truthy a with
  | Some s => s
  | None => d
  end.

(** [a || d] for values that are truthy whenever they are present (arrays,
    objects, non-empty literals). *)
Definition or_value {A : Type} (a : option A) (d : A) : A :=
  match a with
  | Some v => v
  | None => d
  end.

(* ================================================================== *)
(** ** src/types/project.ts *)

Inductive Status : Type := Complete | InProgress | Archived.
Inductive Tier : Type := Flagship | Mvp | Experiment.
Inductive Visibility : Type := Featured | Portfolio | Labs | Ventures.
Inductive Source : Type := Github | Manual.

Definition Status_to_string (s : Status) : string :=
  match s with
  | Complete => "complete"
  | InProgress => "in-progress"
  | Archived => "archived"
  end.

Definition Tier_to_string (t : Tier) : string :=
  match t with
  | Flagship => "flagship"
  | Mvp => "mvp"
  | Experiment => "experiment"
  end.

Definition Visibility_to_string (v : Visibility) : string :=
  match v with
  | Featured => "featured"
  | Portfolio => "portfolio"
  | Labs => "labs"
  | Ventures => "ventures"
  end.

Definition Status_of_string (s : string) : option Status :=
  if s =? "complete" then Some Complete
  else if s =? "in-progress" then Some InProgress
  else if s =? "archived" then Some Archived
  else None.

Definition Tier_of_string (s : string) : option Tier :=
  if s =? "flagship" then Some Flagship
  else if s =? "mvp" then Some Mvp
  else if s =? "experiment" then Some Experiment
  else None.

Definition Visibility_of_string (s : string) : option Visibility :=
  if s =? "featured" then Some Featured
  else if s =? "portfolio" then Some Portfolio
  else if s =? "labs" then Some Labs
  else if s =? "ventures" then Some Ventures
  else None.

(** A JavaScript number: a double, that is a signed zero, an infinity, [NaN]
    or a finite value [(-1)^s * m * 2^e]. The doubles are the values of
    [spec_float] within the bounds of binary64; nothing below depends on
    the bounds. *)
Definition number : Type := spec_float.

Definition Number_isNaN (n : number) : bool :=
  match n with
  | S754_nan => true
  | _ => false
  end.

(** The number an integer literal denotes. *)
Definition number_of_Z (z : Z) : number :=
  match z with
  | Z0 => S754_zero false
  | Zpos p => S754_finite false p 0
  | Zneg p => S754_finite true p 0
  end.

(** A value of [metrics]: [z.union([z.number(), z.string()])]. The pipeline
    carries metrics along and never computes on them. *)
Inductive MetricValue : Type :=
| MNum (n : number)
| MStr (s : string).

(** The documents [yaml.load] produces, as far as the schemas look at them. *)
#[local] Unset Elimination Schemes.
Inductive JsValue : Type :=
| JUndefined
| JNull
| JBool (b : bool)
| JNum (n : number)
| JStr (s : string)
| JArr (items : list JsValue)
| JObj (fields : list (string * JsValue)).
#[local] Set Elimination Schemes.

(** [ProjectManifest = z.infer<typeof ProjectManifestSchema>] *)
Record ProjectManifest : Type := {
  m_title : option string;
  m_status : option Status;
  m_tier : option Tier;
  m_stack : option (list string);
  m_roles : option (list string);
  m_live_url : option string;
  m_demo_url : option string;
  m_repo_url : option string;
  m_homepage_url : option string;
  m_highlights : option (list string);
  m_metrics : option (list (string * MetricValue));
  m_topics : option (list string);
  m_visibility : option Visibility
}.

(** [Project = z.infer<typeof ProjectSchema>] *)
Record Project : Type := {
  slug : string;
  title : string;
  description : option string;
  source : Source;
  status : Status;
  tier : Tier;
  topics : list string;
  domains : list string;
  stack : list string;
  roles : list string;
  repoUrl : option string;
  homepageUrl : option string;
  liveUrl : option string;
  demoUrl : option string;
  stars : number;
  pushedAt : string;
  ogImage : option string;
  highlights : option (list string);
  metrics : option (list (string * MetricValue));
  manifest : option ProjectManifest;
  visibility : Visibility
}.

Record Topic : Type := { name : string }.
Record TopicNode : Type := { topic : Topic }.
Record RepositoryTopics : Type := { nodes : list TopicNode }.
Record Blob : Type := { text : string }.

Record GitHubRepository : Type := {
  repo_name : string;
  repo_description : option string;
  stargazerCount : number;
  repo_pushedAt : string;
  isArchived : bool;
  isFork : bool;
  repo_homepageUrl : option string;
  openGraphImageUrl : option string;
  url : string;
  repositoryTopics : RepositoryTopics;
  object : option Blob
}.

(** *** scripts/load-manual.ts: the declared shape of a local record

    The interface [ManualProjectManifest]. The loader only casts the
    document to it ([parsed as ManualProjectManifest]) and checks nothing,
    so the loader itself ([process_file]) is modelled on the document; the
    record below is what a document whose fields have their declared types
    reads as ([read_record]), and the statements speak of it. [title] and
    [source] are optional here because the loader checks their presence;
    [mm_include] is the truthiness of [include], which is all the loader
    tests of it. *)
Record ManualProjectManifest : Type := {
  mm_slug : option string;
  mm_title : option string;
  mm_source : option string;
  mm_include : option bool;
  mm_visibility : option Visibility;
  mm_status : option Status;
  mm_tier : option Tier;
  mm_stack : option (list string);
  mm_roles : option (list string);
  mm_live_url : option string;
  mm_demo_url : option string;
  mm_repo_url : option string;
  mm_homepage_url : option string;
  mm_highlights : option (list string);
  mm_metrics : option (list (string * MetricValue));
  mm_topics : option (list string);
  mm_description : option string
}.

Record LoadManualStats : Type := {
  totalFiles : nat;
  validFiles : nat;
  invalidFiles : nat;
  included : nat;
  skipped : nat;
  errors : list string
}.

(** An entry of the directory [data/manual]: its name and what
    [yaml.load(readFileSync(filePath, 'utf8'))] yields for it: the document,
    or the exception of an unreadable file or of malformed YAML. *)
Record DirEntry : Type := {
  file : string;
  content : result JsValue
}.

(** The loader's mutable variables. *)
Record Loader : Type := {
  projects : list Project;
  stats : LoadManualStats
}.

(** *** Zod validation of [ProjectManifestSchema] *)

(** The [ZodError] of a failed validation. Its message, the list of the
    issues found, is not modelled. *)
Definition zod_error : exn := Error "ZodError".

(** Property lookup on the fields of an object; an absent key reads as
    [undefined]. *)
Fixpoint get_field (fields : list (string * JsValue)) (key : string) : JsValue :=
  match fields with
  | [] => JUndefined
  | (k, v) :: rest => if k =? key then v else get_field rest key
  end.

(** [z.string().optional()] *)
Definition z_string_optional (v : JsValue) : result (option string) :=
  match v with
  | JUndefined => Return None
  | JStr s => Return (Some s)
  | _ => Throw zod_error
  end.

(** [z.enum([...]).optional()], the literals given by their parser *)
Definition z_enum_optional {A : Type} (of_string : string -> option A) (v : JsValue)
  : result (option A) :=
  match v with
  | JUndefined => Return None
  | JStr s => match of_string s with
              | Some a => Return (Some a)
              | None => Throw zod_error
              end
  | _ => Throw zod_error
  end.

Fixpoint z_strings (items : list JsValue) : result (list string) :=
  match items with
  | [] => Return []
  | JStr s :: rest => let* ss := z_strings rest in Return (s :: ss)
  | _ :: _ => Throw zod_error
  end.

(** [z.array(z.string()).optional()] *)
Definition z_string_array_optional (v : JsValue) : result (option (list string)) :=
  match v with
  | JUndefined => Return None
  | JArr items => let* ss := z_strings items in Return (Some ss)
  | _ => Throw zod_error
  end.

Fixpoint z_metric_entries (fields : list (string * JsValue))
  : result (list (string * MetricValue)) :=
  match fields with
  | [] => Return []
  | (k, JNum n) :: rest =>
      if Number_isNaN n then Throw zod_error
      else let* ms := z_metric_entries rest in Return ((k, MNum n) :: ms)
  | (k, JStr s) :: rest => let* ms := z_metric_entries rest in Return ((k, MStr s) :: ms)
  | _ :: _ => Throw zod_error
  end.

(** [z.record(z.union([z.number(), z.string()])).optional()] *)
Definition z_metrics_optional (v : JsValue) : result (option (list (string * MetricValue))) :=
  match v with
  | JUndefined => Return None
  | JObj fields => let* ms := z_metric_entries fields in Return (Some ms)
  | _ => Throw zod_error
  end.

(** [ProjectManifestSchema.parse(v)]: [v] must be an object, every declared
    key is optional, undeclared keys are stripped. *)
Definition ProjectManifestSchema_parse (v : JsValue) : result ProjectManifest :=
  match v with
  | JObj fields =>
      let* title := z_string_optional (get_field fields "title") in
      let* status := z_enum_optional Status_of_string (get_field fields "status") in
      let* tier := z_enum_optional Tier_of_string (get_field fields "tier") in
      let* stack := z_string_array_optional (get_field fields "stack") in
      let* roles := z_string_array_optional (get_field fields "roles") in
      let* live_url := z_string_optional (get_field fields "live_url") in
      let* demo_url := z_string_optional (get_field fields "demo_url") in
      let* repo_url := z_string_optional (get_field fields "repo_url") in
      let* homepage_url := z_string_optional (get_field fields "homepage_url") in
      let* highlights := z_string_array_optional (get_field fields "highlights") in
      let* metrics := z_metrics_optional (get_field fields "metrics") in
      let* topics := z_string_array_optional (get_field fields "topics") in
      let* visibility := z_enum_optional Visibility_of_string (get_field fields "visibility") in
      Return {| m_title := title; m_status := status; m_tier := tier;
                m_stack := stack; m_roles := roles; m_live_url := live_url;
                m_demo_url := demo_url; m_repo_url := repo_url;
                m_homepage_url := homepage_url; m_highlights := highlights;
                m_metrics := metrics; m_topics := topics;
                m_visibility := visibility |}
  | _ => Throw zod_error
  end.

(** *** Zod validation of [ProjectSchema] *)

Definition Source_to_string (s : Source) : string :=
  match s with
  | Github => "github"
  | Manual => "manual"
  end.

Definition Source_of_string (s : string) : option Source :=
  if s =? "github" then Some Github
  else if s =? "manual" then Some Manual
  else None.

(** [z.string()] *)
Definition z_string (v : JsValue) : result string :=
  match v with
  | JStr s => Return s
  | _ => Throw zod_error
  end.

(** [z.number()]: a value of type number other than [NaN]. *)
Definition z_number (v : JsValue) : result number :=
  match v with
  | JNum n => if Number_isNaN n then Throw zod_error else Return n
  | _ => Throw zod_error
  end.

(** [z.enum([...])] *)
Definition z_enum {A : Type} (of_string : string -> option A) (v : JsValue) : result A :=
  match v with
  | JStr s => match of_string s with
              | Some a => Return a
              | None => Throw zod_error
              end
  | _ => Throw zod_error
  end.

(** [z.enum([...]).default(d)] *)
Definition z_enum_default {A : Type} (of_string : string -> option A) (d : A) (v : JsValue)
  : result A :=
  match v with
  | JUndefined => Return d
  | _ => z_enum of_string v
  end.

(** [z.array(z.string())] *)
Definition z_string_array (v : JsValue) : result (list string) :=
  match v with
  | JArr items => z_strings items
  | _ => Throw zod_error
  end.

(** [ProjectManifestSchema.optional()] *)
Definition z_manifest_optional (v : JsValue) : result (option ProjectManifest) :=
  match v with
  | JUndefined => Return None
  | _ => let* m := ProjectManifestSchema_parse v in Return (Some m)
  end.

(** [ProjectSchema.parse(v)] *)
Definition ProjectSchema_parse (v : JsValue) : result Project :=
  match v with
  | JObj fields =>
      let* slug := z_string (get_field fields "slug") in
      let* title := z_string (get_field fields "title") in
      let* description := z_string_optional (get_field fields "description") in
      let* source := z_enum_default Source_of_string Github (get_field fields "source") in
      let* status := z_enum Status_of_string (get_field fields "status") in
      let* tier := z_enum Tier_of_string (get_field fields "tier") in
      let* topics := z_string_array (get_field fields "topics") in
      let* domains := z_string_array (get_field fields "domains") in
      let* stack := z_string_array (get_field fields "stack") in
      let* roles := z_string_array (get_field fields "roles") in
      let* repoUrl := z_string_optional (get_field fields "repoUrl") in
      let* homepageUrl := z_string_optional (get_field fields "homepageUrl") in
      let* liveUrl := z_string_optional (get_field fields "liveUrl") in
      let* demoUrl := z_string_optional (get_field fields "demoUrl") in
      let* stars := z_number (get_field fields "stars") in
      let* pushedAt := z_string (get_field fields "pushedAt") in
      let* ogImage := z_string_optional (get_field fields "ogImage") in
      let* highlights := z_string_array_optional (get_field fields "highlights") in
      let* metrics := z_metrics_optional (get_field fields "metrics") in
      let* manifest := z_manifest_optional (get_field fields "manifest") in
      let* visibility :=
        z_enum_default Visibility_of_string Portfolio (get_field fields "visibility") in
      Return {| slug := slug; title := title; description := description;
                source := source; status := status; tier := tier;
                topics := topics; domains := domains; stack := stack;
                roles := roles; repoUrl := repoUrl; homepageUrl := homepageUrl;
                liveUrl := liveUrl; demoUrl := demoUrl; stars := stars;
                pushedAt := pushedAt; ogImage := ogImage;
                highlights := highlights; metrics := metrics;
                manifest := manifest; visibility := visibility |}
  | _ => Throw zod_error
  end.

(** *** Values whose type has not been checked

    What the statements of [load-manual.ts] do to the document. *)

(** Truthiness. *)
Definition js_truthy (v : JsValue) : bool :=
  match v with
  | JUndefined | JNull => false
  | JBool b => b
  | JNum (S754_zero _) | JNum S754_nan => false
  | JNum _ => true
  | JStr s => negb (s =? "")
  | JArr _ | JObj _ => true
  end.

(** [a || b] *)
Definition js_or (a b : JsValue) : JsValue :=
  if js_truthy a then a else b.

(** [a ?? b] *)
Definition js_coalesce (a b : JsValue) : JsValue :=
  match a with
  | JUndefined | JNull => b
  | _ => a
  end.

(** [v === s] for a string [s] *)
Definition js_is_string (v : JsValue) (s : string) : bool :=
  match v with
  | JStr t => t =? s
  | _ => false
  end.

(** The [TypeError] of reading a property of [undefined] or [null], and
    of calling what is not a function. The messages are those of V8. *)
Definition cannot_read (value property : string) : exn :=
  Error ("Cannot read properties of " ++ value ++ " (reading '" ++ property ++ "')").

Definition not_a_function (callee : string) : exn :=
  Error (callee ++ " is not a function").

(** The properties of a value, at the read of its property [key]: reading a
    property of [undefined] or [null] throws; a boolean, a number, a string
    and an array have none of the properties the loader reads. *)
Definition js_properties (v : JsValue) (key : string)
  : result (list (string * JsValue)) :=
  match v with
  | JUndefined => Throw (cannot_read "undefined" key)
  | JNull => Throw (cannot_read "null" key)
  | JObj fields => Return fields
  | _ => Return []
  end.

(** The use of a value as an array of strings, as in
    [topics.filter(topic => topic.startsWith('domain:'))] of
    [extractDomainsFromTopics]: [filter] is a method of arrays and
    [startsWith] a method of strings, so the call throws on anything else,
    at the first element that is not a string. *)
Fixpoint string_elements (items : list JsValue) : result (list string) :=
  match items with
  | [] => Return []
  | JStr s :: rest => let* names := string_elements rest in Return (s :: names)
  | JUndefined :: _ => Throw (cannot_read "undefined" "startsWith")
  | JNull :: _ => Throw (cannot_read "null" "startsWith")
  | _ :: _ => Throw (not_a_function "topic.startsWith")
  end.

Definition as_string_array (v : JsValue) : result (list string) :=
  match v with
  | JArr items => string_elements items
  | _ => Throw (not_a_function "topics.filter")
  end.

(** An array of strings as a value. *)
Definition js_strings (xs : list string) : JsValue := JArr (map JStr xs).

(** *** A document read at the interface [ManualProjectManifest]

    [read_record doc] is the record that [doc] is at the interface type,
    when there is one: the fields that the loader hands to the schema are
    absent or have their declared types (and no metric is [NaN]). The
    fields that the loader only tests are read as it tests them: a [slug]
    that is falsy and a [source] that is not a string count as absent, and
    [include] is its truthiness. *)
Definition read_slug (v : JsValue) : option (option string) :=
  match v with
  | JStr s => Some (Some s)
  | _ => if js_truthy v then None else Some None
  end.

Definition read_source (v : JsValue) : option string :=
  match v with
  | JStr s => Some s
  | _ => None
  end.

Definition read_include (v : JsValue) : option bool :=
  match v with
  | JUndefined | JNull => None
  | _ => Some (js_truthy v)
  end.

Definition read_record (doc : JsValue) : option ManualProjectManifest :=
  match js_properties doc "slug" with
  | Throw _ => None
  | Return fields =>
      match ProjectManifestSchema_parse (JObj fields),
            read_slug (get_field fields "slug"),
            z_string_optional (get_field fields "description") with
      | Return m, Some slug, Return description =>
          Some {| mm_slug := slug;
                  mm_title := m.(m_title);
                  mm_source := read_source (get_field fields "source");
                  mm_include := read_include (get_field fields "include");
                  mm_visibility := m.(m_visibility);
                  mm_status := m.(m_status);
                  mm_tier := m.(m_tier);
                  mm_stack := m.(m_stack);
                  mm_roles := m.(m_roles);
                  mm_live_url := m.(m_live_url);
                  mm_demo_url := m.(m_demo_url);
                  mm_repo_url := m.(m_repo_url);
                  mm_homepage_url := m.(m_homepage_url);
                  mm_highlights := m.(m_highlights);
                  mm_metrics := m.(m_metrics);
                  mm_topics := m.(m_topics);
                  mm_description := description |}
      | _, _, _ => None
      end
  end.

(** A document that declares the fields of a record; an absent field
    reads [undefined]. *)
Definition js_optional {A : Type} (to_js : A -> JsValue) (v : option A) : JsValue :=
  match v with
  | Some a => to_js a
  | None => JUndefined
  end.

Definition js_metric (entry : string * MetricValue) : string * JsValue :=
  match entry with
  | (k, MNum n) => (k, JNum n)
  | (k, MStr s) => (k, JStr s)
  end.

Definition js_metrics (ms : list (string * MetricValue)) : JsValue :=
  JObj (map js_metric ms).

Definition document_of (m : ManualProjectManifest) : JsValue :=
  JObj [ ("slug", js_optional JStr m.(mm_slug));
         ("title", js_optional JStr m.(mm_title));
         ("source", js_optional JStr m.(mm_source));
         ("include", js_optional JBool m.(mm_include));
         ("visibility", js_optional (fun v => JStr (Visibility_to_string v))
                          m.(mm_visibility));
         ("status", js_optional (fun v => JStr (Status_to_string v)) m.(mm_status));
         ("tier", js_optional (fun v => JStr (Tier_to_string v)) m.(mm_tier));
         ("stack", js_optional js_strings m.(mm_stack));
         ("roles", js_optional js_strings m.(mm_roles));
         ("live_url", js_optional JStr m.(mm_live_url));
         ("demo_url", js_optional JStr m.(mm_demo_url));
         ("repo_url", js_optional JStr m.(mm_repo_url));
         ("homepage_url", js_optional JStr m.(mm_homepage_url));
         ("highlights", js_optional js_strings m.(mm_highlights));
         ("metrics", js_optional js_metrics m.(mm_metrics));
         ("topics", js_optional js_strings m.(mm_topics));
         ("description", js_optional JStr m.(mm_description)) ].

(** *** scripts/github.ts and src/lib/projects.ts: further types *)

(** [GitHubResponse['data']['user']['repositories']]: a page of the
    listing. *)
Record PageInfo : Type := {
  hasNextPage : bool;
  endCursor : option string
}.

Record RepositoriesPage : Type := {
  page_nodes : list GitHubRepository;
  pageInfo : PageInfo
}.

(** [GitHubResponse['data']]: the value of the [data] key of the host's
    answer to the query. The host answers [user: null] for a login it does
    not know. *)
Record UserNode : Type := { repositories : RepositoriesPage }.
Record ResponseData : Type := { user : option UserNode }.

(** What the client resolves to. The fetch reads it at the type
    [GitHubResponse], as an object that holds the data under a property
    [data] ([Enveloped]). The other shape is the data itself ([Bare]), an
    object with the property [user] and without a property [data]: that is
    what [graphql] of [@octokit/graphql] is documented to resolve to. *)
Inductive ClientResponse : Type :=
| Enveloped (data : ResponseData)
| Bare (data : ResponseData).

Definition page_data (page : RepositoriesPage) : ResponseData :=
  {| user := Some {| repositories := page |} |}.

(** [ProjectFilters] *)
Record ProjectFilters : Type := {
  f_category : string;
  f_status : string;
  f_search : string;
  f_domain : string
}.

(** [BuildStats] of [scripts/build-projects.ts]; a [Record<string, number>]
    is the list of its entries in insertion order. *)
Record BuildStats : Type := {
  totalRepos : nat;
  manifestsFound : nat;
  b_included : nat;
  b_skipped : nat;
  b_errors : nat;
  tierCounts : list (string * nat);
  statusCounts : list (string * nat);
  visibilityCounts : list (string * nat);
  githubCount : nat;
  manualCount : nat;
  includedManual : nat;
  skippedManual : nat
}.

(* ================================================================== *)
(** ** Sample inputs *)

(** A stand-in for js-yaml on the documents of the examples: the empty
    document loads as [undefined], anything unlisted is malformed. *)
Definition sample_yaml_load (s : string) : result JsValue :=
  if s =? "" then Return JUndefined
  else if s =? "tier: flagship" then Return (JObj [("tier", JStr "flagship")])
  else if s =? "status: bogus" then Return (JObj [("status", JStr "bogus")])
  else if s =? "repo_url: https://elsewhere.example/x"
       then Return (JObj [("repo_url", JStr "https://elsewhere.example/x")])
  else if s =? "topics: [portfolio:featured, portfolio:complete]"
       then Return (JObj [("topics", JArr [JStr "portfolio:featured";
                                            JStr "portfolio:complete"])])
  else Throw (Error "YAMLException").

(** A stand-in for the date parser on the timestamps of the examples. *)
Definition sample_getTime (s : string) : option Z :=
  if s =? "2024-01-01T00:00:00Z" then Some 1704067200000%Z
  else if s =? "2024-03-01T00:00:00Z" then Some 1709251200000%Z
  else if s =? "2024-06-01T00:00:00.000Z" then Some 1717200000000%Z
  else None.

Definition sample_now (i : nat) : string := "2024-06-01T00:00:00.000Z".

Definition sample_repo (repo_name pushedAt : string) (tags : list string)
    (manifestText : option string) : GitHubRepository :=
  {| repo_name := repo_name; repo_description := None; stargazerCount := number_of_Z 3;
     repo_pushedAt := pushedAt; isArchived := false; isFork := false;
     repo_homepageUrl := None; openGraphImageUrl := None;
     url := "https://github.com/jjwprotozoa/" ++ repo_name;
     repositoryTopics := {| nodes := map (fun t => {| topic := {| name := t |} |}) tags |};
     object := option_map (fun t => {| text := t |}) manifestText |}.

Definition sample_record (title : option string) (include : option bool)
    (tags : option (list string)) : ManualProjectManifest :=
  {| mm_slug := None; mm_title := title; mm_source := Some "manual";
     mm_include := include; mm_visibility := None; mm_status := None;
     mm_tier := None; mm_stack := None; mm_roles := None; mm_live_url := None;
     mm_demo_url := None; mm_repo_url := None; mm_homepage_url := None;
     mm_highlights := None; mm_metrics := None; mm_topics := tags;
     mm_description := None |}.

Definition sample_entry (file : string) (m : ManualProjectManifest) : DirEntry :=
  {| file := file; content := Return (document_of m) |}.

Definition sample_project (slug : string) (tier : Tier) (status : Status)
    (pushedAt : string) : Project :=
  {| slug := slug; title := slug; description := None; source := Github;
     status := status; tier := tier; topics := []; domains := []; stack := [];
     roles := []; repoUrl := None; homepageUrl := None; liveUrl := None;
     demoUrl := None; stars := number_of_Z 0; pushedAt := pushedAt; ogImage := None;
     highlights := None; metrics := None; manifest := None;
     visibility := Portfolio |}.

Definition sample_projects : list Project :=
  [ sample_project "c" Experiment Complete "2024-03-01T00:00:00Z";
    sample_project "a" Flagship InProgress "2024-01-01T00:00:00Z";
    sample_project "d" Experiment Complete "2024-01-01T00:00:00Z";
    sample_project "b" Flagship Complete "2024-01-01T00:00:00Z" ].

(** Two pages of a listing, and hosts that serve them or fail. *)
Definition flagged_repo (repo_name : string) (fork archived : bool) : GitHubRepository :=
  {| repo_name := repo_name; repo_description := None; stargazerCount := number_of_Z 0;
     repo_pushedAt := "2024-01-01T00:00:00Z"; isArchived := archived; isFork := fork;
     repo_homepageUrl := None; openGraphImageUrl := None;
     url := "https://github.com/jjwprotozoa/" ++ repo_name;
     repositoryTopics := {| nodes := [] |}; object := None |}.

Definition sample_page1 : RepositoriesPage :=
  {| page_nodes := [flagged_repo "a" false false; flagged_repo "f" true false];
     pageInfo := {| hasNextPage := true; endCursor := Some "c1" |} |}.

Definition sample_page2 : RepositoriesPage :=
  {| page_nodes := [flagged_repo "x" false true; flagged_repo "b" false false];
     pageInfo := {| hasNextPage := false; endCursor := None |} |}.

(** A client that resolves to objects with a [data] property, one whose
    second request is rejected, and one that resolves to the data itself. *)
Definition sample_host (n : nat) (after : option string) : result ClientResponse :=
  match n, after with
  | 0, None => Return (Enveloped (page_data sample_page1))
  | 1, Some "c1" => Return (Enveloped (page_data sample_page2))
  | _, _ => Throw (Error "Bad credentials")
  end.

Definition sample_failing_host (n : nat) (after : option string)
  : result ClientResponse :=
  match n, after with
  | 0, None => Return (Enveloped (page_data sample_page1))
  | _, _ => Throw (Error "502 Bad Gateway")
  end.

Definition sample_bare_host (n : nat) (after : option string) : result ClientResponse :=
  match sample_host n after with
  | Return (Enveloped data) => Return (Bare data)
  | other => other
  end.

(** A project as [convertLegacyProject] of [src/lib/projects.ts] returns
    it for an item with the keys [id], [title], [featured], [status] and
    [endDate]. *)
Definition legacy_project (id : string) (featured : bool) (status : Status)
    (endDate : string) : Project :=
  {| slug := id; title := id; description := Some ""; source := Github;
     status := status; tier := if featured then Flagship else Mvp;
     topics := []; domains := [""]; stack := []; roles := ["Developer"];
     repoUrl := Some ""; homepageUrl := None; liveUrl := None; demoUrl := None;
     stars := number_of_Z 0; pushedAt := endDate; ogImage := None;
     highlights := Some []; metrics := Some []; manifest := None;
     visibility := if featured then Featured else Portfolio |}.

Definition legacy_projects : list Project :=
  [ legacy_project "kids-call-home" true Complete "2024-03-01T00:00:00Z";
    legacy_project "direct-dad" true InProgress "2024-01-01T00:00:00Z";
    legacy_project "box-breather" false Complete "2024-03-01T00:00:00Z";
    legacy_project "mindmaster-pro" false Complete "2024-01-01T00:00:00Z" ].

Definition sample_filters : ProjectFilters :=
  {| f_category := ""; f_status := "complete"; f_search := ""; f_domain := "" |}.

(* ================================================================== *)
(** ** The pipeline *)

Section Pipeline.

(** *** scripts/normalize.ts *)

(** [yaml.load(text)] of js-yaml: the document, or the exception raised on
    malformed input. *)
Variable yaml_load : string -> result JsValue.

(** [new Date(s).getTime()]: milliseconds since the epoch, [None] for the
    [NaN] of an invalid date. *)
Variable Date_getTime : string -> option Z.

Definition parseManifest (manifestText : option string) : result (option ProjectManifest) :=
  match truthy manifestText with
  | None => Return None
  | Some manifestText =>
      try_catch
        (let* parsed := yaml_load manifestText in
         let* m := ProjectManifestSchema_parse parsed in
         Return (Some m))
        (fun error => (* console.warn *) Return None)
  end.

Definition extractDomainsFromTopics (topics : list string) : list string :=
  map (fun topic => replace "domain:" "" topic)
      (filter (fun topic => startsWith topic "domain:") topics).

(** [manifest?.field] *)
Definition opt_field {A : Type} (manifest : option ProjectManifest)
    (field : ProjectManifest -> option A) : option A :=
  match manifest with
  | Some m => field m
  | None => None
  end.

Definition deriveStatus (manifest : option ProjectManifest) (topics : list string) : Status :=
  match opt_field manifest m_status with
  | Some s => s
  | None =>
      let portfolioTopics := filter (fun topic => startsWith topic "portfolio:") topics in
      match portfolioTopics with
      | first :: _ =>
          let statusTopic := replace "portfolio:" "" first in
          if statusTopic =? "complete" then Complete
          else if statusTopic =? "archived" then Archived
          else InProgress
      | [] => InProgress
      end
  end.

Definition deriveTier (manifest : option ProjectManifest) : Tier :=
  or_value (opt_field manifest m_tier) Experiment.

Definition deriveVisibility (manifest : option ProjectManifest) (topics : list string)
  : Visibility :=
  match opt_field manifest m_visibility with
  | Some v => v
  | None =>
      let portfolioTopics := filter (fun topic => startsWith topic "portfolio:") topics in
      match portfolioTopics with
      | first :: _ =>
          let visibilityTopic := replace "portfolio:" "" first in
          match Visibility_of_string visibilityTopic with
          | Some v => v
          | None => Portfolio
          end
      | [] => Portfolio
      end
  end.

Definition normalizeProject (repo : GitHubRepository) : result Project :=
  let* manifest := parseManifest (or_else (option_map text repo.(object)) None) in
  let githubTopics := map (fun node => node.(topic).(name)) repo.(repositoryTopics).(nodes) in
  let manifestTopics := or_value (opt_field manifest m_topics) [] in
  let allTopics := Set_of (githubTopics ++ manifestTopics) in
  let domains := extractDomainsFromTopics allTopics in
  let status := deriveStatus manifest allTopics in
  let tier := deriveTier manifest in
  let visibility := deriveVisibility manifest allTopics in
  Return
    {| slug := repo.(repo_name);
       title := or_default (opt_field manifest m_title) repo.(repo_name);
       description := or_else repo.(repo_description) None;
       source := Github;
       status := status;
       tier := tier;
       topics := allTopics;
       domains := domains;
       stack := or_value (opt_field manifest m_stack) [];
       roles := or_value (opt_field manifest m_roles) [];
       repoUrl := Some repo.(url);
       homepageUrl := or_else repo.(repo_homepageUrl)
                        (or_else (opt_field manifest m_homepage_url) None);
       liveUrl := or_else (opt_field manifest m_live_url) None;
       demoUrl := or_else (opt_field manifest m_demo_url) None;
       stars := repo.(stargazerCount);
       pushedAt := repo.(repo_pushedAt);
       ogImage := or_else repo.(openGraphImageUrl) None;
       highlights := opt_field manifest m_highlights;
       metrics := opt_field manifest m_metrics;
       manifest := None;
       visibility := visibility |}.

Definition tierOrder (t : Tier) : Z :=
  match t with
  | Flagship => 0
  | Mvp => 1
  | Experiment => 2
  end.

Definition statusOrder (s : Status) : Z :=
  match s with
  | Complete => 0
  | InProgress => 1
  | Archived => 2
  end.

(** The number [compareProjects] returns; [None] is [NaN], which the
    subtraction of two time values yields when either date is invalid. *)
Definition compareProjects (a b : Project) : option Z :=
  let tierComparison := (tierOrder a.(tier) - tierOrder b.(tier))%Z in
  if negb (tierComparison =? 0)%Z then Some tierComparison
  else
    let statusComparison := (statusOrder a.(status) - statusOrder b.(status))%Z in
    if negb (statusComparison =? 0)%Z then Some statusComparison
    else
      match Date_getTime b.(pushedAt), Date_getTime a.(pushedAt) with
      | Some tb, Some ta => Some (tb - ta)%Z
      | _, _ => None
      end.

(** *** [Array.prototype.sort]

    [SortCompare] of ECMAScript: the comparator's result, with [NaN] read
    as [+0]. The sort is stable (ES2019); it is modelled as the stable
    insertion sort, in which an element moves behind exactly those elements
    it compares strictly greater than. For a consistent comparator the
    result does not depend on this choice ([stable_sort_unique]). *)
Definition SortCompare {A : Type} (comparefn : A -> A -> option Z) (x y : A) : Z :=
  match comparefn x y with
  | Some v => v
  | None => 0%Z
  end.

Fixpoint sort_insert {A : Type} (comparefn : A -> A -> option Z) (x : A) (sorted : list A)
  : list A :=
  match sorted with
  | [] => [x]
  | y :: rest =>
      if (0 <? SortCompare comparefn x y)%Z
      then y :: sort_insert comparefn x rest
      else x :: sorted
  end.

Definition Array_sort {A : Type} (comparefn : A -> A -> option Z) (xs : list A) : list A :=
  fold_right (sort_insert comparefn) [] xs.

Definition sortProjects (projects : list Project) : list Project :=
  Array_sort compareProjects projects.

(** *** scripts/load-manual.ts *)

(** [new Date().toISOString()] while the file at position [i] of the
    listing is processed. *)
Variable Date_now : nat -> string.

Definition initial_stats : LoadManualStats :=
  {| totalFiles := 0; validFiles := 0; invalidFiles := 0;
     included := 0; skipped := 0; errors := [] |}.

Definition set_totalFiles (n : nat) (st : LoadManualStats) : LoadManualStats :=
  {| totalFiles := n; validFiles := st.(validFiles);
     invalidFiles := st.(invalidFiles); included := st.(included);
     skipped := st.(skipped); errors := st.(errors) |}.

Definition incr_validFiles (st : LoadManualStats) : LoadManualStats :=
  {| totalFiles := st.(totalFiles); validFiles := S st.(validFiles);
     invalidFiles := st.(invalidFiles); included := st.(included);
     skipped := st.(skipped); errors := st.(errors) |}.

Definition incr_included (st : LoadManualStats) : LoadManualStats :=
  {| totalFiles := st.(totalFiles); validFiles := st.(validFiles);
     invalidFiles := st.(invalidFiles); included := S st.(included);
     skipped := st.(skipped); errors := st.(errors) |}.

Definition incr_skipped (st : LoadManualStats) : LoadManualStats :=
  {| totalFiles := st.(totalFiles); validFiles := st.(validFiles);
     invalidFiles := st.(invalidFiles); included := st.(included);
     skipped := S st.(skipped); errors := st.(errors) |}.

Definition record_invalid (msg : string) (st : LoadManualStats) : LoadManualStats :=
  {| totalFiles := st.(totalFiles); validFiles := st.(validFiles);
     invalidFiles := S st.(invalidFiles); included := st.(included);
     skipped := st.(skipped); errors := st.(errors) ++ [msg] |}.

Definition is_manual (src : option string) : bool :=
  match src with
  | Some s => s =? "manual"
  | None => false
  end.

(** The normalized project of a record: what the loader's object literal
    is for a document that reads as the record [manifest] and passed the
    two required-field checks. *)
Definition manual_project (pushedAt : string) (slug title : string)
    (manifest : ManualProjectManifest) : Project :=
  let visibility := or_value manifest.(mm_visibility) Ventures in
  let status := or_value manifest.(mm_status) InProgress in
  let tier := or_value manifest.(mm_tier) Mvp in
  let topics := or_value manifest.(mm_topics) ["portfolio:include"] in
  let domains := extractDomainsFromTopics topics in
  {| slug := slug;
     title := title;
     description := manifest.(mm_description);
     source := Manual;
     status := status;
     tier := tier;
     topics := topics;
     domains := domains;
     stack := or_value manifest.(mm_stack) [];
     roles := or_value manifest.(mm_roles) [];
     repoUrl := or_else manifest.(mm_repo_url) None;
     homepageUrl := or_else manifest.(mm_homepage_url) None;
     liveUrl := or_else manifest.(mm_live_url) None;
     demoUrl := or_else manifest.(mm_demo_url) None;
     stars := number_of_Z 0;
     pushedAt := pushedAt;
     ogImage := None;
     highlights := manifest.(mm_highlights);
     metrics := manifest.(mm_metrics);
     manifest := Some {| m_title := Some title;
                         m_status := manifest.(mm_status);
                         m_tier := manifest.(mm_tier);
                         m_stack := manifest.(mm_stack);
                         m_roles := manifest.(mm_roles);
                         m_live_url := manifest.(mm_live_url);
                         m_demo_url := manifest.(mm_demo_url);
                         m_repo_url := manifest.(mm_repo_url);
                         m_homepage_url := manifest.(mm_homepage_url);
                         m_highlights := manifest.(mm_highlights);
                         m_metrics := manifest.(mm_metrics);
                         m_topics := manifest.(mm_topics);
                         m_visibility := manifest.(mm_visibility) |};
     visibility := visibility |}.

(** The body of the [try] block of the loop over the files, on the
    document [yaml.load] returned. Nothing is mutated before the last
    statement that can throw, so the block is a function from the loader's
    variables to their new values. *)
Definition process_file (i : nat) (entry : DirEntry) (ld : Loader) : result Loader :=
  let* parsed := entry.(content) in
  let* manifest := js_properties parsed "slug" in
  let prop := get_field manifest in
  let filenameSlug := path_parse_name entry.(file) in
  let slug := js_or (prop "slug") (JStr filenameSlug) in
  if negb (js_truthy (prop "title"))
  then Throw (Error "Missing required field: title")
  else if negb (js_is_string (prop "source") "manual")
  then Throw (Error ("Source must be " ++ double_quote ++ "manual" ++ double_quote))
  else
    let include := js_coalesce (prop "include") (JBool true) in
    let visibility := js_or (prop "visibility") (JStr "ventures") in
    let status := js_or (prop "status") (JStr "in-progress") in
    let tier := js_or (prop "tier") (JStr "mvp") in
    let topics := js_or (prop "topics") (JArr [JStr "portfolio:include"]) in
    let pushedAt := Date_now i in
    let* topicNames := as_string_array topics in
    let domains := extractDomainsFromTopics topicNames in
    let project :=
      JObj [ ("slug", slug);
             ("title", prop "title");
             ("description", prop "description");
             ("source", JStr "manual");
             ("status", status);
             ("tier", tier);
             ("topics", topics);
             ("domains", js_strings domains);
             ("stack", js_or (prop "stack") (JArr []));
             ("roles", js_or (prop "roles") (JArr []));
             ("repoUrl", js_or (prop "repo_url") JUndefined);
             ("homepageUrl", js_or (prop "homepage_url") JUndefined);
             ("liveUrl", js_or (prop "live_url") JUndefined);
             ("demoUrl", js_or (prop "demo_url") JUndefined);
             ("stars", JNum (number_of_Z 0));
             ("pushedAt", JStr pushedAt);
             ("ogImage", JUndefined);
             ("highlights", prop "highlights");
             ("metrics", prop "metrics");
             ("visibility", visibility);
             ("manifest",
              JObj [ ("title", prop "title");
                     ("status", prop "status");
                     ("tier", prop "tier");
                     ("stack", prop "stack");
                     ("roles", prop "roles");
                     ("live_url", prop "live_url");
                     ("demo_url", prop "demo_url");
                     ("repo_url", prop "repo_url");
                     ("homepage_url", prop "homepage_url");
                     ("highlights", prop "highlights");
                     ("metrics", prop "metrics");
                     ("topics", prop "topics");
                     ("visibility", prop "visibility") ]) ] in
    let* validatedProject := ProjectSchema_parse project in
    let shouldInclude := js_truthy include && includes topicNames "portfolio:include" in
    let shouldExclude := includes topicNames "portfolio:hide" in
    let ld' :=
      if shouldExclude then
        {| projects := ld.(projects); stats := incr_skipped ld.(stats) |}
      else if shouldInclude then
        {| projects := ld.(projects) ++ [validatedProject];
           stats := incr_included ld.(stats) |}
      else
        {| projects := ld.(projects); stats := incr_skipped ld.(stats) |} in
    Return {| projects := ld'.(projects); stats := incr_validFiles ld'.(stats) |}.

(** One iteration: the [try] block and its [catch]. *)
Definition load_file (i : nat) (entry : DirEntry) (ld : Loader) : Loader :=
  match process_file i entry ld with
  | Return ld' => ld'
  | Throw error =>
      {| projects := ld.(projects);
         stats := record_invalid (entry.(file) ++ ": " ++ error_message error) ld.(stats) |}
  end.

Fixpoint load_files (i : nat) (files : list DirEntry) (ld : Loader) : Loader :=
  match files with
  | [] => ld
  | entry :: rest => load_files (S i) rest (load_file i entry ld)
  end.

Definition is_yaml_file (entry : DirEntry) : bool :=
  endsWith entry.(file) ".yml" || endsWith entry.(file) ".yaml".

(** [readdirSync] either lists the directory or throws; the outer [catch]
    then returns no project and the untouched statistics. *)
Definition loadManualProjects (manualDir : result (list DirEntry)) : Loader :=
  match manualDir with
  | Return entries =>
      let files := filter is_yaml_file entries in
      load_files 0 files
        {| projects := []; stats := set_totalFiles (List.length files) initial_stats |}
  | Throw _ => {| projects := []; stats := initial_stats |}
  end.

(** *** scripts/build-projects.ts *)

Definition validateStatus (status : string) : Status :=
  let normalized := trim (toLowerCase status) in
  match Status_of_string normalized with
  | Some v => v
  | None => InProgress
  end.

Definition validateTier (tier : string) : Tier :=
  let normalized := trim (toLowerCase tier) in
  match Tier_of_string normalized with
  | Some v => v
  | None => Experiment
  end.

Definition validateVisibility (visibility : string) : Visibility :=
  let normalized := trim (toLowerCase visibility) in
  match Visibility_of_string normalized with
  | Some v => v
  | None => Portfolio
  end.

(** [validateManifestKeys]: the copy keeps the allowed keys, and [repo_url]
    is not among them. *)
Definition validateManifestKeys (m : ProjectManifest) : ProjectManifest :=
  {| m_title := m.(m_title); m_status := m.(m_status); m_tier := m.(m_tier);
     m_stack := m.(m_stack); m_roles := m.(m_roles);
     m_live_url := m.(m_live_url); m_demo_url := m.(m_demo_url);
     m_repo_url := None; m_homepage_url := m.(m_homepage_url);
     m_highlights := m.(m_highlights); m_metrics := m.(m_metrics);
     m_topics := m.(m_topics); m_visibility := m.(m_visibility) |}.

(** The assignments to [project.status], [project.tier],
    [project.visibility] and [project.manifest]. *)
Definition validate_project (p : Project) : Project :=
  {| slug := p.(slug); title := p.(title); description := p.(description);
     source := p.(source);
     status := validateStatus (Status_to_string p.(status));
     tier := validateTier (Tier_to_string p.(tier));
     topics := p.(topics); domains := p.(domains); stack := p.(stack);
     roles := p.(roles); repoUrl := p.(repoUrl); homepageUrl := p.(homepageUrl);
     liveUrl := p.(liveUrl); demoUrl := p.(demoUrl); stars := p.(stars);
     pushedAt := p.(pushedAt); ogImage := p.(ogImage);
     highlights := p.(highlights); metrics := p.(metrics);
     manifest := option_map validateManifestKeys p.(manifest);
     visibility := validateVisibility (Visibility_to_string p.(visibility)) |}.

(** One iteration of the loop over the repositories, with its [catch]. *)
Definition process_repository (githubProjects : list Project) (repo : GitHubRepository)
  : list Project :=
  match normalizeProject repo with
  | Return project => githubProjects ++ [validate_project project]
  | Throw _ => githubProjects
  end.

(** [main], from the fetched repositories to the collection it writes to
    [projects.json]; the statistics it logs are left out. *)
Definition main (repositories : list GitHubRepository)
    (manualDir : result (list DirEntry)) : list Project :=
  let githubProjects := fold_left process_repository repositories [] in
  let manualProjects := (loadManualProjects manualDir).(projects) in
  let allProjects := githubProjects ++ manualProjects in
  let sortedProjects := sortProjects allProjects in
  sortedProjects.

(** *** scripts/github.ts *)

(** What [graphqlWithAuth(REPOSITORIES_QUERY, { first: 100, after })]
    resolves to at the [n]-th request of a run, made with the cursor
    [after]: the client's answer, or the rejection of the request. *)
Variable graphqlWithAuth : nat -> option string -> result ClientResponse.

(** [response.data.user.repositories]: reading a property of [undefined]
    or of [null] throws a [TypeError]. *)
Definition response_repositories (response : ClientResponse) : result RepositoriesPage :=
  match response with
  | Bare _ => Throw (cannot_read "undefined" "user")
  | Enveloped data =>
      match data.(user) with
      | None => Throw (cannot_read "null" "repositories")
      | Some node => Return node.(repositories)
      end
  end.

(** The [while (hasNextPage)] loop of [fetchAllRepositories], entered with
    [hasNextPage] true, after [n] requests. The loop ends when an answer
    reports no further page or when the body of its [try] throws; [None]
    stands for a loop that is still running when the fuel is used up. *)
Fixpoint fetch_loop (fuel n : nat) (after : option string)
    (allRepositories : list GitHubRepository)
  : option (result (list GitHubRepository)) :=
  match fuel with
  | O => None
  | S fuel' =>
      match (let* response := graphqlWithAuth n after in
             response_repositories response) with
      | Return page =>
          let filteredNodes :=
            filter (fun repo => negb repo.(isFork) && negb repo.(isArchived))
                   page.(page_nodes) in
          let allRepositories := allRepositories ++ filteredNodes in
          if page.(pageInfo).(hasNextPage)
          then fetch_loop fuel' (S n) page.(pageInfo).(endCursor) allRepositories
          else Some (Return allRepositories)
      | Throw error =>
          Some (Throw (Error ("Failed to fetch repositories: " ++ error_message error)))
      end
  end.

Definition fetchAllRepositories (fuel : nat) : option (result (list GitHubRepository)) :=
  fetch_loop fuel 0 None [].

(** *** scripts/build-projects.ts: the statistics of a run *)

(** [counts[key] = (counts[key] || 0) + 1] *)
Fixpoint bump (key : string) (counts : list (string * nat)) : list (string * nat) :=
  match counts with
  | [] => [(key, 0 + 1)]
  | (k, n) :: rest =>
      if k =? key then (k, n + 1) :: rest else (k, n) :: bump key rest
  end.

(** [counts[key] || 0] *)
Fixpoint count_of (key : string) (counts : list (string * nat)) : nat :=
  match counts with
  | [] => 0
  | (k, n) :: rest => if k =? key then n else count_of key rest
  end.

Definition initial_build_stats : BuildStats :=
  {| totalRepos := 0; manifestsFound := 0; b_included := 0; b_skipped := 0;
     b_errors := 0; tierCounts := []; statusCounts := []; visibilityCounts := [];
     githubCount := 0; manualCount := 0; includedManual := 0; skippedManual := 0 |}.

(** The three tallies of one project. *)
Definition tally (project : Project) (st : BuildStats) : BuildStats :=
  {| totalRepos := st.(totalRepos); manifestsFound := st.(manifestsFound);
     b_included := st.(b_included); b_skipped := st.(b_skipped);
     b_errors := st.(b_errors);
     tierCounts := bump (Tier_to_string project.(tier)) st.(tierCounts);
     statusCounts := bump (Status_to_string project.(status)) st.(statusCounts);
     visibilityCounts :=
       bump (Visibility_to_string project.(visibility)) st.(visibilityCounts);
     githubCount := st.(githubCount); manualCount := st.(manualCount);
     includedManual := st.(includedManual); skippedManual := st.(skippedManual) |}.

(** The statistics after one iteration of the loop over the repositories. *)
Definition repository_stats (st : BuildStats) (repo : GitHubRepository) : BuildStats :=
  match normalizeProject repo with
  | Return project =>
      let project := validate_project project in
      let manifestsFound :=
        match project.(manifest) with
        | Some _ => S st.(manifestsFound)
        | None => st.(manifestsFound)
        end in
      tally project
        {| totalRepos := st.(totalRepos); manifestsFound := manifestsFound;
           b_included := S st.(b_included); b_skipped := st.(b_skipped);
           b_errors := st.(b_errors); tierCounts := st.(tierCounts);
           statusCounts := st.(statusCounts);
           visibilityCounts := st.(visibilityCounts);
           githubCount := S st.(githubCount); manualCount := st.(manualCount);
           includedManual := st.(includedManual);
           skippedManual := st.(skippedManual) |}
  | Throw _ =>
      {| totalRepos := st.(totalRepos); manifestsFound := st.(manifestsFound);
         b_included := st.(b_included); b_skipped := S st.(b_skipped);
         b_errors := S st.(b_errors); tierCounts := st.(tierCounts);
         statusCounts := st.(statusCounts);
         visibilityCounts := st.(visibilityCounts);
         githubCount := st.(githubCount); manualCount := st.(manualCount);
         includedManual := st.(includedManual);
         skippedManual := st.(skippedManual) |}
  end.

(** The statistics [main] has when it logs its summary. *)
Definition main_stats (repositories : list GitHubRepository)
    (manualDir : result (list DirEntry)) : BuildStats :=
  let st0 :=
    {| totalRepos := List.length repositories; manifestsFound := 0;
       b_included := 0; b_skipped := 0; b_errors := 0; tierCounts := [];
       statusCounts := []; visibilityCounts := []; githubCount := 0;
       manualCount := 0; includedManual := 0; skippedManual := 0 |} in
  let st1 := fold_left repository_stats repositories st0 in
  let loaded := loadManualProjects manualDir in
  let st2 :=
    {| totalRepos := st1.(totalRepos); manifestsFound := st1.(manifestsFound);
       b_included := st1.(b_included); b_skipped := st1.(b_skipped);
       b_errors := st1.(b_errors); tierCounts := st1.(tierCounts);
       statusCounts := st1.(statusCounts);
       visibilityCounts := st1.(visibilityCounts);
       githubCount := st1.(githubCount);
       manualCount := loaded.(stats).(totalFiles);
       includedManual := loaded.(stats).(included);
       skippedManual := loaded.(stats).(skipped) |} in
  fold_left (fun st project => tally project st) loaded.(projects) st2.

(** *** src/lib/projects.ts

    [getAllProjects()] returns the collection the module holds in its cache;
    the queries below take that collection as their argument
    [allProjects]. *)

(** [s.toLowerCase()] on the free text the search looks at. *)
Variable String_toLowerCase : string -> string.

(** [s.includes(t)] on strings *)
Fixpoint String_includes (s t : string) : bool :=
  startsWith s t
  || match s with
     | EmptyString => false
     | String _ s' => String_includes s' t
     end.

(** The comparator of the default [sort()], on strings: the
    lexicographic comparison of the code units, here of the characters of
    the model's strings. *)
Definition default_compare (x y : string) : option Z :=
  match String.compare x y with
  | Lt => Some (-1)%Z
  | Eq => Some 0%Z
  | Gt => Some 1%Z
  end.

(** [(a, b) => new Date(b.pushedAt).getTime() - new Date(a.pushedAt).getTime()] *)
Definition by_recency (a b : Project) : option Z :=
  match Date_getTime b.(pushedAt), Date_getTime a.(pushedAt) with
  | Some tb, Some ta => Some (tb - ta)%Z
  | _, _ => None
  end.

Definition Visibility_eqb (v w : Visibility) : bool :=
  Visibility_to_string v =? Visibility_to_string w.

Definition Status_eqb (v w : Status) : bool :=
  Status_to_string v =? Status_to_string w.

Definition getProjectBySlug (allProjects : list Project) (wanted : string)
  : option Project :=
  find (fun project => project.(slug) =? wanted) allProjects.

Definition getDomains (allProjects : list Project) : list string :=
  Array_sort default_compare (Set_of (flat_map domains allProjects)).

Definition getFeaturedProjects (allProjects : list Project) : list Project :=
  Array_sort by_recency
    (filter (fun project => Visibility_eqb project.(visibility) Featured) allProjects).

Definition getCurrentlyBuildingProjects (allProjects : list Project) : list Project :=
  firstn 6
    (Array_sort by_recency
       (filter (fun project => Status_eqb project.(status) InProgress) allProjects)).

Definition getPortfolioProjects (allProjects : list Project) : list Project :=
  Array_sort by_recency
    (filter (fun project => Visibility_eqb project.(visibility) Portfolio
                            || Visibility_eqb project.(visibility) Featured)
            allProjects).

Definition getLabsProjects (allProjects : list Project) : list Project :=
  Array_sort by_recency
    (filter (fun project => Visibility_eqb project.(visibility) Labs) allProjects).

Definition getVenturesProjects (allProjects : list Project) : list Project :=
  Array_sort by_recency
    (filter (fun project => Visibility_eqb project.(visibility) Ventures) allProjects).

(** The four filters of [getFilteredProjects]; an empty filter string is
    falsy and filters nothing. *)
Definition matches_search (searchTerm : string) (project : Project) : bool :=
  String_includes (String_toLowerCase project.(title)) searchTerm
  || match truthy project.(description) with
     | Some d => String_includes (String_toLowerCase d) searchTerm
     | None => false
     end
  || existsb (fun tech => String_includes (String_toLowerCase tech) searchTerm)
             project.(stack)
  || existsb (fun topic => String_includes (String_toLowerCase topic) searchTerm)
             project.(topics).

(** The comparator of the sort in [getFilteredProjects]. *)
Definition filtered_tierOrder (t : Tier) : Z :=
  match t with
  | Flagship => 3
  | Mvp => 2
  | Experiment => 1
  end.

Definition filtered_statusOrder (s : Status) : Z :=
  match s with
  | Complete => 3
  | InProgress => 2
  | Archived => 1
  end.

Definition filtered_compare (a b : Project) : option Z :=
  let tierDiff := (filtered_tierOrder b.(tier) - filtered_tierOrder a.(tier))%Z in
  if negb (tierDiff =? 0)%Z then Some tierDiff
  else
    let statusDiff :=
      (filtered_statusOrder b.(status) - filtered_statusOrder a.(status))%Z in
    if negb (statusDiff =? 0)%Z then Some statusDiff
    else by_recency a b.

Definition getFilteredProjects (filters : ProjectFilters) (allProjects : list Project)
  : list Project :=
  let projects :=
    filter (fun project => Visibility_eqb project.(visibility) Portfolio
                           || Visibility_eqb project.(visibility) Featured)
           allProjects in
  let projects :=
    if negb (filters.(f_search) =? "")
    then let searchTerm := String_toLowerCase filters.(f_search) in
         filter (matches_search searchTerm) projects
    else projects in
  let projects :=
    if negb (filters.(f_domain) =? "")
    then filter (fun project => includes project.(domains) filters.(f_domain)) projects
    else projects in
  let projects :=
    if negb (filters.(f_status) =? "")
    then filter (fun project => Status_to_string project.(status) =? filters.(f_status))
                projects
    else projects in
  Array_sort filtered_compare projects.

Definition getUniqueCategories (allProjects : list Project) : list string :=
  let categories :=
    map (fun project => or_default (hd_error project.(domains)) "Other") allProjects in
  Array_sort default_compare (Set_of categories).

Definition getUniqueStatuses (allProjects : list Project) : list string :=
  let statuses := map (fun project => Status_to_string project.(status)) allProjects in
  Array_sort default_compare (Set_of statuses).

Definition getProjectById (allProjects : list Project) (id : string) : option Project :=
  getProjectBySlug allProjects id.

(** *** Reference definitions used in the statements *)

(** The elements of [l] that are not in [seen], each at its first
    occurrence. *)
Fixpoint first_occurrences (seen l : list string) : list string :=
  match l with
  | [] => []
  | x :: rest =>
      if includes seen x then first_occurrences seen rest
      else x :: first_occurrences (seen ++ [x]) rest
  end.

(** The status rule in the words of the specification: the manifest's
    status, else the first tag that is [portfolio:complete] or
    [portfolio:archived], else [in-progress]. *)
Definition status_tag (t : string) : option Status :=
  if t =? "portfolio:complete" then Some Complete
  else if t =? "portfolio:archived" then Some Archived
  else None.

Fixpoint first_status_tag (tags : list string) : option Status :=
  match tags with
  | [] => None
  | t :: rest =>
      match status_tag t with
      | Some s => Some s
      | None => first_status_tag rest
      end
  end.

Definition status_by_first_matching_tag (manifest : option ProjectManifest)
    (tags : list string) : Status :=
  match opt_field manifest m_status with
  | Some s => s
  | None => or_value (first_status_tag tags) InProgress
  end.

(** Two tag lists that differ only in the tags of one name space. *)
Definition same_outside (prefix : string) (t1 t2 : list string) : Prop :=
  filter (fun t => negb (startsWith t prefix)) t1
  = filter (fun t => negb (startsWith t prefix)) t2.

(** A raw remote record with another sidecar document, and with other
    host tags. *)
Definition with_object (repo : GitHubRepository) (blob : option Blob) : GitHubRepository :=
  {| repo_name := repo.(repo_name); repo_description := repo.(repo_description);
     stargazerCount := repo.(stargazerCount); repo_pushedAt := repo.(repo_pushedAt);
     isArchived := repo.(isArchived); isFork := repo.(isFork);
     repo_homepageUrl := repo.(repo_homepageUrl);
     openGraphImageUrl := repo.(openGraphImageUrl); url := repo.(url);
     repositoryTopics := repo.(repositoryTopics); object := blob |}.

Definition with_topics (repo : GitHubRepository) (tags : list string) : GitHubRepository :=
  {| repo_name := repo.(repo_name); repo_description := repo.(repo_description);
     stargazerCount := repo.(stargazerCount); repo_pushedAt := repo.(repo_pushedAt);
     isArchived := repo.(isArchived); isFork := repo.(isFork);
     repo_homepageUrl := repo.(repo_homepageUrl);
     openGraphImageUrl := repo.(openGraphImageUrl); url := repo.(url);
     repositoryTopics := {| nodes := map (fun t => {| topic := {| name := t |} |}) tags |};
     object := repo.(object) |}.

Definition github_topics (repo : GitHubRepository) : list string :=
  map (fun node => node.(topic).(name)) repo.(repositoryTopics).(nodes).

Definition manifest_text (repo : GitHubRepository) : option string :=
  or_else (option_map text repo.(object)) None.

(** Outcomes of the two stages of manifest parsing on a text. *)
Definition fails_to_parse (s : string) : Prop :=
  exists e, yaml_load s = Throw e.

Definition fails_validation (s : string) : Prop :=
  exists v e, yaml_load s = Return v /\ ProjectManifestSchema_parse v = Throw e.

(** The signals of the inclusion policy of a local record, after
    defaulting. *)
Definition record_include (m : ManualProjectManifest) : bool :=
  or_value m.(mm_include) true.

Definition record_topics (m : ManualProjectManifest) : list string :=
  or_value m.(mm_topics) ["portfolio:include"].

Definition record_slug (entry : DirEntry) (m : ManualProjectManifest) : string :=
  or_default m.(mm_slug) (path_parse_name entry.(file)).

Definition hidden (m : ManualProjectManifest) : bool :=
  includes (record_topics m) "portfolio:hide".

Definition opted_in (m : ManualProjectManifest) : bool :=
  record_include m && includes (record_topics m) "portfolio:include".

(** A local record that parses, reads as the record [m] at the interface
    type, and has its required fields. *)
Definition well_formed_record (entry : DirEntry) (m : ManualProjectManifest)
    (title : string) : Prop :=
  (exists doc, entry.(content) = Return doc /\ read_record doc = Some m)
  /\ truthy m.(mm_title) = Some title
  /\ is_manual m.(mm_source) = true.








(** [x] may stand before [y] under a comparator. *)
Definition in_order {A : Type} (comparefn : A -> A -> option Z) (x y : A) : Prop :=
  (SortCompare comparefn x y <= 0)%Z.

(** [x] and [y] compare equal: a stable sort keeps such elements in their
    input order. *)
Definition equivalent {A : Type} (comparefn : A -> A -> option Z) (x y : A) : bool :=
  (SortCompare comparefn x y =? 0)%Z.

(** A project whose [pushedAt] is a date. *)
Definition valid_date (p : Project) : Prop :=
  Date_getTime p.(pushedAt) <> None.

(** The ranking in the words of the specification: tier first (flagship,
    then mvp, then experiment), then status (complete, then in-progress,
    then archived), then the more recent [pushedAt] first. *)
Definition ranks_before_or_with (a b : Project) : Prop :=
  (tierOrder a.(tier) < tierOrder b.(tier))%Z
  \/ (a.(tier) = b.(tier)
      /\ ((statusOrder a.(status) < statusOrder b.(status))%Z
          \/ (a.(status) = b.(status)
              /\ exists ta tb,
                   Date_getTime a.(pushedAt) = Some ta
                   /\ Date_getTime b.(pushedAt) = Some tb
                   /\ (tb <= ta)%Z))).

(** Equality of tiers, as the comparison of their literals. *)
Definition Tier_eqb (v w : Tier) : bool :=
  Tier_to_string v =? Tier_to_string w.

(** The number of projects of a list that satisfy a test. *)
Definition how_many (test : Project -> bool) (ps : list Project) : nat :=
  List.length (filter test ps).

(** The counters of a repository that was normalized. *)
Definition count_repository (st : BuildStats) : BuildStats :=
  {| totalRepos := st.(totalRepos); manifestsFound := st.(manifestsFound);
     b_included := S st.(b_included); b_skipped := st.(b_skipped);
     b_errors := st.(b_errors); tierCounts := st.(tierCounts);
     statusCounts := st.(statusCounts);
     visibilityCounts := st.(visibilityCounts);
     githubCount := S st.(githubCount); manualCount := st.(manualCount);
     includedManual := st.(includedManual);
     skippedManual := st.(skippedManual) |}.

(** The repositories of a page that the fetch keeps. *)
Definition wanted (page : RepositoriesPage) : list GitHubRepository :=
  filter (fun repo => negb repo.(isFork) && negb repo.(isArchived)) page.(page_nodes).

(** From its [n]-th request on, made with the cursor [after], the client
    resolves to the pages of a list one after the other, each held under
    [data.user.repositories] and carrying the cursor of the next, and the
    last one reports that it has no successor. *)
Fixpoint serves (n : nat) (after : option string) (pages : list RepositoriesPage) : Prop :=
  match pages with
  | [] => False
  | page :: rest =>
      graphqlWithAuth n after = Return (Enveloped (page_data page))
      /\ match rest with
         | [] => page.(pageInfo).(hasNextPage) = false
         | _ :: _ =>
             page.(pageInfo).(hasNextPage) = true
             /\ serves (S n) page.(pageInfo).(endCursor) rest
         end
  end.

(** A request fails with the message [msg]: the host rejects it, or the
    client resolves to something that has no [data.user.repositories]. *)
Definition request_fails (n : nat) (after : option string) (msg : string) : Prop :=
  graphqlWithAuth n after = Throw (Error msg)
  \/ exists response,
       graphqlWithAuth n after = Return response
       /\ response_repositories response = Throw (Error msg).

(** The client resolves to the pages of a list, each held under
    [data.user.repositories] and announcing a successor, and the request
    after them fails with the message [msg]. *)
Fixpoint serves_then_fails (n : nat) (after : option string)
    (pages : list RepositoriesPage) (msg : string) : Prop :=
  match pages with
  | [] => request_fails n after msg
  | page :: rest =>
      graphqlWithAuth n after = Return (Enveloped (page_data page))
      /\ page.(pageInfo).(hasNextPage) = true
      /\ serves_then_fails (S n) page.(pageInfo).(endCursor) rest msg
  end.

(** The client resolves every request it does not reject to the data
    itself, as [graphql] of [@octokit/graphql] does. *)
Definition resolves_to_the_data : Prop :=
  forall n after response,
    graphqlWithAuth n after = Return response -> exists data, response = Bare data.

(** Filters that differ in the category only. *)
Definition with_category (category : string) (filters : ProjectFilters) : ProjectFilters :=
  {| f_category := category; f_status := filters.(f_status);
     f_search := filters.(f_search); f_domain := filters.(f_domain) |}.

(** The projects [getFilteredProjects] selects before it sorts them. *)
Definition selected (filters : ProjectFilters) (project : Project) : bool :=
  (Visibility_eqb project.(visibility) Portfolio
   || Visibility_eqb project.(visibility) Featured)
  && (if filters.(f_search) =? "" then true
      else matches_search (String_toLowerCase filters.(f_search)) project)
  && (if filters.(f_domain) =? "" then true
      else includes project.(domains) filters.(f_domain))
  && (if filters.(f_status) =? "" then true
      else Status_to_string project.(status) =? filters.(f_status)).

(** A list of projects that runs from the most recent to the least recent
    [pushedAt]. *)
Definition most_recent_first (l : list Project) : Prop :=
  forall l1 a b l2,
    l = l1 ++ a :: b :: l2 ->
    exists ta tb,
      Date_getTime a.(pushedAt) = Some ta
      /\ Date_getTime b.(pushedAt) = Some tb
      /\ (tb <= ta)%Z.

(** A list of strings in strictly ascending order. *)
Definition ascending (l : list string) : Prop :=
  forall l1 a b l2, l = l1 ++ a :: b :: l2 -> String.compare a b = Lt.

(** A value that is present and is not a literal of an enumeration, the
    literals given by their parser. *)
Definition not_a_literal {A : Type} (of_string : string -> option A) (v : JsValue) : Prop :=
  match v with
  | JUndefined => False
  | JStr s => of_string s = None
  | _ => True
  end.

(** The keys [ProjectManifestSchema] declares. *)
Definition manifest_keys : list string :=
  ["title"; "status"; "tier"; "stack"; "roles"; "live_url"; "demo_url"; "repo_url";
   "homepage_url"; "highlights"; "metrics"; "topics"; "visibility"].

(** A string of ASCII white space only. *)
Fixpoint blank (s : string) : bool :=
  match s with
  | EmptyString => true
  | String c s' => is_space c && blank s'
  end.

(* ================================================================ *)
(** ** Properties *)

(** *** Strings *)

Lemma startsWith_app (p r : string) : startsWith (p ++ r)%string p = true.
Proof.
  induction p as [|c p IH]; simpl; [reflexivity|].
  now rewrite Ascii.eqb_refl, IH.
Qed.

Lemma startsWith_split (p s : string) :
  startsWith s p = true -> s = (p ++ drop (String.length p) s)%string.
Proof.
  revert s; induction p as [|c p IH]; intros s H; simpl in *; [reflexivity|].
  destruct s as [|d s]; [discriminate|].
  apply andb_prop in H as [Hc Hs].
  apply Ascii.eqb_eq in Hc; subst d.
  f_equal; now apply IH.
Qed.

Lemma replace_prefix (p s : string) :
  startsWith s p = true -> replace p "" s = drop (String.length p) s.
Proof.
  intros H; destruct s; simpl; now rewrite H.
Qed.

(** Stripping a prefix is injective on the strings that carry it. *)
Lemma replace_prefix_inj (p s t : string) :
  startsWith s p = true -> startsWith t p = true ->
  replace p "" s = replace p "" t -> s = t.
Proof.
  intros Hs Ht E.
  rewrite (replace_prefix _ _ Hs), (replace_prefix _ _ Ht) in E.
  rewrite (startsWith_split _ _ Hs), (startsWith_split _ _ Ht).
  now rewrite E.
Qed.

(** No tag lies in both name spaces. *)
Lemma portfolio_not_domain (t : string) :
  startsWith t "portfolio:" = true -> startsWith t "domain:" = false.
Proof.
  destruct t as [|c t]; simpl; [discriminate|].
  intros H; apply andb_prop in H as [Hc _].
  apply Ascii.eqb_eq in Hc; subst c; reflexivity.
Qed.

Lemma domain_not_portfolio (t : string) :
  startsWith t "domain:" = true -> startsWith t "portfolio:" = false.
Proof.
  intros H; destruct (startsWith t "portfolio:") eqn:E; [|reflexivity].
  apply portfolio_not_domain in E; congruence.
Qed.

Lemma includes_In (xs : list string) (x : string) :
  includes xs x = true <-> In x xs.
Proof.
  unfold includes; rewrite existsb_exists; split.
  - intros [y [Hy E]]; apply String.eqb_eq in E; now subst.
  - intros H; exists x; split; [assumption | apply String.eqb_refl].
Qed.

Lemma includes_false (xs : list string) (x : string) :
  includes xs x = false <-> ~ In x xs.
Proof.
  rewrite <- includes_In; destruct (includes xs x); split; congruence.
Qed.

(** *** Lists and sets *)

Lemma filter_filter_implied {A : Type} (P Q : A -> bool) (l : list A) :
  (forall x, P x = true -> Q x = true) ->
  filter P (filter Q l) = filter P l.
Proof.
  intros HPQ; induction l as [|x l IH]; simpl; [reflexivity|].
  destruct (Q x) eqn:EQ; simpl.
  - now rewrite IH.
  - destruct (P x) eqn:EP; [|assumption].
    apply HPQ in EP; congruence.
Qed.

Lemma Set_of_acc (l acc : list string) :
  fold_left Set_add l acc = acc ++ first_occurrences acc l.
Proof.
  revert acc; induction l as [|x l IH]; intros acc; simpl.
  - now rewrite app_nil_r.
  - unfold Set_add at 2; destruct (includes acc x); rewrite IH.
    + reflexivity.
    + now rewrite <- app_assoc.
Qed.

Lemma Set_of_first_occurrences (l : list string) :
  Set_of l = first_occurrences [] l.
Proof. unfold Set_of; now rewrite Set_of_acc. Qed.

Lemma first_occurrences_In (l seen : list string) (x : string) :
  In x (first_occurrences seen l) <-> In x l /\ ~ In x seen.
Proof.
  revert seen; induction l as [|y l IH]; intros seen; simpl.
  - tauto.
  - destruct (includes seen y) eqn:E.
    + apply includes_In in E. rewrite IH. split.
      * intros [H1 H2]; auto.
      * intros [[->|H1] H2]; [contradiction | auto].
    + apply includes_false in E. simpl; rewrite IH, in_app_iff; simpl. split.
      * intros [->|[H1 H2]]; [auto|]. split; [auto|tauto].
      * intros [[->|H1] H2]; [auto|].
        destruct (string_dec y x) as [->|N]; [auto|right; tauto].
Qed.

Lemma first_occurrences_NoDup (l seen : list string) :
  NoDup (first_occurrences seen l).
Proof.
  revert seen; induction l as [|y l IH]; intros seen; simpl.
  - constructor.
  - destruct (includes seen y); [apply IH|].
    constructor; [|apply IH].
    rewrite first_occurrences_In, in_app_iff; simpl; tauto.
Qed.

Lemma Set_of_NoDup (l : list string) : NoDup (Set_of l).
Proof. rewrite Set_of_first_occurrences; apply first_occurrences_NoDup. Qed.

Lemma Set_of_In (l : list string) (x : string) : In x (Set_of l) <-> In x l.
Proof. rewrite Set_of_first_occurrences, first_occurrences_In; simpl; tauto. Qed.

(** Selecting and renaming commutes with taking first occurrences when the
    renaming is injective on what is selected. *)
Lemma first_occurrences_map_filter (f : string -> string) (P : string -> bool) :
  (forall x y, P x = true -> P y = true -> f x = f y -> x = y) ->
  forall l seen,
    map f (filter P (first_occurrences seen l))
    = first_occurrences (map f (filter P seen)) (map f (filter P l)).
Proof.
  intros Hinj; induction l as [|x l IH]; intros seen; simpl; [reflexivity|].
  destruct (includes seen x) eqn:Es.
  - rewrite IH. destruct (P x) eqn:EP; [|reflexivity]. simpl.
    replace (includes (map f (filter P seen)) (f x)) with true; [reflexivity|].
    symmetry; apply includes_In, in_map, filter_In; split; [|assumption].
    now apply includes_In.
  - simpl. destruct (P x) eqn:EP; simpl.
    + replace (includes (map f (filter P seen)) (f x)) with false.
      * rewrite IH, filter_app, map_app; simpl; now rewrite EP.
      * symmetry; apply includes_false. intros Hin.
        apply in_map_iff in Hin as [y [Efy Hy]].
        apply filter_In in Hy as [Hy Py].
        apply (Hinj y x Py EP) in Efy; subst y.
        apply includes_false in Es; contradiction.
    + rewrite IH, filter_app, map_app; simpl; rewrite EP; simpl.
      now rewrite app_nil_r.
Qed.

(** *** Field derivation *)

Lemma extractDomainsFromTopics_strip (tags : list string) :
  extractDomainsFromTopics tags
  = map (drop 7) (filter (fun t => startsWith t "domain:") tags).
Proof.
  unfold extractDomainsFromTopics. apply map_ext_in.
  intros t Ht; apply filter_In in Ht as [_ Ht].
  now rewrite (replace_prefix _ _ Ht).
Qed.

Lemma extractDomainsFromTopics_Set_of (tags : list string) :
  extractDomainsFromTopics (Set_of tags) = Set_of (extractDomainsFromTopics tags).
Proof.
  unfold extractDomainsFromTopics; rewrite !Set_of_first_occurrences.
  apply (first_occurrences_map_filter (fun t => replace "domain:" "" t)
           (fun t => startsWith t "domain:")).
  intros x y Hx Hy; now apply replace_prefix_inj.
Qed.

Lemma extractDomainsFromTopics_NoDup (tags : list string) :
  NoDup (extractDomainsFromTopics tags)
  <-> NoDup (filter (fun t => startsWith t "domain:") tags).
Proof.
  unfold extractDomainsFromTopics; split.
  - apply NoDup_map_inv.
  - apply NoDup_map_NoDup_ForallPairs.
    intros x y Hx Hy; apply filter_In in Hx as [_ Hx], Hy as [_ Hy].
    now apply replace_prefix_inj.
Qed.

(** What [deriveStatus] computes: the manifest's status, else the value of
    the first tag of the name space when that value is a status. *)
Lemma deriveStatus_first_namespace_tag (m : option ProjectManifest) (tags : list string) :
  deriveStatus m tags =
  match opt_field m m_status with
  | Some s => s
  | None =>
      match filter (fun t => startsWith t "portfolio:") tags with
      | t :: _ => or_value (status_tag t) InProgress
      | [] => InProgress
      end
  end.
Proof.
  unfold deriveStatus. destruct (opt_field m m_status); [reflexivity|].
  destruct (filter _ tags) as [|t rest] eqn:E; [reflexivity|].
  assert (Ht : startsWith t "portfolio:" = true).
  { assert (Hin : In t (filter (fun t => startsWith t "portfolio:") tags))
      by (rewrite E; now left).
    now apply filter_In in Hin. }
  rewrite (replace_prefix _ _ Ht).
  pose proof (startsWith_split _ _ Ht) as Hs.
  clear E Ht; simpl String.length in *.
  generalize dependent (drop 10 t); intros r Hs; subst t.
  unfold status_tag; simpl.
  destruct (r =? "complete"); [reflexivity|].
  destruct (r =? "archived"); reflexivity.
Qed.

(** *** Manifest parsing and remote normalisation *)

Lemma parseManifest_cases (manifestText : option string) :
  (truthy manifestText = None /\ parseManifest manifestText = Return None)
  \/ (exists s, truthy manifestText = Some s /\ s <> ""
       /\ ((exists e, yaml_load s = Throw e /\ parseManifest manifestText = Return None)
           \/ (exists v e, yaml_load s = Return v
                 /\ ProjectManifestSchema_parse v = Throw e
                 /\ parseManifest manifestText = Return None)
           \/ (exists v m, yaml_load s = Return v
                 /\ ProjectManifestSchema_parse v = Return m
                 /\ parseManifest manifestText = Return (Some m)))).
Proof.
  unfold parseManifest.
  destruct (truthy manifestText) as [s|] eqn:Et; [right | left; auto].
  exists s; split; [reflexivity|]. split.
  { destruct manifestText as [[|c t]|]; simpl in Et; try discriminate.
    injection Et as <-; discriminate. }
  destruct (yaml_load s) as [v|e] eqn:Ey; simpl.
  - destruct (ProjectManifestSchema_parse v) as [m|e] eqn:Ev; simpl.
    + right; right; exists v, m; auto.
    + right; left; exists v, e; auto.
  - left; exists e; auto.
Qed.

Lemma parseManifest_returns (manifestText : option string) :
  exists r, parseManifest manifestText = Return r.
Proof.
  destruct (parseManifest_cases manifestText)
    as [[_ H]|[s [_ [_ [[e [_ H]]|[[v [e [_ [_ H]]]]|[v [m [_ [_ H]]]]]]]]]];
    eauto.
Qed.

Lemma normalizeProject_fields (repo : GitHubRepository) :
  exists manifest p,
    parseManifest (manifest_text repo) = Return manifest
    /\ normalizeProject repo = Return p
    /\ p.(slug) = repo.(repo_name)
    /\ p.(source) = Github
    /\ p.(repoUrl) = Some repo.(url)
    /\ p.(topics) = Set_of (github_topics repo ++ or_value (opt_field manifest m_topics) [])
    /\ p.(domains) = extractDomainsFromTopics p.(topics)
    /\ p.(status) = deriveStatus manifest p.(topics)
    /\ p.(tier) = deriveTier manifest
    /\ p.(visibility) = deriveVisibility manifest p.(topics)
    /\ p.(pushedAt) = repo.(repo_pushedAt)
    /\ p.(stars) = repo.(stargazerCount).
Proof.
  destruct (parseManifest_returns (manifest_text repo)) as [manifest Hm].
  exists manifest. unfold normalizeProject.
  fold (manifest_text repo); rewrite Hm; simpl.
  eexists; repeat split; reflexivity.
Qed.

(** C5. Manifest parsing never raises: on every input, absent, empty,
    malformed or not, [parseManifest] returns, either a manifest or [null];
    it returns [null] exactly when the input is absent, fails to parse or
    fails schema validation, and a manifest it returns is the validated
    document. The empty text, which the guard answers without parsing, is
    a text that fails validation: js-yaml loads it as [undefined]. *)
Theorem parseManifest_never_raises
    (yaml_load_empty : yaml_load "" = Return JUndefined)
    (manifestText : option string) :
  exists r : option ProjectManifest,
    parseManifest manifestText = Return r
    /\ (r = None <->
          manifestText = None
          \/ exists s, manifestText = Some s /\ (fails_to_parse s \/ fails_validation s))
    /\ (forall m, r = Some m ->
          exists s v, manifestText = Some s /\ yaml_load s = Return v
                      /\ ProjectManifestSchema_parse v = Return m).
Proof.
  assert (Htruthy : forall s, truthy manifestText = Some s -> manifestText = Some s).
  { intros s; destruct manifestText as [[|c t]|]; simpl; congruence. }
  destruct (parseManifest_cases manifestText)
    as [[Ht H]|[s [Ht [Hne [[e [Hy H]]|[[v [e [Hy [Hv H]]]]|[v [m [Hy [Hv H]]]]]]]]]].
  - exists None; split; [assumption|]. split.
    + split; [intros _|reflexivity].
      destruct manifestText as [[|c t]|]; simpl in Ht; try discriminate; [|now left].
      right; exists ""; split; [reflexivity|].
      right; exists JUndefined, zod_error; split; [assumption | reflexivity].
    + discriminate.
  - exists None; split; [assumption|]. split; [|discriminate].
    split; [intros _|reflexivity].
    right; exists s; split; [auto|]. left; exists e; assumption.
  - exists None; split; [assumption|]. split; [|discriminate].
    split; [intros _|reflexivity].
    right; exists s; split; [auto|]. right; exists v, e; auto.
  - exists (Some m); split; [assumption|]. split.
    + split; [discriminate|].
      intros [Hn|[s' [Hs' [[e He]|[v' [e [Hy' Hv']]]]]]]; exfalso.
      * rewrite Hn in Ht; discriminate.
      * rewrite (Htruthy _ Ht) in Hs'; injection Hs' as <-; congruence.
      * rewrite (Htruthy _ Ht) in Hs'; injection Hs' as <-.
        rewrite Hy in Hy'; injection Hy' as <-; congruence.
    + intros m' Hm'; injection Hm' as <-.
      exists s, v; auto.
Qed.

(** C8. The repository link of a normalized remote record is the host
    record's own URL, whatever the sidecar manifest declares: normalisation
    returns a project whose [repoUrl] is [repo.url], and replacing the
    sidecar document by any other one (so also by one that differs only in
    its [repo_url]) gives a project with the same [repoUrl]. *)
Theorem repoUrl_from_host_record (repo : GitHubRepository) :
  exists p,
    normalizeProject repo = Return p
    /\ p.(repoUrl) = Some repo.(url)
    /\ forall blob : option Blob,
         exists p', normalizeProject (with_object repo blob) = Return p'
                    /\ p'.(repoUrl) = p.(repoUrl).
Proof.
  destruct (normalizeProject_fields repo) as [m [p [_ [Hp [_ [_ [Hurl _]]]]]]].
  exists p; split; [assumption|]. split; [assumption|].
  intros blob.
  destruct (normalizeProject_fields (with_object repo blob))
    as [m' [p' [_ [Hp' [_ [_ [Hurl' _]]]]]]].
  exists p'; split; [assumption|]. now rewrite Hurl, Hurl'.
Qed.

(** *** Independence of the derived fields *)

Lemma filter_Set_of (P : string -> bool) (l : list string) :
  filter P (Set_of l) = Set_of (filter P l).
Proof.
  rewrite !Set_of_first_occurrences.
  pose proof (first_occurrences_map_filter (fun x => x) P) as H.
  specialize (H (fun x y _ _ E => E) l []).
  now rewrite !map_id in H.
Qed.

Lemma same_outside_portfolio_tags (t1 t2 : list string) :
  same_outside "domain:" t1 t2 ->
  filter (fun t => startsWith t "portfolio:") t1
  = filter (fun t => startsWith t "portfolio:") t2.
Proof.
  unfold same_outside; intros H.
  rewrite <- (filter_filter_implied (fun t => startsWith t "portfolio:")
                (fun t => negb (startsWith t "domain:")) t1),
          <- (filter_filter_implied (fun t => startsWith t "portfolio:")
                (fun t => negb (startsWith t "domain:")) t2).
  - now rewrite H.
  - intros x Hx; now rewrite (portfolio_not_domain _ Hx).
  - intros x Hx; now rewrite (portfolio_not_domain _ Hx).
Qed.

Lemma same_outside_domain_tags (t1 t2 : list string) :
  same_outside "portfolio:" t1 t2 ->
  filter (fun t => startsWith t "domain:") t1
  = filter (fun t => startsWith t "domain:") t2.
Proof.
  unfold same_outside; intros H.
  rewrite <- (filter_filter_implied (fun t => startsWith t "domain:")
                (fun t => negb (startsWith t "portfolio:")) t1),
          <- (filter_filter_implied (fun t => startsWith t "domain:")
                (fun t => negb (startsWith t "portfolio:")) t2).
  - now rewrite H.
  - intros x Hx; now rewrite (domain_not_portfolio _ Hx).
  - intros x Hx; now rewrite (domain_not_portfolio _ Hx).
Qed.

(** The merged tag set of a remote record inherits the relation from the
    host tags: the manifest's tags are the same on both sides. *)
Lemma same_outside_merged (prefix : string) (t1 t2 extra : list string) :
  same_outside prefix t1 t2 ->
  same_outside prefix (Set_of (t1 ++ extra)) (Set_of (t2 ++ extra)).
Proof.
  unfold same_outside; intros H.
  now rewrite !filter_Set_of, !filter_app, H.
Qed.

Lemma github_topics_with_topics (repo : GitHubRepository) (tags : list string) :
  github_topics (with_topics repo tags) = tags.
Proof.
  unfold github_topics, with_topics; simpl.
  rewrite map_map; simpl. apply map_id.
Qed.

Lemma deriveStatus_same_outside (m : option ProjectManifest) (t1 t2 : list string) :
  same_outside "domain:" t1 t2 -> deriveStatus m t1 = deriveStatus m t2.
Proof.
  intros H; unfold deriveStatus.
  now rewrite (same_outside_portfolio_tags H).
Qed.

Lemma deriveVisibility_same_outside (m : option ProjectManifest) (t1 t2 : list string) :
  same_outside "domain:" t1 t2 -> deriveVisibility m t1 = deriveVisibility m t2.
Proof.
  intros H; unfold deriveVisibility.
  now rewrite (same_outside_portfolio_tags H).
Qed.

Lemma extractDomainsFromTopics_same_outside (t1 t2 : list string) :
  same_outside "portfolio:" t1 t2 ->
  extractDomainsFromTopics t1 = extractDomainsFromTopics t2.
Proof.
  intros H; unfold extractDomainsFromTopics.
  now rewrite (same_outside_domain_tags H).
Qed.

(** C9. The derivations are independent. If two tag lists differ only in
    their [domain:] tags, the derived status and visibility are the same
    (the tier is derived from the manifest alone), and two remote records
    that differ only in such host tags normalize to the same status, tier
    and visibility. Conversely, if two tag lists differ only in their
    [portfolio:] tags, the tags consulted for status and visibility, the
    extracted domains are the same, also after normalisation. *)
Theorem derivation_independence
    (m : option ProjectManifest) (repo : GitHubRepository) (t1 t2 : list string) :
  (same_outside "domain:" t1 t2 ->
     deriveStatus m t1 = deriveStatus m t2
     /\ deriveVisibility m t1 = deriveVisibility m t2
     /\ exists p1 p2,
          normalizeProject (with_topics repo t1) = Return p1
          /\ normalizeProject (with_topics repo t2) = Return p2
          /\ p1.(status) = p2.(status)
          /\ p1.(tier) = p2.(tier)
          /\ p1.(visibility) = p2.(visibility))
  /\ (same_outside "portfolio:" t1 t2 ->
       extractDomainsFromTopics t1 = extractDomainsFromTopics t2
       /\ exists p1 p2,
            normalizeProject (with_topics repo t1) = Return p1
            /\ normalizeProject (with_topics repo t2) = Return p2
            /\ p1.(domains) = p2.(domains)).
Proof.
  destruct (normalizeProject_fields (with_topics repo t1))
    as [m1 [p1 [Hm1 [Hp1 [_ [_ [_ [Ht1 [Hd1 [Hs1 [Hr1 [Hv1 _]]]]]]]]]]]].
  destruct (normalizeProject_fields (with_topics repo t2))
    as [m2 [p2 [Hm2 [Hp2 [_ [_ [_ [Ht2 [Hd2 [Hs2 [Hr2 [Hv2 _]]]]]]]]]]]].
  assert (Em : m2 = m1).
  { change (manifest_text (with_topics repo t2)) with (manifest_text repo) in Hm2.
    change (manifest_text (with_topics repo t1)) with (manifest_text repo) in Hm1.
    congruence. }
  subst m2. rewrite github_topics_with_topics in Ht1, Ht2.
  split; intros H.
  - split; [now apply deriveStatus_same_outside|].
    split; [now apply deriveVisibility_same_outside|].
    exists p1, p2; split; [assumption|]. split; [assumption|].
    pose proof (same_outside_merged (or_value (opt_field m1 m_topics) []) H) as Hall.
    rewrite <- Ht1, <- Ht2 in Hall.
    rewrite Hs1, Hs2, Hr1, Hr2, Hv1, Hv2.
    rewrite (deriveStatus_same_outside m1 Hall), (deriveVisibility_same_outside m1 Hall).
    auto.
  - split; [now apply extractDomainsFromTopics_same_outside|].
    exists p1, p2; split; [assumption|]. split; [assumption|].
    pose proof (same_outside_merged (or_value (opt_field m1 m_topics) []) H) as Hall.
    rewrite <- Ht1, <- Ht2 in Hall.
    rewrite Hd1, Hd2. now apply extractDomainsFromTopics_same_outside.
Qed.

(** *** The status rule *)

Lemma status_tag_namespace (t : string) (s : Status) :
  status_tag t = Some s -> startsWith t "portfolio:" = true.
Proof.
  unfold status_tag.
  destruct (t =? "portfolio:complete") eqn:E1.
  - apply String.eqb_eq in E1; subst; reflexivity.
  - destruct (t =? "portfolio:archived") eqn:E2; [|discriminate].
    apply String.eqb_eq in E2; subst; reflexivity.
Qed.

(** Where every tag of the name space is a status tag, the code computes
    the rule of the specification. *)
Lemma deriveStatus_only_status_tags (m : option ProjectManifest) (tags : list string) :
  (forall t, In t tags -> startsWith t "portfolio:" = true -> status_tag t <> None) ->
  deriveStatus m tags = status_by_first_matching_tag m tags.
Proof.
  intros H. rewrite deriveStatus_first_namespace_tag.
  unfold status_by_first_matching_tag.
  destruct (opt_field m m_status); [reflexivity|].
  induction tags as [|t tags IH]; cbn [filter first_status_tag]; [reflexivity|].
  destruct (startsWith t "portfolio:") eqn:Et.
  - destruct (status_tag t) eqn:Es; [reflexivity|].
    exfalso; apply (H t); [now left | assumption | assumption].
  - destruct (status_tag t) eqn:Es.
    + apply status_tag_namespace in Es; congruence.
    + apply IH. intros t' Hin; apply H; now right.
Qed.

(** *** The loader on a document *)

Lemma z_strings_JStr (xs : list string) : z_strings (map JStr xs) = Return xs.
Proof.
  induction xs as [|x xs IH]; simpl; [reflexivity|]. now rewrite IH.
Qed.

Lemma z_string_array_js (xs : list string) : z_string_array (js_strings xs) = Return xs.
Proof. apply z_strings_JStr. Qed.

Lemma string_elements_z_strings (items : list JsValue) (names : list string) :
  z_strings items = Return names -> string_elements items = Return names.
Proof.
  revert names; induction items as [|v items IH]; intros names H;
    cbn [z_strings string_elements] in *.
  - assumption.
  - destruct v; try discriminate.
    destruct (z_strings items) as [ss|e]; cbn [bind] in H; [|discriminate].
    injection H as <-. now rewrite (IH ss eq_refl).
Qed.

(** The validators of the schema, read backwards: what a field that passed
    its optional validator gives where the loader uses it. *)
Lemma title_checked (v : JsValue) (t : option string) :
  z_string_optional v = Return t ->
  match truthy t with
  | Some title => js_truthy v = true /\ z_string v = Return title /\ t = Some title
  | None => js_truthy v = false
  end.
Proof.
  destruct v; cbn; try discriminate; intros H; injection H as <-; cbn; [reflexivity|].
  destruct s; cbn; auto.
Qed.

Lemma enum_checked {A : Type} (of_string : string -> option A) (v : JsValue)
    (o : option A) (literal : string) (d : A) :
  of_string "" = None -> of_string literal = Some d ->
  z_enum_optional of_string v = Return o ->
  z_enum of_string (js_or v (JStr literal)) = Return (or_value o d).
Proof.
  intros Hempty Hliteral.
  destruct v; cbn; try discriminate.
  - intros H; injection H as <-; cbn. now rewrite Hliteral.
  - destruct (of_string s) as [a|] eqn:E; [|discriminate].
    intros H; injection H as <-.
    unfold js_or; cbn [js_truthy].
    destruct s; [congruence|]. cbn. now rewrite E.
Qed.

Lemma enum_default_checked {A : Type} (of_string : string -> option A) (v : JsValue)
    (o : option A) (literal : string) (d d' : A) :
  of_string "" = None -> of_string literal = Some d ->
  z_enum_optional of_string v = Return o ->
  z_enum_default of_string d' (js_or v (JStr literal)) = Return (or_value o d).
Proof.
  intros Hempty Hliteral H.
  rewrite <- (enum_checked of_string v literal Hempty Hliteral H).
  unfold js_or; destruct (js_truthy v) eqn:E; [|reflexivity].
  destruct v; try discriminate; reflexivity.
Qed.

Lemma array_checked (v : JsValue) (o : option (list string)) (items : list JsValue)
    (d : list string) :
  z_strings items = Return d ->
  z_string_array_optional v = Return o ->
  z_string_array (js_or v (JArr items)) = Return (or_value o d)
  /\ as_string_array (js_or v (JArr items)) = Return (or_value o d).
Proof.
  intros Hd.
  destruct v; cbn; try discriminate.
  - intros H; injection H as <-; cbn.
    now rewrite Hd, (string_elements_z_strings _ Hd).
  - destruct (z_strings items0) as [ss|e] eqn:E; cbn [bind]; [|discriminate].
    intros H; injection H as <-.
    unfold js_or; cbn [js_truthy z_string_array as_string_array or_value].
    now rewrite (string_elements_z_strings _ E).
Qed.

Lemma url_checked (v : JsValue) (o : option string) :
  z_string_optional v = Return o ->
  z_string_optional (js_or v JUndefined) = Return (or_else o None).
Proof.
  destruct v; cbn; try discriminate; intros H; injection H as <-; [reflexivity|].
  destruct s; reflexivity.
Qed.

Lemma slug_checked (v : JsValue) (filenameSlug : string) :
  match read_slug v with
  | Some o => z_string (js_or v (JStr filenameSlug)) = Return (or_default o filenameSlug)
  | None => z_string (js_or v (JStr filenameSlug)) = Throw zod_error
  end.
Proof.
  destruct v as [| |b|n|s|items|fields]; cbn; try reflexivity.
  - destruct b; reflexivity.
  - destruct n; reflexivity.
  - destruct s; reflexivity.
Qed.

Lemma include_checked (v : JsValue) :
  js_truthy (js_coalesce v (JBool true)) = or_value (read_include v) true.
Proof. destruct v; reflexivity. Qed.

Lemma source_checked (v : JsValue) :
  js_is_string v "manual" = is_manual (read_source v).
Proof. destruct v; reflexivity. Qed.

Lemma ProjectManifestSchema_parse_fields (fields : list (string * JsValue))
    (m : ProjectManifest) :
  ProjectManifestSchema_parse (JObj fields) = Return m ->
  z_string_optional (get_field fields "title") = Return m.(m_title)
  /\ z_enum_optional Status_of_string (get_field fields "status") = Return m.(m_status)
  /\ z_enum_optional Tier_of_string (get_field fields "tier") = Return m.(m_tier)
  /\ z_string_array_optional (get_field fields "stack") = Return m.(m_stack)
  /\ z_string_array_optional (get_field fields "roles") = Return m.(m_roles)
  /\ z_string_optional (get_field fields "live_url") = Return m.(m_live_url)
  /\ z_string_optional (get_field fields "demo_url") = Return m.(m_demo_url)
  /\ z_string_optional (get_field fields "repo_url") = Return m.(m_repo_url)
  /\ z_string_optional (get_field fields "homepage_url") = Return m.(m_homepage_url)
  /\ z_string_array_optional (get_field fields "highlights") = Return m.(m_highlights)
  /\ z_metrics_optional (get_field fields "metrics") = Return m.(m_metrics)
  /\ z_string_array_optional (get_field fields "topics") = Return m.(m_topics)
  /\ z_enum_optional Visibility_of_string (get_field fields "visibility")
     = Return m.(m_visibility).
Proof.
  unfold ProjectManifestSchema_parse.
  repeat match goal with
         | |- bind ?c _ = Return _ -> _ => destruct c; cbn [bind]; [|discriminate]
         end.
  intros H; injection H as <-. cbn. repeat split.
Qed.

(** The [manifest] property of the loader's object literal holds the
    thirteen fields of the document under their own names, so validating it
    is validating the document as a manifest. *)
Lemma manifest_literal_parse (fields : list (string * JsValue)) :
  z_manifest_optional
    (JObj [ ("title", get_field fields "title");
            ("status", get_field fields "status");
            ("tier", get_field fields "tier");
            ("stack", get_field fields "stack");
            ("roles", get_field fields "roles");
            ("live_url", get_field fields "live_url");
            ("demo_url", get_field fields "demo_url");
            ("repo_url", get_field fields "repo_url");
            ("homepage_url", get_field fields "homepage_url");
            ("highlights", get_field fields "highlights");
            ("metrics", get_field fields "metrics");
            ("topics", get_field fields "topics");
            ("visibility", get_field fields "visibility") ])
  = let* m := ProjectManifestSchema_parse (JObj fields) in Return (Some m).
Proof. reflexivity. Qed.

Ltac validation_throws :=
  repeat match goal with
         | |- exists e, Throw _ = Throw e => eexists; reflexivity
         | |- exists e, bind (Throw _) _ = Throw e => cbn [bind]
         | |- exists e, bind ?c _ = Throw e => destruct c; cbn [bind]
         end.

(** On a document that reads as a record, the loader does what its text
    says at the interface type: the validation of the project it builds
    succeeds and returns the normalized project of the record. *)
Lemma process_file_record (i : nat) (entry : DirEntry) (ld : Loader) (doc : JsValue)
    (m : ManualProjectManifest) :
  entry.(content) = Return doc -> read_record doc = Some m ->
  process_file i entry ld =
  match truthy m.(mm_title) with
  | None => Throw (Error "Missing required field: title")
  | Some title =>
      if negb (is_manual m.(mm_source))
      then Throw (Error ("Source must be " ++ double_quote ++ "manual" ++ double_quote))
      else
        let p := manual_project (Date_now i) (record_slug entry m) title m in
        Return (if hidden m then
                  {| projects := ld.(projects);
                     stats := incr_validFiles (incr_skipped ld.(stats)) |}
                else if opted_in m then
                  {| projects := ld.(projects) ++ [p];
                     stats := incr_validFiles (incr_included ld.(stats)) |}
                else
                  {| projects := ld.(projects);
                     stats := incr_validFiles (incr_skipped ld.(stats)) |})
  end.
Proof.
  intros Hc Hr. unfold read_record in Hr.
  destruct (js_properties doc "slug") as [fields|e] eqn:Hp; [|discriminate].
  destruct (ProjectManifestSchema_parse (JObj fields)) as [cm|e] eqn:Hm; [|discriminate].
  pose proof (slug_checked (get_field fields "slug") (path_parse_name entry.(file)))
    as Hslug.
  destruct (read_slug (get_field fields "slug")) as [declared|]; [|discriminate].
  destruct (z_string_optional (get_field fields "description")) as [d|e] eqn:Hd;
    [|discriminate].
  injection Hr as <-.
  pose proof (manifest_literal_parse fields) as Hliteral; rewrite Hm in Hliteral.
  apply ProjectManifestSchema_parse_fields in Hm.
  destruct cm as [t st ti sk ro lu du ru hu hi me tp vi].
  cbn [m_title m_status m_tier m_stack m_roles m_live_url m_demo_url m_repo_url
       m_homepage_url m_highlights m_metrics m_topics m_visibility] in Hm.
  destruct Hm as (Ht & Hst & Hti & Hsk & Hro & Hlu & Hdu & Hru & Hhu & Hhi & Hme & Htp & Hvi).
  unfold process_file; rewrite Hc; cbn [bind]; rewrite Hp; cbn [bind].
  cbn [mm_title mm_source m_title].
  rewrite source_checked.
  pose proof (title_checked _ Ht) as Htitle.
  destruct (truthy t) as [title|].
  2:{ now rewrite Htitle. }
  destruct Htitle as (Htruthy & Hzt & ->). rewrite Htruthy; cbn [negb].
  destruct (is_manual (read_source (get_field fields "source"))); cbn [negb];
    [|reflexivity].
  destruct (@array_checked _ _ [JStr "portfolio:include"] ["portfolio:include"]
              eq_refl Htp) as [Htopics Hnames].
  rewrite Hnames; cbn [bind].
  unfold ProjectSchema_parse.
  cbn [get_field String.eqb Ascii.eqb Bool.eqb].
  rewrite Hslug, Hzt, Hd, Htopics, z_string_array_js, Hhi, Hme, Hliteral.
  rewrite (enum_checked Status_of_string _ "in-progress" eq_refl eq_refl Hst).
  rewrite (enum_checked Tier_of_string _ "mvp" eq_refl eq_refl Hti).
  rewrite (enum_default_checked Visibility_of_string _ "ventures" Portfolio
             eq_refl eq_refl Hvi).
  rewrite (proj1 (@array_checked _ _ [] [] eq_refl Hsk)).
  rewrite (proj1 (@array_checked _ _ [] [] eq_refl Hro)).
  rewrite (url_checked _ Hru), (url_checked _ Hhu), (url_checked _ Hlu),
    (url_checked _ Hdu).
  cbn [bind z_enum_default z_enum Source_of_string String.eqb Ascii.eqb Bool.eqb
       z_number number_of_Z Number_isNaN z_string z_string_optional].
  rewrite include_checked.
  unfold hidden, opted_in, record_topics, record_include, record_slug, manual_project.
  cbn [mm_slug mm_title mm_source mm_include mm_visibility mm_status mm_tier mm_stack
       mm_roles mm_live_url mm_demo_url mm_repo_url mm_homepage_url mm_highlights
       mm_metrics mm_topics mm_description
       m_title m_status m_tier m_stack m_roles m_live_url m_demo_url m_repo_url
       m_homepage_url m_highlights m_metrics m_topics m_visibility].
  destruct (includes _ "portfolio:hide"); [reflexivity|].
  destruct (or_value _ true && _); reflexivity.
Qed.

(** On a document that does not read as a record, the loader throws: at a
    property read, at a required-field check, in the extraction of the
    domains or in the validation of the project. *)
Lemma process_file_unreadable (i : nat) (entry : DirEntry) (ld : Loader) (doc : JsValue) :
  entry.(content) = Return doc -> read_record doc = None ->
  exists e, process_file i entry ld = Throw e.
Proof.
  intros Hc Hr. unfold read_record in Hr.
  unfold process_file; rewrite Hc; cbn [bind].
  destruct (js_properties doc "slug") as [fields|e]; cbn [bind]; [|eauto].
  destruct (js_truthy (get_field fields "title")); cbn [negb]; [|eauto].
  destruct (js_is_string (get_field fields "source") "manual"); cbn [negb]; [|eauto].
  destruct (as_string_array _); cbn [bind]; [|eauto].
  match goal with
  | |- exists e, bind ?c _ = Throw e =>
      assert (Hthrows : exists e, c = Throw e);
      [|destruct Hthrows as [e ->]; cbn [bind]; eauto]
  end.
  unfold ProjectSchema_parse.
  cbn [get_field String.eqb Ascii.eqb Bool.eqb].
  rewrite manifest_literal_parse.
  pose proof (slug_checked (get_field fields "slug") (path_parse_name entry.(file)))
    as Hslug.
  destruct (ProjectManifestSchema_parse (JObj fields)) as [cm|e].
  - destruct (read_slug (get_field fields "slug")).
    + destruct (z_string_optional (get_field fields "description")) as [d|e] eqn:Hd;
        [discriminate|].
      validation_throws.
    + rewrite Hslug. validation_throws.
  - cbn [bind]. validation_throws.
Qed.

(** One iteration of the loop either counts the file as invalid, or the
    file holds a well-formed record and the inclusion policy decides. *)
Lemma load_file_cases (i : nat) (entry : DirEntry) (ld : Loader) :
  (exists msg,
     (forall m title, ~ well_formed_record entry m title)
     /\ load_file i entry ld
        = {| projects := ld.(projects); stats := record_invalid msg ld.(stats) |})
  \/ (exists m title,
        well_formed_record entry m title
        /\ load_file i entry ld =
           let p := manual_project (Date_now i) (record_slug entry m) title m in
           if hidden m then
             {| projects := ld.(projects);
                stats := incr_validFiles (incr_skipped ld.(stats)) |}
           else if opted_in m then
             {| projects := ld.(projects) ++ [p];
                stats := incr_validFiles (incr_included ld.(stats)) |}
           else
             {| projects := ld.(projects);
                stats := incr_validFiles (incr_skipped ld.(stats)) |}).
Proof.
  unfold load_file.
  destruct (content entry) as [doc|e] eqn:Hc.
  - destruct (read_record doc) as [m|] eqn:Hr.
    + rewrite (@process_file_record i entry ld doc m Hc Hr).
      destruct (truthy (mm_title m)) as [title|] eqn:Ht.
      * destruct (is_manual (mm_source m)) eqn:Hs; cbn [negb].
        -- right; exists m, title. split; [|reflexivity].
           split; [exists doc; auto | auto].
        -- left; eexists; split; [|reflexivity].
           intros m' title' [[doc' [Hc' Hr']] [_ Hs']]. congruence.
      * left; eexists; split; [|reflexivity].
        intros m' title' [[doc' [Hc' Hr']] [Ht' _]]. congruence.
    + destruct (@process_file_unreadable i entry ld doc Hc Hr) as [e ->].
      left; eexists; split; [|reflexivity].
      intros m' title' [[doc' [Hc' Hr']] _]. congruence.
  - left; exists (entry.(file) ++ ": " ++ error_message e)%string. split.
    + intros m' title' [[doc' [Hc' _]] _]. congruence.
    + unfold process_file; rewrite Hc; reflexivity.
Qed.

Lemma well_formed_record_unique (entry : DirEntry) (m m' : ManualProjectManifest)
    (title title' : string) :
  well_formed_record entry m title -> well_formed_record entry m' title' ->
  m = m' /\ title = title'.
Proof.
  intros [[doc [Hc Hr]] [Ht _]] [[doc' [Hc' Hr']] [Ht' _]].
  assert (m = m') by congruence. subst m'. split; congruence.
Qed.

Lemma load_file_well_formed (i : nat) (entry : DirEntry) (ld : Loader)
    (m : ManualProjectManifest) (title : string) :
  well_formed_record entry m title ->
  load_file i entry ld =
  let p := manual_project (Date_now i) (record_slug entry m) title m in
  if hidden m then
    {| projects := ld.(projects);
       stats := incr_validFiles (incr_skipped ld.(stats)) |}
  else if opted_in m then
    {| projects := ld.(projects) ++ [p];
       stats := incr_validFiles (incr_included ld.(stats)) |}
  else
    {| projects := ld.(projects);
       stats := incr_validFiles (incr_skipped ld.(stats)) |}.
Proof.
  intros W.
  destruct (load_file_cases i entry ld) as [[msg [Hn _]]|[m' [title' [W' E]]]].
  - destruct (Hn m title W).
  - destruct (well_formed_record_unique W W') as [-> ->]. exact E.
Qed.

(** A file that does not pass the checks is counted as invalid and adds no
    project. *)
Lemma load_file_projects (i : nat) (entry : DirEntry) (ld : Loader) :
  (load_file i entry ld).(projects) = ld.(projects)
  \/ exists m title,
       well_formed_record entry m title
       /\ hidden m = false /\ opted_in m = true
       /\ (load_file i entry ld).(projects)
          = ld.(projects) ++ [manual_project (Date_now i) (record_slug entry m) title m].
Proof.
  destruct (load_file_cases i entry ld) as [[msg [_ E]]|[m [title [W E]]]];
    rewrite E; cbv zeta.
  - left; reflexivity.
  - destruct (hidden m) eqn:Eh; [left; reflexivity|].
    destruct (opted_in m) eqn:Eo; [|left; reflexivity].
    right; exists m, title; auto.
Qed.

Lemma load_files_projects (files : list DirEntry) (i : nat) (ld : Loader) (p : Project) :
  In p (load_files i files ld).(projects) ->
  In p ld.(projects)
  \/ exists j entry m title,
       In entry files /\ well_formed_record entry m title
       /\ hidden m = false /\ opted_in m = true
       /\ p = manual_project (Date_now j) (record_slug entry m) title m.
Proof.
  revert i ld; induction files as [|entry files IH]; intros i ld; simpl; [auto|].
  intros Hin. apply IH in Hin as [Hin|[j [e [m [t [He H]]]]]].
  - destruct (load_file_projects i entry ld) as [E|[m [t [W [Hh [Ho E]]]]]];
      rewrite E in Hin; [auto|].
    apply in_app_or in Hin as [Hin|[<-|[]]]; [auto|].
    right; exists i, entry, m, t; auto.
  - right; exists j, e, m, t; auto.
Qed.

(** Every project the loader returns is the normalized project of a
    well-formed record of the directory that passed the inclusion policy. *)
Lemma loadManualProjects_projects (manualDir : result (list DirEntry)) (p : Project) :
  In p (loadManualProjects manualDir).(projects) ->
  exists entries j entry m title,
    manualDir = Return entries /\ In entry entries
    /\ is_yaml_file entry = true
    /\ well_formed_record entry m title
    /\ hidden m = false /\ opted_in m = true
    /\ p = manual_project (Date_now j) (record_slug entry m) title m.
Proof.
  unfold loadManualProjects; destruct manualDir as [entries|e]; simpl; [|tauto].
  intros Hin. apply load_files_projects in Hin as [[]|[j [entry [m [t [He H]]]]]].
  apply filter_In in He as [He Hy].
  exists entries, j, entry, m, t; auto.
Qed.




(** C10. A local record that loads and declares no visibility gets the
    visibility [ventures]; a missing status becomes [in-progress], a
    missing tier [mvp], and the stars are 0. The field deriver used for
    remote records defaults differently: without a manifest visibility and
    without a tag of the name space it answers [portfolio]. *)
Theorem local_defaults (manualDir : result (list DirEntry)) (p : Project)
    (Hloaded : In p (loadManualProjects manualDir).(projects)) :
  (exists entries j entry m title,
     manualDir = Return entries /\ In entry entries
     /\ well_formed_record entry m title
     /\ p = manual_project (Date_now j) (record_slug entry m) title m
     /\ (m.(mm_visibility) = None -> p.(visibility) = Ventures)
     /\ (m.(mm_status) = None -> p.(status) = InProgress)
     /\ (m.(mm_tier) = None -> p.(tier) = Mvp)
     /\ (forall v, m.(mm_visibility) = Some v -> p.(visibility) = v))
  /\ p.(stars) = number_of_Z 0
  /\ p.(source) = Manual
  /\ (forall manifest tags,
        opt_field manifest m_visibility = None ->
        filter (fun t => startsWith t "portfolio:") tags = [] ->
        deriveVisibility manifest tags = Portfolio).
Proof.
  assert (Hderiver : forall manifest tags,
             opt_field manifest m_visibility = None ->
             filter (fun t => startsWith t "portfolio:") tags = [] ->
             deriveVisibility manifest tags = Portfolio).
  { intros manifest tags Hm Ht; unfold deriveVisibility; now rewrite Hm, Ht. }
  apply loadManualProjects_projects in Hloaded
    as [entries [j [entry [m [title [Hd [He [_ [W [_ [_ Hp]]]]]]]]]]].
  split; [|subst p; auto].
  exists entries, j, entry, m, title.
  split; [assumption|]. split; [assumption|]. split; [assumption|].
  split; [assumption|].
  subst p; cbn [visibility status tier manual_project].
  repeat split.
  - now intros ->.
  - now intros ->.
  - now intros ->.
  - now intros v ->.
Qed.

(** *** Domains *)

(** C7, as the code has it. On every tag list the extraction keeps the
    tags with the [domain:] prefix, in their order, each stripped of the
    prefix; it removes nothing else. On the remote path the tags are
    first merged into a set, so the domains are the ordered set of the
    stripped names: first appearance kept, no duplicates. On the local
    path the record's tags are taken as written, and the domains repeat a
    name as often as the tags repeat its tag. *)
Theorem domains_per_path :
  (forall tags,
     extractDomainsFromTopics tags
     = map (drop 7) (filter (fun t => startsWith t "domain:") tags))
  /\ (forall repo, exists manifest p,
        parseManifest (manifest_text repo) = Return manifest
        /\ normalizeProject repo = Return p
        /\ p.(domains)
           = Set_of (extractDomainsFromTopics
                       (github_topics repo ++ or_value (opt_field manifest m_topics) []))
        /\ NoDup p.(domains))
  /\ (forall manualDir p,
        In p (loadManualProjects manualDir).(projects) ->
        (exists entries j entry m title,
           manualDir = Return entries /\ In entry entries
           /\ well_formed_record entry m title
           /\ p = manual_project (Date_now j) (record_slug entry m) title m
           /\ p.(topics) = or_value m.(mm_topics) ["portfolio:include"])
        /\ p.(domains) = extractDomainsFromTopics p.(topics)
        /\ (NoDup p.(domains)
            <-> NoDup (filter (fun t => startsWith t "domain:") p.(topics)))).
Proof.
  split; [exact extractDomainsFromTopics_strip|]. split.
  - intros repo.
    destruct (normalizeProject_fields repo)
      as [m [p [Hm [Hp [_ [_ [_ [Ht [Hd _]]]]]]]]].
    exists m, p; split; [assumption|]. split; [assumption|].
    rewrite Hd, Ht, extractDomainsFromTopics_Set_of.
    split; [reflexivity | apply Set_of_NoDup].
  - intros manualDir p Hin.
    apply loadManualProjects_projects in Hin
      as [entries [j [entry [m [title [Hd [He [_ [W [_ [_ Hp]]]]]]]]]]].
    split.
    + exists entries, j, entry, m, title.
      repeat (split; [assumption|]). now subst p.
    + subst p; cbn [topics domains manual_project].
      split; [reflexivity | apply extractDomainsFromTopics_NoDup].
Qed.

(** *** Sorting *)

Section Sort.

Variable A : Type.
Variable comparefn : A -> A -> option Z.

Hypothesis comparefn_antisym :
  forall x y, SortCompare comparefn y x = (- SortCompare comparefn x y)%Z.

Lemma sort_insert_Permutation (x : A) (l : list A) :
  Permutation (x :: l) (sort_insert comparefn x l).
Proof.
  induction l as [|y l IH]; simpl; [reflexivity|].
  destruct (0 <? SortCompare comparefn x y)%Z; [|reflexivity].
  rewrite perm_swap; now constructor.
Qed.

Lemma Array_sort_Permutation (l : list A) :
  Permutation l (Array_sort comparefn l).
Proof.
  induction l as [|x l IH]; simpl; [constructor|].
  rewrite <- sort_insert_Permutation; now constructor.
Qed.

Lemma sort_insert_HdRel (x y : A) (l : list A) :
  in_order comparefn y x -> HdRel (in_order comparefn) y l ->
  HdRel (in_order comparefn) y (sort_insert comparefn x l).
Proof.
  intros Hyx Hl; destruct l as [|z l]; simpl; [now constructor|].
  destruct (0 <? SortCompare comparefn x z)%Z.
  - constructor; now inversion Hl.
  - now constructor.
Qed.

Lemma sort_insert_Sorted (x : A) (l : list A) :
  Sorted (in_order comparefn) l -> Sorted (in_order comparefn) (sort_insert comparefn x l).
Proof.
  induction 1 as [|y l Hl IH Hy]; simpl.
  - repeat constructor.
  - destruct (0 <? SortCompare comparefn x y)%Z eqn:E.
    + apply Z.ltb_lt in E.
      constructor; [assumption|].
      apply sort_insert_HdRel; [|assumption].
      unfold in_order; rewrite comparefn_antisym; lia.
    + apply Z.ltb_ge in E.
      constructor; [now constructor|]. now constructor.
Qed.

Lemma Array_sort_Sorted (l : list A) : Sorted (in_order comparefn) (Array_sort comparefn l).
Proof.
  induction l as [|x l IH]; simpl; [constructor|].
  now apply sort_insert_Sorted.
Qed.

(** The sort leaves a list alone whose adjacent elements are in order. *)
Lemma Array_sort_fixes_Sorted (l : list A) :
  Sorted (in_order comparefn) l -> Array_sort comparefn l = l.
Proof.
  induction 1 as [|x l Hl IH Hx]; simpl; [reflexivity|].
  rewrite IH. destruct Hx as [|y l' Hxy]; simpl; [reflexivity|].
  unfold in_order in Hxy.
  destruct (0 <? SortCompare comparefn x y)%Z eqn:E; [|reflexivity].
  apply Z.ltb_lt in E; lia.
Qed.

Lemma Array_sort_idempotent (l : list A) :
  Array_sort comparefn (Array_sort comparefn l) = Array_sort comparefn l.
Proof. apply Array_sort_fixes_Sorted, Array_sort_Sorted. Qed.

Lemma Sorted_adjacent (R : A -> A -> Prop) (l l1 l2 : list A) (a b : A) :
  Sorted R l -> l = l1 ++ a :: b :: l2 -> R a b.
Proof.
  intros Hs; revert l1; induction Hs as [|x l Hl IH Hx]; intros l1 E.
  - destruct l1; discriminate.
  - destruct l1 as [|z l1]; simpl in E; injection E as -> ->.
    + now inversion Hx.
    + now apply (IH l1).
Qed.

Lemma adjacent_Sorted (R : A -> A -> Prop) (l : list A) :
  (forall l1 a b l2, l = l1 ++ a :: b :: l2 -> R a b) -> Sorted R l.
Proof.
  induction l as [|x l IH]; intros H; constructor.
  - apply IH. intros l1 a b l2 E; apply (H (x :: l1) a b l2); simpl; now rewrite E.
  - destruct l as [|y l]; constructor. now apply (H [] x y l).
Qed.

(** **** The insertion sort is the stable sort

    On a domain where the comparator is consistent (transitive, besides
    antisymmetric), the sort keeps equal elements in their input order, and
    it is the only arrangement that is a stable sorted permutation of its
    input: every conforming implementation of the sort returns it. *)

Variable dom : A -> Prop.

Hypothesis comparefn_trans :
  forall x y z, dom x -> dom y -> dom z ->
    in_order comparefn x y -> in_order comparefn y z -> in_order comparefn x z.

Lemma SortCompare_refl (x : A) : SortCompare comparefn x x = 0%Z.
Proof. pose proof (comparefn_antisym x x); lia. Qed.

Lemma equivalent_passed (x y z : A) :
  dom x -> dom y -> dom z ->
  equivalent comparefn x y = true -> (0 < SortCompare comparefn y z)%Z ->
  equivalent comparefn x z = false.
Proof.
  unfold equivalent; intros Hx Hy Hz Exy Hyz.
  apply Z.eqb_eq in Exy. apply Z.eqb_neq; intros Exz.
  assert (Hle : in_order comparefn y z).
  { apply (comparefn_trans Hy Hx Hz); unfold in_order.
    - rewrite comparefn_antisym; lia.
    - lia. }
  unfold in_order in Hle; lia.
Qed.

Lemma sort_insert_filter (x y : A) (l : list A) :
  dom x -> dom y -> Forall dom l ->
  filter (equivalent comparefn x) (sort_insert comparefn y l)
  = filter (equivalent comparefn x) (y :: l).
Proof.
  intros Hx Hy; induction 1 as [|z l Hz Hl IH]; [reflexivity|].
  cbn [sort_insert].
  destruct (0 <? SortCompare comparefn y z)%Z eqn:E; [|reflexivity].
  apply Z.ltb_lt in E. cbn [filter] in *; rewrite IH.
  destruct (equivalent comparefn x y) eqn:Exy; [|reflexivity].
  now rewrite (equivalent_passed Hx Hy Hz Exy E).
Qed.

Lemma Array_sort_dom (l : list A) : Forall dom l -> Forall dom (Array_sort comparefn l).
Proof.
  intros H; eapply Permutation_Forall; [apply Array_sort_Permutation | exact H].
Qed.

Lemma Array_sort_stable (x : A) (l : list A) :
  dom x -> Forall dom l ->
  filter (equivalent comparefn x) (Array_sort comparefn l)
  = filter (equivalent comparefn x) l.
Proof.
  intros Hx; induction 1 as [|y l Hy Hl IH]; [reflexivity|].
  cbn [Array_sort fold_right].
  fold (Array_sort comparefn l).
  rewrite (sort_insert_filter Hx Hy (Array_sort_dom Hl)).
  cbn [filter]; now rewrite IH.
Qed.

Lemma Sorted_head (a : A) (l : list A) :
  Forall dom (a :: l) -> Sorted (in_order comparefn) (a :: l) ->
  forall b, In b (a :: l) -> in_order comparefn a b.
Proof.
  revert a; induction l as [|c l IH]; intros a Hd Hs b [<-|Hin].
  - unfold in_order; rewrite SortCompare_refl; lia.
  - destruct Hin.
  - unfold in_order; rewrite SortCompare_refl; lia.
  - inversion Hs as [|? ? Hs' Hr]; subst. inversion Hr; subst.
    inversion Hd as [|? ? Ha Hd']; subst.
    assert (Hb : dom b) by (rewrite Forall_forall in Hd'; now apply Hd').
    apply (comparefn_trans Ha (Forall_inv Hd') Hb); [assumption|].
    now apply IH.
Qed.

Lemma stable_sorted_unique (l1 l2 : list A) :
  Forall dom l1 -> Permutation l1 l2 ->
  Sorted (in_order comparefn) l1 -> Sorted (in_order comparefn) l2 ->
  (forall x, dom x ->
     filter (equivalent comparefn x) l1 = filter (equivalent comparefn x) l2) ->
  l1 = l2.
Proof.
  revert l2; induction l1 as [|a l1 IH]; intros l2 Hd Hp Hs1 Hs2 Hst.
  - apply Permutation_nil in Hp; now subst.
  - destruct l2 as [|b l2]; [now apply Permutation_sym, Permutation_nil_cons in Hp|].
    assert (Hd2 : Forall dom (b :: l2)) by (eapply Permutation_Forall; eassumption).
    assert (Hab : in_order comparefn a b).
    { apply (Sorted_head Hd Hs1), (Permutation_in _ (Permutation_sym Hp)); now left. }
    assert (Hba : in_order comparefn b a).
    { apply (Sorted_head Hd2 Hs2), (Permutation_in _ Hp); now left. }
    assert (Eab : equivalent comparefn a b = true).
    { unfold in_order in *; rewrite comparefn_antisym in Hba.
      apply Z.eqb_eq; lia. }
    assert (Eaa : equivalent comparefn a a = true)
      by (apply Z.eqb_eq, SortCompare_refl).
    pose proof (Hst a (Forall_inv Hd)) as Ha.
    cbn [filter] in Ha; rewrite Eab, Eaa in Ha; injection Ha as <- _.
    f_equal. apply IH.
    + now inversion Hd.
    + now apply Permutation_cons_inv in Hp.
    + now inversion Hs1.
    + now inversion Hs2.
    + intros x Hx; specialize (Hst x Hx); cbn [filter] in Hst.
      destruct (equivalent comparefn x a); [now injection Hst | assumption].
Qed.

Lemma stable_sort_unique (l l' : list A) :
  Forall dom l -> Permutation l l' ->
  Sorted (in_order comparefn) l' ->
  (forall x, dom x ->
     filter (equivalent comparefn x) l' = filter (equivalent comparefn x) l) ->
  l' = Array_sort comparefn l.
Proof.
  intros Hd Hp Hs Hst. symmetry; apply stable_sorted_unique.
  - now apply Array_sort_dom.
  - rewrite <- Hp; symmetry; apply Array_sort_Permutation.
  - apply Array_sort_Sorted.
  - assumption.
  - intros x Hx; rewrite (Array_sort_stable Hx Hd); symmetry; now apply Hst.
Qed.

End Sort.

(** *** The ranking *)

Lemma tierOrder_inj (s t : Tier) : tierOrder s = tierOrder t -> s = t.
Proof. destruct s, t; simpl; intros H; congruence || discriminate. Qed.

Lemma statusOrder_inj (s t : Status) : statusOrder s = statusOrder t -> s = t.
Proof. destruct s, t; simpl; intros H; congruence || discriminate. Qed.

Lemma compareProjects_value (a b : Project) :
  compareProjects a b =
  if negb (tierOrder a.(tier) - tierOrder b.(tier) =? 0)%Z
  then Some (tierOrder a.(tier) - tierOrder b.(tier))%Z
  else if negb (statusOrder a.(status) - statusOrder b.(status) =? 0)%Z
  then Some (statusOrder a.(status) - statusOrder b.(status))%Z
  else match Date_getTime b.(pushedAt), Date_getTime a.(pushedAt) with
       | Some tb, Some ta => Some (tb - ta)%Z
       | _, _ => None
       end.
Proof. reflexivity. Qed.

Lemma compareProjects_antisym (a b : Project) :
  SortCompare compareProjects b a = (- SortCompare compareProjects a b)%Z.
Proof.
  unfold SortCompare; rewrite !compareProjects_value.
  generalize (tierOrder a.(tier)) (tierOrder b.(tier))
             (statusOrder a.(status)) (statusOrder b.(status)).
  intros ta tb sa sb.
  destruct (Z.eqb_spec (tb - ta) 0), (Z.eqb_spec (ta - tb) 0); simpl; try lia.
  destruct (Z.eqb_spec (sb - sa) 0), (Z.eqb_spec (sa - sb) 0); simpl; try lia.
  destruct (Date_getTime a.(pushedAt)), (Date_getTime b.(pushedAt)); lia.
Qed.

Lemma compareProjects_valid (a b : Project) :
  valid_date a -> valid_date b ->
  compareProjects a b = Some (SortCompare compareProjects a b).
Proof.
  unfold valid_date, SortCompare; rewrite compareProjects_value; intros Ha Hb.
  destruct (negb _); [reflexivity|]. destruct (negb _); [reflexivity|].
  destruct (Date_getTime b.(pushedAt)), (Date_getTime a.(pushedAt));
    congruence.
Qed.

(** The comparator decides the ranking of the specification. *)
Lemma compareProjects_ranks (a b : Project) :
  valid_date a -> valid_date b ->
  (in_order compareProjects a b <-> ranks_before_or_with a b).
Proof.
  unfold valid_date, in_order, SortCompare, ranks_before_or_with.
  rewrite compareProjects_value; intros Ha Hb.
  destruct (Date_getTime a.(pushedAt)) as [ta|]; [|congruence].
  destruct (Date_getTime b.(pushedAt)) as [tb|]; [|congruence].
  destruct (Z.eqb_spec (tierOrder a.(tier) - tierOrder b.(tier)) 0) as [Et|Nt]; simpl.
  - assert (Et' : a.(tier) = b.(tier)) by (apply tierOrder_inj; lia).
    destruct (Z.eqb_spec (statusOrder a.(status) - statusOrder b.(status)) 0)
      as [Es|Ns]; simpl.
    + assert (Es' : a.(status) = b.(status)) by (apply statusOrder_inj; lia).
      split.
      * intros H; right; split; [assumption|]. right; split; [assumption|].
        exists ta, tb; repeat split; lia.
      * intros [H|[_ [H|[_ [ta' [tb' [E1 [E2 H]]]]]]]]; try lia.
        injection E1 as <-; injection E2 as <-; lia.
    + split.
      * intros H; right; split; [assumption|]. left; lia.
      * intros [H|[_ [H|[H _]]]]; try lia. rewrite H in Ns; lia.
  - split.
    + intros H; left; lia.
    + intros [H|[H _]]; [lia|]. rewrite H in Nt; lia.
Qed.

Lemma ranks_total (a b : Project) :
  valid_date a -> valid_date b ->
  ranks_before_or_with a b \/ ranks_before_or_with b a.
Proof.
  intros Ha Hb.
  rewrite <- (compareProjects_ranks Ha Hb), <- (compareProjects_ranks Hb Ha).
  unfold in_order; rewrite (compareProjects_antisym a b); lia.
Qed.

Lemma ranks_trans (a b c : Project) :
  ranks_before_or_with a b -> ranks_before_or_with b c -> ranks_before_or_with a c.
Proof.
  unfold ranks_before_or_with.
  intros [H1|[Et1 [H1|[Es1 [ta [tb [Ea [Eb H1]]]]]]]]
         [H2|[Et2 [H2|[Es2 [tb' [tc [Eb' [Ec H2]]]]]]]];
    try rewrite Et1 in *; try rewrite <- Et2 in *;
    try rewrite Es1 in *; try rewrite <- Es2 in *;
    try (left; lia); try (right; split; [reflexivity|left; lia]).
  right; split; [reflexivity|]. right; split; [reflexivity|].
  rewrite Eb in Eb'; injection Eb' as <-.
  exists ta, tc; repeat split; try assumption; lia.
Qed.

Lemma compareProjects_trans (a b c : Project) :
  valid_date a -> valid_date b -> valid_date c ->
  in_order compareProjects a b -> in_order compareProjects b c ->
  in_order compareProjects a c.
Proof.
  intros Ha Hb Hc Hab Hbc.
  apply (compareProjects_ranks Ha Hc).
  apply (ranks_trans (b := b)); now apply compareProjects_ranks.
Qed.

(** [sortProjects] returns what any stable sort returns: it keeps projects
    of equal rank in their input order, and every sorted permutation of the
    input that does so is its result. *)
Lemma sortProjects_is_the_stable_sort (l : list Project) :
  Forall valid_date l ->
  (forall x, valid_date x ->
     filter (equivalent compareProjects x) (sortProjects l)
     = filter (equivalent compareProjects x) l)
  /\ forall l',
       Permutation l l' ->
       Sorted (in_order compareProjects) l' ->
       (forall x, valid_date x ->
          filter (equivalent compareProjects x) l'
          = filter (equivalent compareProjects x) l) ->
       l' = sortProjects l.
Proof.
  intros Hd; split.
  - intros x Hx.
    apply Array_sort_stable with (dom := valid_date);
      [ intros; apply compareProjects_antisym
      | intros a b c Ha Hb Hc Hab Hbc; exact (compareProjects_trans Ha Hb Hc Hab Hbc)
      | assumption | assumption ].
  - intros l' Hp Hs Hst.
    apply stable_sort_unique with (dom := valid_date);
      [ intros; apply compareProjects_antisym
      | intros a b c Ha Hb Hc Hab Hbc; exact (compareProjects_trans Ha Hb Hc Hab Hbc)
      | assumption | assumption | assumption | assumption ].
Qed.

Lemma sortProjects_valid (l : list Project) :
  Forall valid_date l -> Forall valid_date (sortProjects l).
Proof.
  intros H. eapply Permutation_Forall; [|exact H].
  apply Array_sort_Permutation.
Qed.

(** C3. The sort orders the projects by tier (flagship before mvp before
    experiment), then status (complete before in-progress before archived),
    then [pushedAt], most recent first. For projects whose [pushedAt] is a
    date, the sorted output holds the same projects, and for every two
    adjacent projects [a], [b] of it the comparator answers a number that
    is at most 0, which is to say that [a] ranks before or with [b]. The
    ranking compares any two projects and is transitive. *)
Theorem sortProjects_ordered (l : list Project) (Hdates : Forall valid_date l) :
  Permutation l (sortProjects l)
  /\ (forall l1 a b l2,
        sortProjects l = l1 ++ a :: b :: l2 ->
        (exists v, compareProjects a b = Some v /\ (v <= 0)%Z)
        /\ ranks_before_or_with a b)
  /\ (forall a b, In a l -> In b l ->
        ranks_before_or_with a b \/ ranks_before_or_with b a)
  /\ (forall a b c,
        ranks_before_or_with a b -> ranks_before_or_with b c ->
        ranks_before_or_with a c).
Proof.
  split; [apply Array_sort_Permutation|]. split; [|split].
  - intros l1 a b l2 E.
    pose proof (sortProjects_valid Hdates) as Hv.
    rewrite E in Hv; rewrite Forall_forall in Hv.
    assert (Ha : valid_date a) by (apply Hv, in_or_app; right; now left).
    assert (Hb : valid_date b) by (apply Hv, in_or_app; right; right; now left).
    assert (Hab : in_order compareProjects a b).
    { eapply Sorted_adjacent; [|exact E].
      apply Array_sort_Sorted, compareProjects_antisym. }
    split; [|now apply compareProjects_ranks].
    exists (SortCompare compareProjects a b); split; [|exact Hab].
    now apply compareProjects_valid.
  - rewrite Forall_forall in Hdates.
    intros a b Ha Hb; apply ranks_total; auto.
  - exact ranks_trans.
Qed.

(** C4. Sorting is idempotent: for projects whose [pushedAt] is a date,
    sorting the output of the sort gives that output again, and sorting a
    sequence that is already in order (every adjacent pair compares at
    most 0) returns it unchanged. *)
Theorem sortProjects_idempotent (l : list Project) (Hdates : Forall valid_date l) :
  sortProjects (sortProjects l) = sortProjects l
  /\ ((forall l1 a b l2,
         l = l1 ++ a :: b :: l2 ->
         exists v, compareProjects a b = Some v /\ (v <= 0)%Z) ->
      sortProjects l = l).
Proof.
  split.
  - apply Array_sort_idempotent, compareProjects_antisym.
  - intros H. apply Array_sort_fixes_Sorted, adjacent_Sorted.
    intros l1 a b l2 E. destruct (H l1 a b l2 E) as [v [Ev Hv]].
    unfold in_order, SortCompare; now rewrite Ev.
Qed.

(** *** The merge *)

Lemma validate_project_slug (p : Project) :
  (validate_project p).(slug) = p.(slug) /\ (validate_project p).(source) = p.(source).
Proof. split; reflexivity. Qed.

Lemma process_repositories_slugs (repositories : list GitHubRepository) (acc : list Project) :
  map slug (fold_left process_repository repositories acc)
  = map slug acc ++ map repo_name repositories.
Proof.
  revert acc; induction repositories as [|repo rest IH]; intros acc; simpl.
  - now rewrite app_nil_r.
  - rewrite IH; unfold process_repository.
    destruct (normalizeProject_fields repo) as [m [p [_ [Hp [Hslug _]]]]].
    rewrite Hp, map_app; simpl. now rewrite Hslug, <- app_assoc.
Qed.

Lemma process_repositories_source (repositories : list GitHubRepository) (acc : list Project) :
  Forall (fun p => p.(source) = Github) acc ->
  Forall (fun p => p.(source) = Github) (fold_left process_repository repositories acc).
Proof.
  revert acc; induction repositories as [|repo rest IH]; intros acc Hacc; simpl.
  - assumption.
  - apply IH; unfold process_repository.
    destruct (normalizeProject_fields repo) as [m [p [_ [Hp [_ [Hsrc _]]]]]].
    rewrite Hp. apply Forall_app; split; [assumption|].
    constructor; [exact Hsrc | constructor].
Qed.

Lemma loadManualProjects_source (manualDir : result (list DirEntry)) :
  Forall (fun p => p.(source) = Manual) (loadManualProjects manualDir).(projects).
Proof.
  apply Forall_forall; intros p Hin.
  apply loadManualProjects_projects in Hin
    as [entries [j [entry [m [title [_ [_ [_ [_ [_ [_ Hp]]]]]]]]]]].
  now subst p.
Qed.

(** C1, as the code has it. [main] concatenates the remote records and
    the included local records and sorts them; it removes nothing. The
    collection it writes is a permutation of the concatenation, the slugs
    of the remote records are the repository names, and the output has
    pairwise distinct slugs exactly when the concatenation has. When a
    remote and a local record declare the same slug, both are in the
    output. *)
Theorem main_keeps_every_record
    (repositories : list GitHubRepository) (manualDir : result (list DirEntry)) :
  let githubProjects := fold_left process_repository repositories [] in
  let manualProjects := (loadManualProjects manualDir).(projects) in
  let output := main repositories manualDir in
  Permutation (githubProjects ++ manualProjects) output
  /\ map slug githubProjects = map repo_name repositories
  /\ (NoDup (map slug output) <-> NoDup (map slug (githubProjects ++ manualProjects)))
  /\ (forall g l,
        In g githubProjects -> In l manualProjects -> g.(slug) = l.(slug) ->
        In g output /\ In l output /\ g.(source) = Github /\ l.(source) = Manual).
Proof.
  intros githubProjects manualProjects output.
  assert (Hperm : Permutation (githubProjects ++ manualProjects) output)
    by apply Array_sort_Permutation.
  split; [assumption|]. split; [|split].
  - subst githubProjects; now rewrite process_repositories_slugs.
  - split; apply Permutation_NoDup, Permutation_map;
      [symmetry; assumption | assumption].
  - intros g l Hg Hl _.
    split; [|split; [|split]].
    + eapply Permutation_in; [exact Hperm | apply in_or_app; now left].
    + eapply Permutation_in; [exact Hperm | apply in_or_app; now right].
    + pose proof (process_repositories_source repositories (Forall_nil _)) as H.
      rewrite Forall_forall in H; now apply H.
    + pose proof (loadManualProjects_source manualDir) as H.
      rewrite Forall_forall in H; now apply H.
Qed.

(* ================================================================ *)
(** ** Further properties of the build *)

(** *** The loop over the repositories *)

Lemma validateStatus_literal (v : Status) : validateStatus (Status_to_string v) = v.
Proof. destruct v; reflexivity. Qed.

Lemma validateTier_literal (v : Tier) : validateTier (Tier_to_string v) = v.
Proof. destruct v; reflexivity. Qed.

Lemma validateVisibility_literal (v : Visibility) :
  validateVisibility (Visibility_to_string v) = v.
Proof. destruct v; reflexivity. Qed.

Lemma validate_project_without_manifest (p : Project) :
  p.(manifest) = None -> validate_project p = p.
Proof.
  destruct p; cbn [manifest]; intros ->; unfold validate_project.
  cbn [slug title description source status tier topics domains stack roles repoUrl
       homepageUrl liveUrl demoUrl stars pushedAt ogImage highlights metrics manifest
       visibility option_map].
  now rewrite validateStatus_literal, validateTier_literal, validateVisibility_literal.
Qed.

Lemma normalizeProject_manifest (repo : GitHubRepository) (p : Project) :
  normalizeProject repo = Return p -> p.(manifest) = None.
Proof.
  unfold normalizeProject.
  destruct (parseManifest_returns (or_else (option_map text (object repo)) None))
    as [m Hm].
  rewrite Hm; cbn [bind]. intros H; injection H as <-; reflexivity.
Qed.

Lemma normalizeProject_total (repo : GitHubRepository) :
  exists p, normalizeProject repo = Return p.
Proof.
  destruct (normalizeProject_fields repo) as [m [p [_ [Hp _]]]]; eauto.
Qed.

Lemma process_repository_step (acc : list Project) (repo : GitHubRepository) (p : Project) :
  normalizeProject repo = Return p -> process_repository acc repo = acc ++ [p].
Proof.
  intros Hp; unfold process_repository; rewrite Hp.
  now rewrite (validate_project_without_manifest _ (normalizeProject_manifest _ Hp)).
Qed.

Lemma process_repositories_Forall2 (repositories : list GitHubRepository)
    (ps acc : list Project) :
  Forall2 (fun repo p => normalizeProject repo = Return p) repositories ps ->
  fold_left process_repository repositories acc = acc ++ ps.
Proof.
  intros H; revert acc; induction H as [|repo p rs ps Hp _ IH]; intros acc; simpl.
  - now rewrite app_nil_r.
  - rewrite (process_repository_step acc _ Hp), IH. now rewrite <- app_assoc.
Qed.

Lemma normalized_projects_exist (repositories : list GitHubRepository) :
  exists ps, Forall2 (fun repo p => normalizeProject repo = Return p) repositories ps.
Proof.
  induction repositories as [|repo rs [ps IH]]; [exists []; constructor|].
  destruct (normalizeProject_total repo) as [p Hp].
  exists (p :: ps); now constructor.
Qed.

(** X1. The loop of [main] over the repositories drops none of them and
    its validation step changes nothing: the projects it collects are, in
    the order of the repositories, their normalized projects, and the
    collection written is the sort of these followed by the local
    projects. *)
Theorem main_collects_every_repository
    (repositories : list GitHubRepository) (manualDir : result (list DirEntry)) :
  exists ps,
    Forall2 (fun repo p => normalizeProject repo = Return p) repositories ps
    /\ fold_left process_repository repositories [] = ps
    /\ List.length ps = List.length repositories
    /\ main repositories manualDir
       = sortProjects (ps ++ (loadManualProjects manualDir).(projects)).
Proof.
  destruct (normalized_projects_exist repositories) as [ps Hps].
  exists ps. split; [assumption|].
  assert (E : fold_left process_repository repositories [] = ps)
    by apply (process_repositories_Forall2 [] Hps).
  split; [assumption|]. split.
  - symmetry; eapply Forall2_length; eassumption.
  - unfold main; now rewrite E.
Qed.

(** *** The statistics of a run *)

Lemma count_of_bump (key k : string) (counts : list (string * nat)) :
  count_of k (bump key counts)
  = if key =? k then S (count_of k counts) else count_of k counts.
Proof.
  induction counts as [|[k' n] rest IH]; cbn [bump count_of].
  - destruct (key =? k); reflexivity.
  - destruct (k' =? key) eqn:E1; cbn [count_of].
    + apply String.eqb_eq in E1; subst k'.
      destruct (key =? k); [lia | reflexivity].
    + destruct (k' =? k) eqn:E2; [|exact IH].
      apply String.eqb_eq in E2; subst k'. now rewrite String.eqb_sym, E1.
Qed.

Lemma Tier_eqb_eq (v w : Tier) : Tier_eqb v w = true <-> v = w.
Proof. destruct v, w; cbv; split; congruence. Qed.

Lemma Status_eqb_eq (v w : Status) : Status_eqb v w = true <-> v = w.
Proof. destruct v, w; cbv; split; congruence. Qed.

Lemma Visibility_eqb_eq (v w : Visibility) : Visibility_eqb v w = true <-> v = w.
Proof. destruct v, w; cbv; split; congruence. Qed.

(** The statistics after tallying a list of projects. *)
Lemma tally_fold (ps : list Project) (st : BuildStats) :
  let st' := fold_left (fun st project => tally project st) ps st in
  (forall t, count_of (Tier_to_string t) st'.(tierCounts)
             = count_of (Tier_to_string t) st.(tierCounts)
               + how_many (fun p => Tier_eqb p.(tier) t) ps)
  /\ (forall v, count_of (Status_to_string v) st'.(statusCounts)
                = count_of (Status_to_string v) st.(statusCounts)
                  + how_many (fun p => Status_eqb p.(status) v) ps)
  /\ (forall v, count_of (Visibility_to_string v) st'.(visibilityCounts)
                = count_of (Visibility_to_string v) st.(visibilityCounts)
                  + how_many (fun p => Visibility_eqb p.(visibility) v) ps)
  /\ st'.(totalRepos) = st.(totalRepos)
  /\ st'.(manifestsFound) = st.(manifestsFound)
  /\ st'.(b_included) = st.(b_included)
  /\ st'.(b_skipped) = st.(b_skipped)
  /\ st'.(b_errors) = st.(b_errors)
  /\ st'.(githubCount) = st.(githubCount)
  /\ st'.(manualCount) = st.(manualCount)
  /\ st'.(includedManual) = st.(includedManual)
  /\ st'.(skippedManual) = st.(skippedManual).
Proof.
  revert st; induction ps as [|p ps IH]; intros st; cbn [fold_left].
  - unfold how_many; cbn [filter List.length].
    repeat split; intros; lia.
  - destruct (IH (tally p st))
      as [Ht [Hs [Hv [H1 [H2 [H3 [H4 [H5 [H6 [H7 [H8 H9]]]]]]]]]]].
    unfold how_many in *; cbn [filter].
    split; [|split; [|split]].
    + intros t; rewrite Ht; cbn [tally tierCounts]; rewrite count_of_bump.
      unfold Tier_eqb; destruct (Tier_to_string (tier p) =? Tier_to_string t);
        cbn [List.length]; lia.
    + intros v; rewrite Hs; cbn [tally statusCounts]; rewrite count_of_bump.
      unfold Status_eqb; destruct (Status_to_string (status p) =? Status_to_string v);
        cbn [List.length]; lia.
    + intros v; rewrite Hv; cbn [tally visibilityCounts]; rewrite count_of_bump.
      unfold Visibility_eqb;
        destruct (Visibility_to_string (visibility p) =? Visibility_to_string v);
        cbn [List.length]; lia.
    + rewrite H1, H2, H3, H4, H5, H6, H7, H8, H9; repeat split.
Qed.

Lemma repository_stats_step (st : BuildStats) (repo : GitHubRepository) (p : Project) :
  normalizeProject repo = Return p ->
  repository_stats st repo = tally p (count_repository st).
Proof.
  intros Hp; unfold repository_stats; rewrite Hp.
  rewrite (validate_project_without_manifest _ (normalizeProject_manifest _ Hp)).
  now rewrite (normalizeProject_manifest _ Hp).
Qed.

Lemma repository_stats_fold (repositories : list GitHubRepository) (ps : list Project)
    (st : BuildStats) :
  Forall2 (fun repo p => normalizeProject repo = Return p) repositories ps ->
  let st' := fold_left repository_stats repositories st in
  (forall t, count_of (Tier_to_string t) st'.(tierCounts)
             = count_of (Tier_to_string t) st.(tierCounts)
               + how_many (fun p => Tier_eqb p.(tier) t) ps)
  /\ (forall v, count_of (Status_to_string v) st'.(statusCounts)
                = count_of (Status_to_string v) st.(statusCounts)
                  + how_many (fun p => Status_eqb p.(status) v) ps)
  /\ (forall v, count_of (Visibility_to_string v) st'.(visibilityCounts)
                = count_of (Visibility_to_string v) st.(visibilityCounts)
                  + how_many (fun p => Visibility_eqb p.(visibility) v) ps)
  /\ st'.(totalRepos) = st.(totalRepos)
  /\ st'.(manifestsFound) = st.(manifestsFound)
  /\ st'.(b_included) = st.(b_included) + List.length ps
  /\ st'.(b_skipped) = st.(b_skipped)
  /\ st'.(b_errors) = st.(b_errors)
  /\ st'.(githubCount) = st.(githubCount) + List.length ps
  /\ st'.(manualCount) = st.(manualCount)
  /\ st'.(includedManual) = st.(includedManual)
  /\ st'.(skippedManual) = st.(skippedManual).
Proof.
  intros H; revert st; induction H as [|repo p rs ps Hp _ IH]; intros st;
    cbn [fold_left].
  - unfold how_many; cbn [filter List.length].
    repeat split; intros; lia.
  - rewrite (repository_stats_step st _ Hp).
    destruct (IH (tally p (count_repository st)))
      as [Ht [Hs [Hv [H1 [H2 [H3 [H4 [H5 [H6 [H7 [H8 H9]]]]]]]]]]].
    unfold how_many in *; cbn [filter].
    split; [|split; [|split]].
    + intros t; rewrite Ht; cbn [tally count_repository tierCounts].
      rewrite count_of_bump.
      unfold Tier_eqb; destruct (Tier_to_string (tier p) =? Tier_to_string t);
        cbn [List.length]; lia.
    + intros v; rewrite Hs; cbn [tally count_repository statusCounts].
      rewrite count_of_bump.
      unfold Status_eqb; destruct (Status_to_string (status p) =? Status_to_string v);
        cbn [List.length]; lia.
    + intros v; rewrite Hv; cbn [tally count_repository visibilityCounts].
      rewrite count_of_bump.
      unfold Visibility_eqb;
        destruct (Visibility_to_string (visibility p) =? Visibility_to_string v);
        cbn [List.length]; lia.
    + rewrite H1, H2, H3, H4, H5, H6, H7, H8, H9.
      cbn [tally count_repository totalRepos manifestsFound b_included b_skipped
           b_errors githubCount manualCount includedManual skippedManual List.length].
      repeat split; lia.
Qed.

Lemma how_many_Permutation (test : Project -> bool) (l l' : list Project) :
  Permutation l l' -> how_many test l = how_many test l'.
Proof.
  unfold how_many; induction 1; cbn [filter].
  - reflexivity.
  - destruct (test x); cbn [List.length]; lia.
  - destruct (test x), (test y); reflexivity.
  - congruence.
Qed.

Lemma how_many_app (test : Project -> bool) (l l' : list Project) :
  how_many test (l ++ l') = how_many test l + how_many test l'.
Proof. unfold how_many; now rewrite filter_app, length_app. Qed.

(** *** The statistics of the local loader *)

Lemma load_file_stats (i : nat) (entry : DirEntry) (ld : Loader) :
  let ld' := load_file i entry ld in
  ld'.(stats).(totalFiles) = ld.(stats).(totalFiles)
  /\ ld'.(stats).(validFiles) + ld'.(stats).(invalidFiles)
     = S (ld.(stats).(validFiles) + ld.(stats).(invalidFiles))
  /\ ld'.(stats).(included) + ld'.(stats).(skipped) + ld.(stats).(validFiles)
     = ld.(stats).(included) + ld.(stats).(skipped) + ld'.(stats).(validFiles)
  /\ List.length ld'.(projects) + ld.(stats).(included)
     = List.length ld.(projects) + ld'.(stats).(included)
  /\ List.length ld'.(stats).(errors) + ld.(stats).(invalidFiles)
     = List.length ld.(stats).(errors) + ld'.(stats).(invalidFiles).
Proof.
  assert (Hinvalid : forall msg,
    let ld' := {| projects := ld.(projects);
                  stats := record_invalid msg ld.(stats) |} in
    ld'.(stats).(totalFiles) = ld.(stats).(totalFiles)
    /\ ld'.(stats).(validFiles) + ld'.(stats).(invalidFiles)
       = S (ld.(stats).(validFiles) + ld.(stats).(invalidFiles))
    /\ ld'.(stats).(included) + ld'.(stats).(skipped) + ld.(stats).(validFiles)
       = ld.(stats).(included) + ld.(stats).(skipped) + ld'.(stats).(validFiles)
    /\ List.length ld'.(projects) + ld.(stats).(included)
       = List.length ld.(projects) + ld'.(stats).(included)
    /\ List.length ld'.(stats).(errors) + ld.(stats).(invalidFiles)
       = List.length ld.(stats).(errors) + ld'.(stats).(invalidFiles)).
  { intros msg; cbn. rewrite length_app; cbn. repeat split; lia. }
  destruct (load_file_cases i entry ld) as [[msg [_ E]]|[m [title [_ E]]]];
    rewrite E; cbv zeta.
  - apply Hinvalid.
  - destruct (hidden m); [cbn; repeat split; lia|].
    destruct (opted_in m); cbn; [rewrite length_app; cbn|];
      repeat split; lia.
Qed.

Lemma load_files_stats (files : list DirEntry) (i : nat) (ld : Loader) :
  let ld' := load_files i files ld in
  ld'.(stats).(totalFiles) = ld.(stats).(totalFiles)
  /\ ld'.(stats).(validFiles) + ld'.(stats).(invalidFiles)
     = ld.(stats).(validFiles) + ld.(stats).(invalidFiles) + List.length files
  /\ ld'.(stats).(included) + ld'.(stats).(skipped) + ld.(stats).(validFiles)
     = ld.(stats).(included) + ld.(stats).(skipped) + ld'.(stats).(validFiles)
  /\ List.length ld'.(projects) + ld.(stats).(included)
     = List.length ld.(projects) + ld'.(stats).(included)
  /\ List.length ld'.(stats).(errors) + ld.(stats).(invalidFiles)
     = List.length ld.(stats).(errors) + ld'.(stats).(invalidFiles).
Proof.
  revert i ld; induction files as [|entry files IH]; intros i ld; cbn [load_files].
  - cbn [List.length]; repeat split; lia.
  - destruct (IH (S i) (load_file i entry ld)) as [H1 [H2 [H3 [H4 H5]]]].
    destruct (load_file_stats i entry ld) as [G1 [G2 [G3 [G4 G5]]]].
    cbv zeta in *; cbn [List.length]. repeat split; lia.
Qed.

(** X2. The statistics of the local loader are consistent: the total is
    the number of [.yml] and [.yaml] entries of the directory, every such
    file is counted as valid or as invalid and not both, every valid file as
    included or as skipped, the projects returned are as many as the files
    included, and there is one error message for each invalid file. *)
Theorem loadManualProjects_stats (entries : list DirEntry) :
  let loaded := loadManualProjects (Return entries) in
  loaded.(stats).(totalFiles) = List.length (filter is_yaml_file entries)
  /\ loaded.(stats).(validFiles) + loaded.(stats).(invalidFiles)
     = loaded.(stats).(totalFiles)
  /\ loaded.(stats).(included) + loaded.(stats).(skipped)
     = loaded.(stats).(validFiles)
  /\ List.length loaded.(projects) = loaded.(stats).(included)
  /\ List.length loaded.(stats).(errors) = loaded.(stats).(invalidFiles).
Proof.
  cbv zeta; unfold loadManualProjects.
  destruct (load_files_stats (filter is_yaml_file entries) 0
              {| projects := [];
                 stats := set_totalFiles (List.length (filter is_yaml_file entries))
                            initial_stats |})
    as [H1 [H2 [H3 [H4 H5]]]].
  cbv zeta in *; cbn in H1, H2, H3, H4, H5.
  rewrite H1. repeat split; lia.
Qed.

Lemma loadManualProjects_included (manualDir : result (list DirEntry)) :
  List.length (loadManualProjects manualDir).(projects)
  = (loadManualProjects manualDir).(stats).(included).
Proof.
  destruct manualDir as [entries|e]; [|reflexivity].
  unfold loadManualProjects.
  destruct (load_files_stats (filter is_yaml_file entries) 0
              {| projects := [];
                 stats := set_totalFiles (List.length (filter is_yaml_file entries))
                            initial_stats |})
    as [_ [_ [_ [H4 _]]]].
  cbv zeta in H4; cbn in H4. lia.
Qed.

(** X3. The counters of the build summary: every repository fetched is
    counted as included and as a GitHub project, none is skipped and no
    error is counted; the number of manifests found stays 0, because a
    normalized project carries no manifest; the manual counters are those of
    the loader, and the collection written has as many projects as the
    GitHub count plus the included manual count. *)
Theorem main_stats_counters
    (repositories : list GitHubRepository) (manualDir : result (list DirEntry)) :
  let st := main_stats repositories manualDir in
  let loaded := loadManualProjects manualDir in
  st.(totalRepos) = List.length repositories
  /\ st.(b_included) = List.length repositories
  /\ st.(githubCount) = List.length repositories
  /\ st.(b_skipped) = 0
  /\ st.(b_errors) = 0
  /\ st.(manifestsFound) = 0
  /\ st.(manualCount) = loaded.(stats).(totalFiles)
  /\ st.(includedManual) = List.length loaded.(projects)
  /\ st.(skippedManual) = loaded.(stats).(skipped)
  /\ List.length (main repositories manualDir) = st.(githubCount) + st.(includedManual).
Proof.
  cbv zeta; unfold main_stats.
  destruct (normalized_projects_exist repositories) as [ps Hps].
  pose proof (Forall2_length Hps) as Hlen.
  match goal with
  | |- context [fold_left repository_stats repositories ?st0] =>
      destruct (repository_stats_fold st0 Hps)
        as [_ [_ [_ [R1 [R2 [R3 [R4 [R5 [R6 _]]]]]]]]]
  end.
  match goal with
  | |- context [fold_left (fun st project => tally project st) ?l ?st2] =>
      destruct (tally_fold l st2)
        as [_ [_ [_ [T1 [T2 [T3 [T4 [T5 [T6 [T7 [T8 T9]]]]]]]]]]]
  end.
  cbv zeta in *.
  cbn [totalRepos manifestsFound b_included b_skipped b_errors githubCount
       manualCount includedManual skippedManual] in *.
  rewrite T1, T2, T3, T4, T5, T6, T7, T8, T9, R1, R2, R3, R4, R5, R6.
  rewrite <- (loadManualProjects_included manualDir).
  assert (Hout : List.length (main repositories manualDir)
                 = List.length repositories
                   + List.length (loadManualProjects manualDir).(projects)).
  { unfold main, sortProjects.
    rewrite <- (Permutation_length (Array_sort_Permutation compareProjects _)).
    rewrite length_app.
    rewrite (process_repositories_Forall2 [] Hps); cbn [app]. lia. }
  repeat split; lia.
Qed.

(** X4. The distribution tallies of the build summary count the collection
    written: for every tier, status and visibility, the tally under its
    literal is the number of projects of the output that have it. *)
Theorem main_stats_tallies
    (repositories : list GitHubRepository) (manualDir : result (list DirEntry)) :
  let st := main_stats repositories manualDir in
  let output := main repositories manualDir in
  (forall t, count_of (Tier_to_string t) st.(tierCounts)
             = how_many (fun p => Tier_eqb p.(tier) t) output)
  /\ (forall v, count_of (Status_to_string v) st.(statusCounts)
                = how_many (fun p => Status_eqb p.(status) v) output)
  /\ (forall v, count_of (Visibility_to_string v) st.(visibilityCounts)
                = how_many (fun p => Visibility_eqb p.(visibility) v) output).
Proof.
  cbv zeta; unfold main_stats.
  destruct (normalized_projects_exist repositories) as [ps Hps].
  match goal with
  | |- context [fold_left repository_stats repositories ?st0] =>
      destruct (repository_stats_fold st0 Hps) as [Rt [Rs [Rv _]]]
  end.
  match goal with
  | |- context [fold_left (fun st project => tally project st) ?l ?st2] =>
      destruct (tally_fold l st2) as [Tt [Ts [Tv _]]]
  end.
  cbv zeta in *; cbn [tierCounts statusCounts visibilityCounts] in *.
  assert (Hout : forall test,
             how_many test (main repositories manualDir)
             = how_many test ps
               + how_many test (loadManualProjects manualDir).(projects)).
  { intros test. unfold main, sortProjects.
    rewrite <- (how_many_Permutation test (Array_sort_Permutation compareProjects _)).
    rewrite how_many_app.
    now rewrite (process_repositories_Forall2 [] Hps). }
  split; [|split].
  - intros t; rewrite Tt, Rt, Hout; cbn [count_of]; lia.
  - intros v; rewrite Ts, Rs, Hout; cbn [count_of]; lia.
  - intros v; rewrite Tv, Rv, Hout; cbn [count_of]; lia.
Qed.

(** *** What the local loader returns *)

Lemma load_file_keeps (i : nat) (entry : DirEntry) (ld : Loader) (p : Project) :
  In p ld.(projects) -> In p (load_file i entry ld).(projects).
Proof.
  intros Hin.
  destruct (load_file_projects i entry ld) as [E|[m [t [_ [_ [_ E]]]]]]; rewrite E.
  - assumption.
  - apply in_or_app; now left.
Qed.

Lemma load_files_keeps (files : list DirEntry) (i : nat) (ld : Loader) (p : Project) :
  In p ld.(projects) -> In p (load_files i files ld).(projects).
Proof.
  revert i ld; induction files as [|entry files IH]; intros i ld Hin; cbn [load_files].
  - assumption.
  - apply IH; now apply load_file_keeps.
Qed.

Lemma load_files_complete (files : list DirEntry) (i k : nat) (ld : Loader)
    (entry : DirEntry) (m : ManualProjectManifest) (title : string) :
  nth_error files k = Some entry ->
  well_formed_record entry m title -> hidden m = false -> opted_in m = true ->
  In (manual_project (Date_now (i + k)) (record_slug entry m) title m)
     (load_files i files ld).(projects).
Proof.
  revert i k ld; induction files as [|e files IH]; intros i k ld Hk W Hh Ho.
  - destruct k; discriminate.
  - destruct k as [|k]; cbn [nth_error load_files] in *.
    + injection Hk as ->. apply load_files_keeps.
      rewrite (load_file_well_formed i ld W); cbv zeta; rewrite Hh, Ho.
      cbn [projects]. rewrite Nat.add_0_r. apply in_or_app; right; now left.
    + replace (i + S k) with (S i + k) by lia. now apply IH.
Qed.

(** X5. The local loader returns exactly the records that pass its checks,
    its validation and its inclusion policy: a project is returned if and
    only if it is the normalized project of a [.yml] or [.yaml] entry of the
    directory that holds a well-formed record (the file parses, every
    declared field of the document is absent or of its declared type, no
    metric is [NaN], the title is there and the source is [manual]), does
    not carry the hide tag, and has a truthy or absent include value and the
    include tag, stamped with the clock reading of its turn. *)
Theorem loadManualProjects_exactly (entries : list DirEntry) (p : Project) :
  In p (loadManualProjects (Return entries)).(projects)
  <-> exists j entry m title,
        j < List.length (filter is_yaml_file entries)
        /\ nth_error (filter is_yaml_file entries) j = Some entry
        /\ well_formed_record entry m title
        /\ hidden m = false /\ opted_in m = true
        /\ p = manual_project (Date_now j) (record_slug entry m) title m.
Proof.
  split.
  - unfold loadManualProjects.
    generalize (filter is_yaml_file entries) as files; intros files.
    assert (G : forall fs i ld q,
               In q (load_files i fs ld).(projects) ->
               In q ld.(projects)
               \/ exists k entry m title,
                    nth_error fs k = Some entry
                    /\ well_formed_record entry m title
                    /\ hidden m = false /\ opted_in m = true
                    /\ q = manual_project (Date_now (i + k)) (record_slug entry m) title m).
    { induction fs as [|e fs IH]; intros i ld q Hin; cbn [load_files] in Hin; [auto|].
      apply IH in Hin as [Hin|[k [entry [m [t [Hk [W [Hh [Ho Hq]]]]]]]]].
      - destruct (load_file_projects i e ld) as [E|[m [t [W [Hh [Ho E]]]]]];
          rewrite E in Hin; [auto|].
        apply in_app_or in Hin as [Hin|[<-|[]]]; [auto|].
        right; exists 0, e, m, t. rewrite Nat.add_0_r. auto.
      - right; exists (S k), entry, m, t.
        replace (i + S k) with (S i + k) by lia. auto. }
    intros Hin; apply G in Hin as [[]|[k [entry [m [t [Hk H]]]]]].
    exists k, entry, m, t. split; [|auto].
    apply nth_error_Some; congruence.
  - intros [j [entry [m [title [_ [Hj [W [Hh [Ho ->]]]]]]]]].
    unfold loadManualProjects.
    apply (load_files_complete _ 0 j _ Hj W Hh Ho).
Qed.

(** *** The slug of a local record *)







(** *** Fetching the repositories *)

Lemma fetch_loop_serves (pages : list RepositoriesPage) (n : nat) (after : option string)
    (fuel : nat) (acc : list GitHubRepository) :
  serves n after pages ->
  fetch_loop fuel n after acc
  = if Nat.leb (List.length pages) fuel
    then Some (Return (acc ++ flat_map wanted pages))
    else None.
Proof.
  revert n after fuel acc; induction pages as [|page rest IH];
    intros n after fuel acc Hs; [destruct Hs|].
  destruct Hs as [Hq Hrest].
  destruct fuel as [|fuel]; [reflexivity|].
  cbn [fetch_loop]; rewrite Hq.
  cbn [bind response_repositories page_data user repositories]. fold (wanted page).
  cbn [List.length flat_map Nat.leb].
  destruct rest as [|page' rest'].
  - rewrite Hrest. cbn [List.length flat_map Nat.leb]. now rewrite app_nil_r.
  - destruct Hrest as [Hnext Hrest]; rewrite Hnext.
    rewrite (IH _ _ fuel (acc ++ wanted page) Hrest).
    destruct (Nat.leb (List.length (page' :: rest')) fuel); [|reflexivity].
    now rewrite <- app_assoc.
Qed.

(** X7. When the client resolves to objects that hold each page under
    [data.user.repositories], as the type [GitHubResponse] says, and the
    pages form a finite chain, the fetch ends after as many requests and
    returns, in order, the repositories of all pages that are neither forks
    nor archived; while fewer requests have been made the loop is still
    running. *)
Theorem fetchAllRepositories_all_pages (pages : list RepositoriesPage) (fuel : nat)
    (Hserved : serves 0 None pages) :
  (List.length pages <= fuel ->
     fetchAllRepositories fuel = Some (Return (flat_map wanted pages)))
  /\ (fuel < List.length pages -> fetchAllRepositories fuel = None).
Proof.
  unfold fetchAllRepositories; rewrite (@fetch_loop_serves pages 0 None fuel [] Hserved).
  split; intros H.
  - apply Nat.leb_le in H; now rewrite H.
  - apply Nat.leb_gt in H; now rewrite H.
Qed.

Lemma fetch_loop_result (fuel n : nat) (after : option string)
    (acc : list GitHubRepository) (r : result (list GitHubRepository)) :
  fetch_loop fuel n after acc = Some r ->
  match r with
  | Return repos =>
      exists fetched,
        repos = acc ++ fetched
        /\ Forall (fun repo => repo.(isFork) = false /\ repo.(isArchived) = false) fetched
  | Throw error =>
      exists msg, error = Error ("Failed to fetch repositories: " ++ msg)
  end.
Proof.
  revert n after acc; induction fuel as [|fuel IH]; intros n after acc H;
    [discriminate|].
  cbn [fetch_loop] in H.
  destruct (let* response := graphqlWithAuth n after in response_repositories response)
    as [page|e].
  - assert (Hw : Forall (fun repo => repo.(isFork) = false /\ repo.(isArchived) = false)
                   (wanted page)).
    { apply Forall_forall; intros repo Hin.
      apply filter_In in Hin as [_ Hin]. apply andb_prop in Hin as [Hf Ha].
      split; now apply negb_true_iff. }
    fold (wanted page) in H.
    destruct (hasNextPage (pageInfo page)).
    + apply IH in H. destruct r as [repos|error]; [|assumption].
      destruct H as [fetched [-> Hf]].
      exists (wanted page ++ fetched). split; [now rewrite app_assoc|].
      apply Forall_app; auto.
    + injection H as <-. exists (wanted page). auto.
  - injection H as <-. exists (error_message e); reflexivity.
Qed.

(** X8. Whenever the fetch ends, what it hands on is clean: a list it
    returns holds no fork and no archived repository, and an error it throws
    is the one error of the fetch, whose message starts with
    [Failed to fetch repositories: ]. *)
Theorem fetchAllRepositories_result (fuel : nat) (r : result (list GitHubRepository))
    (Hends : fetchAllRepositories fuel = Some r) :
  match r with
  | Return repos =>
      Forall (fun repo => repo.(isFork) = false /\ repo.(isArchived) = false) repos
  | Throw error =>
      exists msg, error = Error ("Failed to fetch repositories: " ++ msg)
  end.
Proof.
  unfold fetchAllRepositories in *.
  apply fetch_loop_result in Hends. destruct r as [repos|error]; [|assumption].
  destruct Hends as [fetched [-> Hf]]; assumption.
Qed.

Lemma fetch_loop_fails (pages : list RepositoriesPage) (msg : string) (n : nat)
    (after : option string) (fuel : nat) (acc : list GitHubRepository) :
  serves_then_fails n after pages msg ->
  List.length pages < fuel ->
  fetch_loop fuel n after acc
  = Some (Throw (Error ("Failed to fetch repositories: " ++ msg))).
Proof.
  revert n after fuel acc; induction pages as [|page rest IH];
    intros n after fuel acc Hs Hlt; cbn [serves_then_fails List.length] in *.
  - destruct fuel as [|fuel]; [lia|]. cbn [fetch_loop].
    destruct Hs as [Hs|[response [Hs Hr]]]; rewrite Hs; cbn [bind]; [reflexivity|].
    now rewrite Hr.
  - destruct Hs as [Hq [Hnext Hrest]].
    destruct fuel as [|fuel]; [lia|]. cbn [fetch_loop]; rewrite Hq.
    cbn [bind response_repositories page_data user repositories]. rewrite Hnext.
    apply IH; [assumption | lia].
Qed.

(** X9. The fetch fails fast: when a request fails, because the host
    rejects it or because the client's answer holds no
    [data.user.repositories], after however many pages were served, the
    fetch throws one error that wraps the message of the failure, and the
    repositories of the pages already received are not returned. *)
Theorem fetchAllRepositories_fails_fast (pages : list RepositoriesPage) (msg : string)
    (fuel : nat)
    (Hfails : serves_then_fails 0 None pages msg)
    (Hfuel : List.length pages < fuel) :
  fetchAllRepositories fuel
  = Some (Throw (Error ("Failed to fetch repositories: " ++ msg))).
Proof.
  unfold fetchAllRepositories. eapply fetch_loop_fails; eassumption.
Qed.

(** X23. With a client that resolves to the data itself, as [graphql] of
    [@octokit/graphql] does, the fetch never returns a list: its first
    request ends it with the one error of the fetch, either because the
    host rejected the request or because [response.data] is [undefined],
    whatever the host served. *)
Theorem fetchAllRepositories_needs_data_property (fuel : nat)
    (Hbare : resolves_to_the_data) :
  fetchAllRepositories (S fuel)
  = Some (Throw (Error ("Failed to fetch repositories: "
                        ++ match graphqlWithAuth 0 None with
                           | Return _ => "Cannot read properties of undefined (reading 'user')"
                           | Throw error => error_message error
                           end)))
  /\ forall repos, fetchAllRepositories fuel <> Some (Return repos).
Proof.
  assert (H : forall f,
             fetchAllRepositories (S f)
             = Some (Throw (Error ("Failed to fetch repositories: "
                        ++ match graphqlWithAuth 0 None with
                           | Return _ => "Cannot read properties of undefined (reading 'user')"
                           | Throw error => error_message error
                           end)))).
  { intros f. unfold fetchAllRepositories; cbn [fetch_loop].
    destruct (graphqlWithAuth 0 None) as [response|e] eqn:E; cbn [bind]; [|reflexivity].
    destruct (Hbare _ _ _ E) as [data ->]. reflexivity. }
  split; [apply H|].
  intros repos. destruct fuel as [|f]; [discriminate|]. rewrite H. discriminate.
Qed.

(* ================================================================ *)
(** ** Properties of the queries of [src/lib/projects.ts] *)

Lemma Array_sort_ext {A : Type} (f g : A -> A -> option Z) (l : list A) :
  (forall a b, f a b = g a b) -> Array_sort f l = Array_sort g l.
Proof.
  intros H; induction l as [|x l IH]; cbn [Array_sort fold_right]; [reflexivity|].
  fold (Array_sort f l); fold (Array_sort g l); rewrite IH.
  generalize (Array_sort g l) as sorted; intros sorted.
  induction sorted as [|y sorted IHs]; cbn [sort_insert]; [reflexivity|].
  unfold SortCompare; rewrite H, IHs; reflexivity.
Qed.

Lemma filter_filter {A : Type} (f g : A -> bool) (l : list A) :
  filter f (filter g l) = filter (fun x => g x && f x) l.
Proof.
  induction l as [|x l IH]; cbn [filter]; [reflexivity|].
  destruct (g x); cbn [filter andb]; [destruct (f x)|]; now rewrite IH.
Qed.

Lemma Sorted_filter {A : Type} (comparefn : A -> A -> option Z) (dom : A -> Prop)
    (test : A -> bool) (l : list A) :
  (forall x y, SortCompare comparefn y x = (- SortCompare comparefn x y)%Z) ->
  (forall x y z, dom x -> dom y -> dom z ->
     in_order comparefn x y -> in_order comparefn y z -> in_order comparefn x z) ->
  Forall dom l -> Sorted (in_order comparefn) l ->
  Sorted (in_order comparefn) (filter test l).
Proof.
  intros Hanti Htrans Hd Hs; induction l as [|a l IH]; cbn [filter]; [constructor|].
  assert (Hl : Sorted (in_order comparefn) (filter test l)).
  { apply IH; [now inversion Hd | now inversion Hs]. }
  destruct (test a); [|assumption].
  constructor; [assumption|].
  destruct (filter test l) as [|b rest] eqn:E; constructor.
  eapply Sorted_head with (dom := dom); try eassumption.
  right. assert (Hin : In b (filter test l)) by (rewrite E; now left).
  now apply filter_In in Hin.
Qed.

Lemma filtered_compare_is_compareProjects (a b : Project) :
  filtered_compare a b = compareProjects a b.
Proof.
  unfold filtered_compare, compareProjects, by_recency.
  destruct (tier a), (tier b), (status a), (status b); reflexivity.
Qed.

Lemma getFilteredProjects_selected (filters : ProjectFilters) (allProjects : list Project) :
  getFilteredProjects filters allProjects
  = Array_sort filtered_compare (filter (selected filters) allProjects).
Proof.
  unfold getFilteredProjects; f_equal.
  assert (E : forall (c : bool) (f : Project -> bool) (l : list Project),
             (if negb c then filter f l else l)
             = filter (fun x => if c then true else f x) l).
  { intros [] f l; cbn [negb]; [|reflexivity].
    induction l as [|x l IH]; cbn [filter]; congruence. }
  rewrite !E, !filter_filter. apply filter_ext; intros project.
  unfold selected; now rewrite !andb_assoc.
Qed.

(** X10. The listing ranks like the build and ignores the category: the
    comparator of [getFilteredProjects] answers the same number as
    [compareProjects] on every pair of projects, so the listing is the
    build's sort of the projects it selects (those in the portfolio or
    featured that pass the search, domain and status filters that are set);
    and the [category] of the filters is never looked at: filters that
    differ in it give the same listing. *)
Theorem getFilteredProjects_ranks_like_the_build
    (filters : ProjectFilters) (allProjects : list Project) :
  (forall a b, filtered_compare a b = compareProjects a b)
  /\ getFilteredProjects filters allProjects
     = sortProjects (filter (selected filters) allProjects)
  /\ (forall category,
        getFilteredProjects (with_category category filters) allProjects
        = getFilteredProjects filters allProjects).
Proof.
  split; [exact filtered_compare_is_compareProjects|]. split.
  - rewrite getFilteredProjects_selected. unfold sortProjects.
    apply Array_sort_ext, filtered_compare_is_compareProjects.
  - intros category; reflexivity.
Qed.

(** X11. The listing keeps the order of a collection that is already
    ranked: when the dates of the collection parse and every project of it
    may stand before the next under the ranking, [getFilteredProjects]
    returns the selected projects in the order in which the collection
    holds them; its own sort moves nothing. *)
Theorem getFilteredProjects_keeps_ranked_order
    (filters : ProjectFilters) (allProjects : list Project)
    (Hdates : Forall valid_date allProjects)
    (Hranked : Sorted (in_order compareProjects) allProjects) :
  getFilteredProjects filters allProjects = filter (selected filters) allProjects.
Proof.
  rewrite getFilteredProjects_selected.
  rewrite (Array_sort_ext _ compareProjects _ filtered_compare_is_compareProjects).
  apply Array_sort_fixes_Sorted.
  apply Sorted_filter with (dom := valid_date).
  - intros x y; apply compareProjects_antisym.
  - intros a b c Ha Hb Hc Hab Hbc; exact (compareProjects_trans Ha Hb Hc Hab Hbc).
  - assumption.
  - assumption.
Qed.

(** *** The sections of the site *)

Lemma filter3_Permutation {A : Type} (f g h : A -> bool) (l : list A) :
  (forall x, (f x = true /\ g x = false /\ h x = false)
             \/ (f x = false /\ g x = true /\ h x = false)
             \/ (f x = false /\ g x = false /\ h x = true)) ->
  Permutation l (filter f l ++ filter g l ++ filter h l).
Proof.
  intros H; induction l as [|x l IH]; cbn [filter]; [constructor|].
  destruct (H x) as [[-> [-> ->]]|[[-> [-> ->]]|[-> [-> ->]]]].
  - cbn [app]. now constructor.
  - now apply Permutation_cons_app.
  - rewrite app_assoc. apply Permutation_cons_app. now rewrite <- app_assoc.
Qed.

Lemma sorted_filter_In {A : Type} (comparefn : A -> A -> option Z) (test : A -> bool)
    (l : list A) (x : A) :
  In x (Array_sort comparefn (filter test l)) <-> In x l /\ test x = true.
Proof.
  rewrite <- filter_In. split.
  - apply Permutation_in. symmetry; apply Array_sort_Permutation.
  - apply Permutation_in, Array_sort_Permutation.
Qed.

(** X12. The three sections of the site divide the collection: every
    project is shown in exactly one of the portfolio (which takes the
    visibilities portfolio and featured), the labs and the ventures list,
    as often as it occurs in the collection; the featured list holds the
    featured projects, all of which the portfolio list shows too. *)
Theorem sections_divide_the_collection (allProjects : list Project) :
  Permutation allProjects
    (getPortfolioProjects allProjects ++ getLabsProjects allProjects
     ++ getVenturesProjects allProjects)
  /\ (forall p, In p (getPortfolioProjects allProjects)
                <-> In p allProjects
                    /\ (p.(visibility) = Portfolio \/ p.(visibility) = Featured))
  /\ (forall p, In p (getLabsProjects allProjects)
                <-> In p allProjects /\ p.(visibility) = Labs)
  /\ (forall p, In p (getVenturesProjects allProjects)
                <-> In p allProjects /\ p.(visibility) = Ventures)
  /\ (forall p, In p (getFeaturedProjects allProjects)
                <-> In p allProjects /\ p.(visibility) = Featured)
  /\ (forall p, In p (getFeaturedProjects allProjects) ->
                In p (getPortfolioProjects allProjects)).
Proof.
  assert (Hport : forall p, In p (getPortfolioProjects allProjects)
                  <-> In p allProjects
                      /\ (p.(visibility) = Portfolio \/ p.(visibility) = Featured)).
  { intros p; unfold getPortfolioProjects; rewrite sorted_filter_In.
    rewrite orb_true_iff, !Visibility_eqb_eq. reflexivity. }
  assert (Hfeat : forall p, In p (getFeaturedProjects allProjects)
                  <-> In p allProjects /\ p.(visibility) = Featured).
  { intros p; unfold getFeaturedProjects; rewrite sorted_filter_In.
    now rewrite Visibility_eqb_eq. }
  split; [|split; [exact Hport|split; [|split; [|split; [exact Hfeat|]]]]].
  - unfold getPortfolioProjects, getLabsProjects, getVenturesProjects.
    rewrite <- !Array_sort_Permutation.
    apply filter3_Permutation. intros p; destruct (visibility p); cbv; tauto.
  - intros p; unfold getLabsProjects; rewrite sorted_filter_In.
    now rewrite Visibility_eqb_eq.
  - intros p; unfold getVenturesProjects; rewrite sorted_filter_In.
    now rewrite Visibility_eqb_eq.
  - intros p Hp; apply Hport. apply Hfeat in Hp as [Hin Hv]. auto.
Qed.

Lemma by_recency_antisym (a b : Project) :
  SortCompare by_recency b a = (- SortCompare by_recency a b)%Z.
Proof.
  unfold SortCompare, by_recency.
  destruct (Date_getTime a.(pushedAt)), (Date_getTime b.(pushedAt)); lia.
Qed.

Lemma by_recency_in_order (a b : Project) :
  valid_date a -> valid_date b ->
  (in_order by_recency a b
   <-> exists ta tb, Date_getTime a.(pushedAt) = Some ta
                     /\ Date_getTime b.(pushedAt) = Some tb /\ (tb <= ta)%Z).
Proof.
  unfold valid_date, in_order, SortCompare, by_recency; intros Ha Hb.
  destruct (Date_getTime a.(pushedAt)) as [ta|]; [|congruence].
  destruct (Date_getTime b.(pushedAt)) as [tb|]; [|congruence].
  split.
  - intros H; exists ta, tb; repeat split; lia.
  - intros [ta' [tb' [E1 [E2 H]]]]; injection E1 as <-; injection E2 as <-; lia.
Qed.

Lemma by_recency_trans (a b c : Project) :
  valid_date a -> valid_date b -> valid_date c ->
  in_order by_recency a b -> in_order by_recency b c -> in_order by_recency a c.
Proof.
  intros Ha Hb Hc Hab Hbc.
  apply (by_recency_in_order Ha Hb) in Hab as [ta [tb [Ea [Eb Hab]]]].
  apply (by_recency_in_order Hb Hc) in Hbc as [tb' [tc [Eb' [Ec Hbc]]]].
  rewrite Eb in Eb'; injection Eb' as <-.
  apply (by_recency_in_order Ha Hc). exists ta, tc; repeat split; try assumption; lia.
Qed.

Lemma sorted_by_recency (test : Project -> bool) (allProjects : list Project) :
  Forall valid_date allProjects ->
  let l := Array_sort by_recency (filter test allProjects) in
  Forall valid_date l /\ Sorted (in_order by_recency) l.
Proof.
  intros Hd; split.
  - eapply Permutation_Forall; [apply Array_sort_Permutation|].
    apply Forall_forall; intros p Hp. apply filter_In in Hp as [Hp _].
    rewrite Forall_forall in Hd; now apply Hd.
  - apply Array_sort_Sorted. intros x y; apply by_recency_antisym.
Qed.

Lemma Sorted_most_recent_first (l : list Project) :
  Forall valid_date l -> Sorted (in_order by_recency) l -> most_recent_first l.
Proof.
  intros Hd Hs l1 a b l2 E.
  assert (Ha : valid_date a).
  { rewrite Forall_forall in Hd; apply Hd. rewrite E.
    apply in_or_app; right; now left. }
  assert (Hb : valid_date b).
  { rewrite Forall_forall in Hd; apply Hd. rewrite E.
    apply in_or_app; right; right; now left. }
  apply (by_recency_in_order Ha Hb).
  eapply Sorted_adjacent; eassumption.
Qed.

Lemma most_recent_first_firstn (n : nat) (l : list Project) :
  most_recent_first l -> most_recent_first (firstn n l).
Proof.
  intros H l1 a b l2 E.
  apply (H l1 a b (l2 ++ skipn n l)).
  rewrite <- (firstn_skipn n l) at 1. rewrite E, <- app_assoc. reflexivity.
Qed.

(** X13. Every section list runs from the most recent project to the
    least recent one: when the dates of the collection parse, any two
    neighbours of the featured, portfolio, labs, ventures and
    currently-building lists are in descending order of [pushedAt]. *)
Theorem sections_most_recent_first (allProjects : list Project)
    (Hdates : Forall valid_date allProjects) :
  most_recent_first (getFeaturedProjects allProjects)
  /\ most_recent_first (getPortfolioProjects allProjects)
  /\ most_recent_first (getLabsProjects allProjects)
  /\ most_recent_first (getVenturesProjects allProjects)
  /\ most_recent_first (getCurrentlyBuildingProjects allProjects).
Proof.
  assert (H : forall test,
             most_recent_first (Array_sort by_recency (filter test allProjects))).
  { intros test. destruct (sorted_by_recency test Hdates) as [Hd Hs].
    now apply Sorted_most_recent_first. }
  repeat split; try apply H.
  unfold getCurrentlyBuildingProjects. apply most_recent_first_firstn, H.
Qed.

Lemma Sorted_app_in_order {A : Type} (comparefn : A -> A -> option Z) (dom : A -> Prop)
    (l1 l2 : list A) :
  (forall x y, SortCompare comparefn y x = (- SortCompare comparefn x y)%Z) ->
  (forall x y z, dom x -> dom y -> dom z ->
     in_order comparefn x y -> in_order comparefn y z -> in_order comparefn x z) ->
  Forall dom (l1 ++ l2) -> Sorted (in_order comparefn) (l1 ++ l2) ->
  forall p q, In p l1 -> In q l2 -> in_order comparefn p q.
Proof.
  intros Hanti Htrans; induction l1 as [|a l1 IH]; intros Hd Hs p q Hp Hq;
    [destruct Hp|].
  cbn [app] in *. destruct Hp as [<-|Hp].
  - eapply Sorted_head with (dom := dom); try eassumption.
    right; apply in_or_app; now right.
  - apply IH; [now inversion Hd | now inversion Hs | assumption | assumption].
Qed.

(** X14. [getCurrentlyBuildingProjects] returns at most six projects, all
    of them in-progress projects of the collection; when the collection has
    no more than six in-progress projects it returns them all; and when the
    dates parse, an in-progress project it leaves out is not more recent
    than any project it returns. *)
Theorem getCurrentlyBuildingProjects_six_most_recent (allProjects : list Project)
    (Hdates : Forall valid_date allProjects) :
  let shown := getCurrentlyBuildingProjects allProjects in
  List.length shown <= 6
  /\ (forall p, In p shown -> In p allProjects /\ p.(status) = InProgress)
  /\ (how_many (fun p => Status_eqb p.(status) InProgress) allProjects <= 6 ->
      Permutation (filter (fun p => Status_eqb p.(status) InProgress) allProjects) shown)
  /\ (forall p q,
        In p shown -> In q allProjects -> q.(status) = InProgress -> ~ In q shown ->
        exists tp tq,
          Date_getTime p.(pushedAt) = Some tp
          /\ Date_getTime q.(pushedAt) = Some tq /\ (tq <= tp)%Z).
Proof.
  cbv zeta; unfold getCurrentlyBuildingProjects.
  set (test := fun p : Project => Status_eqb p.(status) InProgress).
  set (sorted := Array_sort by_recency (filter test allProjects)).
  destruct (sorted_by_recency test Hdates) as [Hd Hs]; fold sorted in Hd, Hs.
  assert (Hin : forall p, In p sorted <-> In p allProjects /\ p.(status) = InProgress).
  { intros p; unfold sorted; rewrite sorted_filter_In.
    unfold test; now rewrite Status_eqb_eq. }
  split; [apply firstn_le_length|]. split; [|split].
  - intros p Hp; apply Hin. rewrite <- (firstn_skipn 6 sorted).
    apply in_or_app; now left.
  - intros Hfew. rewrite firstn_all2.
    + apply Array_sort_Permutation.
    + unfold sorted.
      rewrite <- (Permutation_length (Array_sort_Permutation by_recency _)).
      exact Hfew.
  - intros p q Hp Hq Hqs Hnot.
    assert (Hq' : In q (skipn 6 sorted)).
    { assert (Hq2 : In q sorted) by (apply Hin; auto).
      rewrite <- (firstn_skipn 6 sorted) in Hq2.
      apply in_app_or in Hq2 as [Hq2|Hq2]; [contradiction | assumption]. }
    rewrite <- (firstn_skipn 6 sorted) in Hd, Hs.
    assert (Hpq : in_order by_recency p q).
    { eapply Sorted_app_in_order with (dom := valid_date); try eassumption.
      - intros x y; apply by_recency_antisym.
      - intros a b c Ha Hb Hc Hab Hbc; exact (by_recency_trans Ha Hb Hc Hab Hbc). }
    rewrite Forall_forall in Hd.
    apply by_recency_in_order; [| |assumption]; apply Hd, in_or_app; auto.
Qed.

(** *** Lookups and facets *)

(** X15. Looking a project up by slug returns the first project of the
    collection that has the slug, so a later project with the same slug is
    never returned; it returns nothing exactly when no project has the
    slug. [getProjectById] is the same lookup. *)
Theorem getProjectBySlug_first_match (allProjects : list Project) (wanted : string) :
  (forall p, getProjectBySlug allProjects wanted = Some p ->
     exists l1 l2,
       allProjects = l1 ++ p :: l2
       /\ p.(slug) = wanted
       /\ Forall (fun q => q.(slug) <> wanted) l1)
  /\ (getProjectBySlug allProjects wanted = None
      <-> ~ In wanted (map slug allProjects))
  /\ getProjectById allProjects wanted = getProjectBySlug allProjects wanted.
Proof.
  unfold getProjectById, getProjectBySlug. split; [|split; [|reflexivity]].
  - induction allProjects as [|q l IH]; intros p H; cbn [find] in H; [discriminate|].
    destruct (slug q =? wanted) eqn:E.
    + injection H as <-. apply String.eqb_eq in E.
      exists [], l; repeat split; auto.
    + apply IH in H as [l1 [l2 [-> [Hs Hf]]]].
      exists (q :: l1), l2; repeat split; auto.
      constructor; [now apply String.eqb_neq | assumption].
  - induction allProjects as [|q l IH]; cbn [find map].
    + split; [intros _ []|reflexivity].
    + destruct (slug q =? wanted) eqn:E.
      * apply String.eqb_eq in E. split; [discriminate|].
        intros H; exfalso; apply H; now left.
      * apply String.eqb_neq in E. rewrite IH. cbn [In]. tauto.
Qed.

Lemma default_compare_antisym (x y : string) :
  SortCompare default_compare y x = (- SortCompare default_compare x y)%Z.
Proof.
  unfold SortCompare, default_compare.
  rewrite (String.compare_antisym y x).
  destruct (String.compare x y); reflexivity.
Qed.

Lemma sorted_set (xs : list string) :
  let l := Array_sort default_compare (Set_of xs) in
  NoDup l /\ (forall x, In x l <-> In x xs) /\ ascending l.
Proof.
  cbv zeta.
  assert (Hperm := Array_sort_Permutation default_compare (Set_of xs)).
  assert (Hnd : NoDup (Array_sort default_compare (Set_of xs)))
    by (eapply Permutation_NoDup; [exact Hperm | apply Set_of_NoDup]).
  split; [exact Hnd|]. split.
  - intros x; rewrite <- (Set_of_In xs x). split.
    + apply Permutation_in; now symmetry.
    + now apply Permutation_in.
  - intros l1 a b l2 E.
    assert (Hab : in_order default_compare a b).
    { eapply Sorted_adjacent; [|exact E].
      apply Array_sort_Sorted. intros x y; apply default_compare_antisym. }
    unfold in_order, SortCompare, default_compare in Hab.
    destruct (String.compare a b) eqn:C; [|reflexivity|lia].
    apply String.compare_eq_iff in C; subst b.
    rewrite E in Hnd. apply NoDup_remove_2 in Hnd.
    exfalso; apply Hnd. apply in_or_app; right; now left.
Qed.

(** X16. The facets of the listing are sorted sets: the domains, the
    categories and the statuses are returned without duplicates and in
    strictly ascending order, and they are exactly the domains of the
    projects of the collection, their categories (the first domain, or
    [Other] for a project without one) and the literals of their
    statuses. *)
Theorem facets_are_sorted_sets (allProjects : list Project) :
  (NoDup (getDomains allProjects)
   /\ ascending (getDomains allProjects)
   /\ forall d, In d (getDomains allProjects)
                <-> exists p, In p allProjects /\ In d p.(domains))
  /\ (NoDup (getUniqueCategories allProjects)
      /\ ascending (getUniqueCategories allProjects)
      /\ forall c, In c (getUniqueCategories allProjects)
                   <-> exists p, In p allProjects
                                 /\ c = or_default (hd_error p.(domains)) "Other")
  /\ (NoDup (getUniqueStatuses allProjects)
      /\ ascending (getUniqueStatuses allProjects)
      /\ forall v, In v (getUniqueStatuses allProjects)
                   <-> exists p, In p allProjects /\ v = Status_to_string p.(status)).
Proof.
  split; [|split].
  - unfold getDomains.
    destruct (sorted_set (flat_map domains allProjects)) as [Hn [Hi Ha]].
    split; [exact Hn|]. split; [exact Ha|].
    intros d; rewrite Hi, in_flat_map; reflexivity.
  - unfold getUniqueCategories.
    destruct (sorted_set (map (fun project => or_default (hd_error project.(domains))
                                                "Other") allProjects))
      as [Hn [Hi Ha]].
    split; [exact Hn|]. split; [exact Ha|].
    intros c; rewrite Hi, in_map_iff. split.
    + intros [p [E Hp]]; exists p; auto.
    + intros [p [Hp E]]; exists p; auto.
  - unfold getUniqueStatuses.
    destruct (sorted_set (map (fun project => Status_to_string project.(status))
                              allProjects))
      as [Hn [Hi Ha]].
    split; [exact Hn|]. split; [exact Ha|].
    intros v; rewrite Hi, in_map_iff. split.
    + intros [p [E Hp]]; exists p; auto.
    + intros [p [Hp E]]; exists p; auto.
Qed.

(* ================================================================ *)
(** ** Further properties of normalisation and validation *)

Lemma parseManifest_unusable (manifestText : option string) :
  truthy manifestText = None
  \/ (exists s, truthy manifestText = Some s /\ (fails_to_parse s \/ fails_validation s)) ->
  parseManifest manifestText = Return None.
Proof.
  intros H.
  destruct (parseManifest_cases manifestText)
    as [[_ Hp]|[s [Ht [_ [[e [_ Hp]]|[[v [e [_ [_ Hp]]]]|[v [m [Hy [Hv _]]]]]]]]]];
    try assumption.
  exfalso. destruct H as [H|[s' [Hs' [[e He]|[v' [e [Hy' Hv']]]]]]].
  - congruence.
  - rewrite Ht in Hs'; injection Hs' as <-. congruence.
  - rewrite Ht in Hs'; injection Hs' as <-.
    rewrite Hy in Hy'; injection Hy' as <-. congruence.
Qed.

Lemma truthy_idempotent (v : option string) : truthy (truthy v) = truthy v.
Proof. destruct v as [[|c t]|]; reflexivity. Qed.

(** X17. Normalisation degrades to the host's data when the sidecar
    manifest is unusable: for a repository without manifest, or whose
    manifest is empty, does not parse or fails validation, the project has
    the repository name as title, the tier [experiment], no stack, roles,
    live or demo URL, highlights or metrics, the host's tags as topics, the
    host's homepage and description, and a status and visibility derived
    from the host's tags alone. *)
Theorem normalizeProject_without_usable_manifest (repo : GitHubRepository)
    (Hunusable :
       manifest_text repo = None
       \/ exists s, manifest_text repo = Some s
                    /\ (fails_to_parse s \/ fails_validation s)) :
  exists p,
    normalizeProject repo = Return p
    /\ p.(title) = repo.(repo_name)
    /\ p.(tier) = Experiment
    /\ p.(stack) = [] /\ p.(roles) = []
    /\ p.(liveUrl) = None /\ p.(demoUrl) = None
    /\ p.(highlights) = None /\ p.(metrics) = None
    /\ p.(topics) = Set_of (github_topics repo)
    /\ p.(homepageUrl) = truthy repo.(repo_homepageUrl)
    /\ p.(description) = truthy repo.(repo_description)
    /\ p.(status) = deriveStatus None (Set_of (github_topics repo))
    /\ p.(visibility) = deriveVisibility None (Set_of (github_topics repo)).
Proof.
  assert (Hm : parseManifest (manifest_text repo) = Return None).
  { apply parseManifest_unusable.
    assert (Ht : truthy (manifest_text repo) = manifest_text repo)
      by (unfold manifest_text, or_else;
          destruct (option_map text (object repo)) as [[|c t]|]; reflexivity).
    rewrite Ht. exact Hunusable. }
  unfold normalizeProject. fold (manifest_text repo); rewrite Hm; cbn [bind].
  fold (github_topics repo).
  eexists; split; [reflexivity|].
  cbn [title tier stack roles liveUrl demoUrl highlights metrics topics homepageUrl
       description status visibility opt_field or_value].
  rewrite app_nil_r.
  repeat split.
  - unfold or_else. destruct (truthy (repo_homepageUrl repo)); reflexivity.
  - unfold or_else. destruct (truthy (repo_description repo)); reflexivity.
Qed.

Lemma Set_of_app (a b : list string) :
  Set_of (a ++ b) = Set_of a ++ first_occurrences (Set_of a) b.
Proof.
  unfold Set_of at 1. rewrite fold_left_app. fold (Set_of a). apply Set_of_acc.
Qed.

(** X18. The topics of a normalized remote record are the union of the
    host's tags and the manifest's topics, as a set: no topic occurs twice,
    a topic is present exactly when the host or the manifest has it, and the
    host's tags come first, in the host's order, followed by the topics only
    the manifest has. *)
Theorem normalized_topics_are_the_union (repo : GitHubRepository) :
  exists manifest p,
    parseManifest (manifest_text repo) = Return manifest
    /\ normalizeProject repo = Return p
    /\ NoDup p.(topics)
    /\ (forall t, In t p.(topics)
                  <-> In t (github_topics repo)
                      \/ In t (or_value (opt_field manifest m_topics) []))
    /\ exists added,
         p.(topics) = Set_of (github_topics repo) ++ added
         /\ forall t, In t added
                      <-> In t (or_value (opt_field manifest m_topics) [])
                          /\ ~ In t (github_topics repo).
Proof.
  destruct (normalizeProject_fields repo) as [m [p [Hm [Hp [_ [_ [_ [Ht _]]]]]]]].
  exists m, p. split; [assumption|]. split; [assumption|]. rewrite Ht.
  split; [apply Set_of_NoDup|]. split.
  - intros t; rewrite Set_of_In, in_app_iff; reflexivity.
  - exists (first_occurrences (Set_of (github_topics repo))
                              (or_value (opt_field m m_topics) [])).
    split; [apply Set_of_app|].
    intros t; rewrite first_occurrences_In, Set_of_In; reflexivity.
Qed.

Lemma get_field_other (k key : string) (v : JsValue) (fields : list (string * JsValue)) :
  k <> key -> get_field ((k, v) :: fields) key = get_field fields key.
Proof.
  intros H; cbn [get_field]. apply String.eqb_neq in H; now rewrite H.
Qed.

Lemma z_enum_optional_not_a_literal {A : Type} (of_string : string -> option A)
    (v : JsValue) :
  not_a_literal of_string v -> z_enum_optional of_string v = Throw zod_error.
Proof.
  destruct v; cbn; try tauto; try reflexivity. now intros ->.
Qed.

(** X20. Manifest validation ignores what the schema does not declare and
    is all or nothing on what it declares: an object with an additional
    undeclared key validates to the same manifest, whereas a [status], a
    [tier] or a [visibility] that is present and is not one of the literals
    of its own enumeration (a string that is none of them, such as the
    status [mvp], or a value that is not a string) makes the validation fail
    as a whole, so that [parseManifest] answers [null] for the text and
    none of the other fields of the manifest is used. *)
Theorem manifest_validation_all_or_nothing
    (fields : list (string * JsValue)) (k : string) (v : JsValue) :
  (~ In k manifest_keys ->
     ProjectManifestSchema_parse (JObj ((k, v) :: fields))
     = ProjectManifestSchema_parse (JObj fields))
  /\ (not_a_literal Status_of_string (get_field fields "status")
      \/ not_a_literal Tier_of_string (get_field fields "tier")
      \/ not_a_literal Visibility_of_string (get_field fields "visibility") ->
      (exists e, ProjectManifestSchema_parse (JObj fields) = Throw e)
      /\ forall s, s <> "" -> yaml_load s = Return (JObj fields) ->
                   parseManifest (Some s) = Return None).
Proof.
  split.
  - intros Hk. unfold ProjectManifestSchema_parse.
    assert (H : forall key, In key manifest_keys ->
                get_field ((k, v) :: fields) key = get_field fields key).
    { intros key Hin; apply get_field_other. intros ->; contradiction. }
    rewrite !H by (cbn; tauto). reflexivity.
  - intros Hbad.
    assert (Hthrow : exists e, ProjectManifestSchema_parse (JObj fields) = Throw e).
    { unfold ProjectManifestSchema_parse.
      destruct Hbad as [Hbad|[Hbad|Hbad]];
        rewrite (z_enum_optional_not_a_literal _ _ Hbad); validation_throws. }
    split; [exact Hthrow|].
    intros s Hne Hy. destruct Hthrow as [e He].
    apply parseManifest_unusable. right; exists s. split.
    + destruct s; [congruence | reflexivity].
    + right; exists (JObj fields), e; auto.
Qed.

(** *** Ties in the ranking *)

Lemma filter_split {A : Type} (f : A -> bool) (l before after : list A) (x : A) :
  filter f l = before ++ x :: after ->
  exists l1 l2, l = l1 ++ x :: l2 /\ filter f l1 = before /\ filter f l2 = after.
Proof.
  revert before; induction l as [|y l IH]; intros before H; cbn [filter] in H.
  - destruct before; discriminate.
  - destruct (f y) eqn:Ey.
    + destruct before as [|z before]; cbn [app] in H; injection H as Hy H; subst y.
      * exists [], l; repeat split; assumption.
      * apply IH in H as [l1 [l2 [-> [H1 H2]]]].
        exists (z :: l1), l2; cbn [filter app]; rewrite Ey, H1; auto.
    + apply IH in H as [l1 [l2 [-> [H1 H2]]]].
      exists (y :: l1), l2; cbn [filter app]; rewrite Ey; auto.
Qed.

(** X21. The ranking is stable: when the dates parse and two projects tie
    on tier, status and [pushedAt] (the comparator answers 0), the one that
    stands first in the input stands first in the sorted output. *)
Theorem sortProjects_keeps_ties_in_order (l1 l2 l3 : list Project) (a b : Project)
    (Hdates : Forall valid_date (l1 ++ a :: l2 ++ b :: l3))
    (Htie : compareProjects a b = Some 0%Z) :
  exists m1 m2 m3,
    sortProjects (l1 ++ a :: l2 ++ b :: l3) = m1 ++ a :: m2 ++ b :: m3.
Proof.
  set (l := l1 ++ a :: l2 ++ b :: l3) in *.
  assert (Ha : valid_date a).
  { rewrite Forall_forall in Hdates; apply Hdates.
    unfold l; apply in_or_app; right; now left. }
  assert (Hst : filter (equivalent compareProjects a) (sortProjects l)
                = filter (equivalent compareProjects a) l).
  { apply Array_sort_stable with (dom := valid_date);
      [ intros; apply compareProjects_antisym
      | intros x y z Hx Hy Hz Hxy Hyz; exact (compareProjects_trans Hx Hy Hz Hxy Hyz)
      | assumption | assumption ]. }
  assert (Eaa : equivalent compareProjects a a = true).
  { unfold equivalent. pose proof (compareProjects_antisym a a).
    apply Z.eqb_eq; lia. }
  assert (Eab : equivalent compareProjects a b = true).
  { unfold equivalent, SortCompare; now rewrite Htie. }
  unfold l in Hst at 2.
  rewrite filter_app in Hst; cbn [filter] in Hst; rewrite Eaa in Hst.
  rewrite filter_app in Hst; cbn [filter] in Hst; rewrite Eab in Hst.
  apply filter_split in Hst as [m1 [rest [E1 [_ Hrest]]]].
  apply filter_split in Hrest as [m2 [m3 [E2 _]]].
  exists m1, m2, m3. now rewrite E1, E2.
Qed.

(** *** The validators of the build *)

Lemma lower_char_space (c : ascii) : is_space c = true -> lower_char c = c.
Proof.
  unfold is_space, lower_char; intros H.
  destruct (Nat.leb 65 (nat_of_ascii c) && Nat.leb (nat_of_ascii c) 90) eqn:E;
    [|reflexivity].
  apply andb_prop in E as [E1 E2]. apply Nat.leb_le in E1, E2.
  apply orb_prop in H as [H|H].
  - apply Nat.eqb_eq in H; lia.
  - apply andb_prop in H as [H1 H2]. apply Nat.leb_le in H1, H2; lia.
Qed.

Lemma toLowerCase_blank (s : string) : blank s = true -> toLowerCase s = s.
Proof.
  induction s as [|c s IH]; cbn [blank toLowerCase]; [reflexivity|].
  intros H; apply andb_prop in H as [Hc Hs].
  now rewrite (lower_char_space _ Hc), IH.
Qed.

Lemma toLowerCase_app (a b : string) :
  toLowerCase (a ++ b) = (toLowerCase a ++ toLowerCase b)%string.
Proof. induction a as [|c a IH]; cbn; [reflexivity | now rewrite IH]. Qed.

Lemma trimStart_blank (pre s : string) :
  blank pre = true -> trimStart (pre ++ s) = trimStart s.
Proof.
  induction pre as [|c pre IH]; cbn [blank append trimStart]; [reflexivity|].
  intros H; apply andb_prop in H as [Hc Hs]. now rewrite Hc, IH.
Qed.

Lemma trimEnd_blank (post : string) : blank post = true -> trimEnd post = "".
Proof.
  induction post as [|c post IH]; cbn [blank trimEnd]; [reflexivity|].
  intros H; apply andb_prop in H as [Hc Hs]. now rewrite IH, Hc.
Qed.

Lemma trimEnd_app_blank (s post : string) :
  blank post = true -> trimEnd (s ++ post) = trimEnd s.
Proof.
  intros H; induction s as [|c s IH]; cbn [append trimEnd].
  - now apply trimEnd_blank.
  - now rewrite IH.
Qed.

(** Trimming a word that has no white space at its ends, wrapped in white
    space, gives the word. *)
Lemma trim_wrapped (pre word post : string) (c : ascii) (w : string) :
  blank pre = true -> blank post = true ->
  word = String c w -> is_space c = false -> trimEnd word = word ->
  trim (pre ++ word ++ post) = word.
Proof.
  intros Hpre Hpost -> Hc He; unfold trim.
  rewrite (@trimStart_blank pre _ Hpre).
  cbn [append trimStart]; rewrite Hc.
  change (String c (w ++ post)) with (String c w ++ post)%string.
  now rewrite (@trimEnd_app_blank _ post Hpost).
Qed.

(** X22. The validators of the build read a literal whatever its letter
    case and the white space around it: a string that is a status, tier or
    visibility literal up to ASCII letter case, wrapped in ASCII white
    space, validates to that value; in particular every value of the three
    enumerations validates to itself. *)
Theorem validators_ignore_case_and_blanks (pre word post : string)
    (Hpre : blank pre = true) (Hpost : blank post = true) :
  (forall v, toLowerCase word = Status_to_string v ->
             validateStatus (pre ++ word ++ post) = v)
  /\ (forall v, toLowerCase word = Tier_to_string v ->
                validateTier (pre ++ word ++ post) = v)
  /\ (forall v, toLowerCase word = Visibility_to_string v ->
                validateVisibility (pre ++ word ++ post) = v).
Proof.
  assert (Hlow : forall lit, toLowerCase word = lit ->
                 toLowerCase (pre ++ word ++ post) = (pre ++ lit ++ post)%string).
  { intros lit E.
    now rewrite !toLowerCase_app, E, (@toLowerCase_blank pre Hpre),
      (@toLowerCase_blank post Hpost). }
  split; [|split]; intros v E.
  - unfold validateStatus; rewrite (Hlow _ E).
    destruct v; cbn [Status_to_string];
      erewrite (@trim_wrapped pre _ post _ _ Hpre Hpost); reflexivity.
  - unfold validateTier; rewrite (Hlow _ E).
    destruct v; cbn [Tier_to_string];
      erewrite (@trim_wrapped pre _ post _ _ Hpre Hpost); reflexivity.
  - unfold validateVisibility; rewrite (Hlow _ E).
    destruct v; cbn [Visibility_to_string];
      erewrite (@trim_wrapped pre _ post _ _ Hpre Hpost); reflexivity.
Qed.

End Pipeline.

(* ================================================================== *)
(** ** The properties on the sample inputs *)

(** The scenario of a remote record tagged [portfolio:complete] and
    [domain:saas] without manifest. *)
Example remote_scenario :
  exists p,
    normalizeProject sample_yaml_load
      (sample_repo "a" "2024-01-01T00:00:00Z" ["portfolio:complete"; "domain:saas"] None)
    = Return p
    /\ p.(status) = Complete /\ p.(domains) = ["saas"]
    /\ p.(tier) = Experiment /\ p.(visibility) = Portfolio.
Proof. eexists; split; [reflexivity|]; repeat split. Qed.

(** The scenario of the local file [foo.yml] with a title, the include tag
    and no include flag. *)
Example local_scenario :
  map (fun p => (p.(slug), p.(status), p.(tier), p.(stars), p.(visibility)))
      (loadManualProjects sample_now
         (Return [sample_entry "foo.yml"
                    (sample_record (Some "Foo") None (Some ["portfolio:include"]))])).(projects)
  = [("foo", InProgress, Mvp, number_of_Z 0, Ventures)].
Proof. reflexivity. Qed.

(** C2. [deriveStatus] looks at the first tag of the [portfolio:] name
    space only. With the tags [portfolio:featured] and [portfolio:complete],
    in this order, and no manifest status it returns [in-progress], whereas
    the first tag that matches [portfolio:complete] or [portfolio:archived]
    gives [complete]; a repository whose manifest declares these two topics
    is normalized to the status [in-progress]. *)
Theorem deriveStatus_misses_later_status_tag :
  deriveStatus None ["portfolio:featured"; "portfolio:complete"] = InProgress
  /\ status_by_first_matching_tag None ["portfolio:featured"; "portfolio:complete"]
     = Complete
  /\ exists p,
       normalizeProject sample_yaml_load
         (sample_repo "a" "2024-01-01T00:00:00Z" []
            (Some "topics: [portfolio:featured, portfolio:complete]"))
       = Return p
       /\ p.(topics) = ["portfolio:featured"; "portfolio:complete"]
       /\ p.(status) = InProgress
       /\ p.(visibility) = Featured.
Proof.
  split; [reflexivity|]. split; [reflexivity|].
  eexists; split; [reflexivity|]. repeat split.
Qed.

(** C1: a run in which a repository and a local file both have the slug
    [dup] writes two records with that slug, the local one and the remote
    one. *)
Lemma main_keeps_colliding_slugs :
  let output :=
    main sample_yaml_load sample_getTime sample_now
      [sample_repo "dup" "2024-01-01T00:00:00Z" [] None]
      (Return [sample_entry "dup.yml" (sample_record (Some "Dup") None None)]) in
  map (fun p => (p.(slug), p.(source))) output = [("dup", Manual); ("dup", Github)]
  /\ ~ NoDup (map slug output).
Proof.
  split; [reflexivity|].
  vm_compute. intros H; inversion H as [|x l Hin _]; subst.
  apply Hin; now left.
Qed.

(** C7: a local record whose topics repeat [domain:saas] is loaded with the
    domain [saas] twice. *)
Lemma local_domains_repeat :
  let loaded :=
    (loadManualProjects sample_now
       (Return [sample_entry "foo.yml"
                  (sample_record (Some "Foo") None
                     (Some ["portfolio:include"; "domain:saas"; "domain:saas"]))])).(projects) in
  map domains loaded = [["saas"; "saas"]]
  /\ exists p, In p loaded /\ ~ NoDup p.(domains).
Proof.
  split; [reflexivity|].
  eexists; split; [left; reflexivity|].
  vm_compute. intros H; inversion H as [|x l Hin _]; subst.
  apply Hin; now left.
Qed.

(** The sample projects carry dates. *)
Lemma sample_projects_valid : Forall (valid_date sample_getTime) sample_projects.
Proof. repeat constructor; discriminate. Defined.

(** The ranking of the four sample projects. *)
Lemma sortProjects_ordered_witness :
  Forall (valid_date sample_getTime) sample_projects
  /\ Permutation sample_projects (sortProjects sample_getTime sample_projects)
  /\ map slug (sortProjects sample_getTime sample_projects) = ["b"; "a"; "c"; "d"].
Proof.
  split; [exact sample_projects_valid|]. split; [|reflexivity].
  exact (proj1 (sortProjects_ordered sample_projects_valid)).
Defined.

(** Sorting the four sample projects twice. *)
Lemma sortProjects_idempotent_witness :
  Forall (valid_date sample_getTime) sample_projects
  /\ sortProjects sample_getTime (sortProjects sample_getTime sample_projects)
     = sortProjects sample_getTime sample_projects.
Proof.
  split; [exact sample_projects_valid|].
  exact (proj1 (sortProjects_idempotent sample_projects_valid)).
Defined.

(** Parsing a manifest whose status is not one of the three literals. *)
Lemma parseManifest_never_raises_witness :
  sample_yaml_load "" = Return JUndefined
  /\ exists r,
       parseManifest sample_yaml_load (Some "status: bogus") = Return r
       /\ (r = None <->
             Some "status: bogus" = None
             \/ exists s, Some "status: bogus" = Some s
                          /\ (fails_to_parse sample_yaml_load s
                              \/ fails_validation sample_yaml_load s))
       /\ (forall m, r = Some m ->
             exists s v, Some "status: bogus" = Some s
                         /\ sample_yaml_load s = Return v
                         /\ ProjectManifestSchema_parse v = Return m).
Proof.
  split; [reflexivity|].
  exact (@parseManifest_never_raises sample_yaml_load eq_refl (Some "status: bogus")).
Defined.



(** Tag lists that differ in the tags of one name space only. *)
Lemma derivation_independence_witness :
  same_outside "domain:" ["portfolio:archived"; "domain:saas"; "react"]
                         ["domain:health"; "portfolio:archived"; "react"; "domain:ai"]
  /\ deriveStatus None ["portfolio:archived"; "domain:saas"; "react"]
     = deriveStatus None ["domain:health"; "portfolio:archived"; "react"; "domain:ai"]
  /\ same_outside "portfolio:" ["portfolio:labs"; "domain:saas"; "react"]
                               ["domain:saas"; "react"; "portfolio:complete"]
  /\ extractDomainsFromTopics ["portfolio:labs"; "domain:saas"; "react"]
     = extractDomainsFromTopics ["domain:saas"; "react"; "portfolio:complete"].
Proof.
  pose (repo := sample_repo "a" "2024-01-01T00:00:00Z" [] None).
  split; [reflexivity|]. split.
  - exact (proj1 (proj1 (derivation_independence sample_yaml_load None repo
                           ["portfolio:archived"; "domain:saas"; "react"]
                           ["domain:health"; "portfolio:archived"; "react"; "domain:ai"])
                    eq_refl)).
  - split; [reflexivity|].
    exact (proj1 (proj2 (derivation_independence sample_yaml_load None repo
                           ["portfolio:labs"; "domain:saas"; "react"]
                           ["domain:saas"; "react"; "portfolio:complete"])
                    eq_refl)).
Defined.

(** The defaults of the local file [foo.yml]. *)
Lemma local_defaults_witness :
  let dir := Return [sample_entry "foo.yml"
                       (sample_record (Some "Foo") None (Some ["portfolio:include"]))] in
  let p := manual_project "2024-06-01T00:00:00.000Z" "foo" "Foo"
             (sample_record (Some "Foo") None (Some ["portfolio:include"])) in
  In p (loadManualProjects sample_now dir).(projects)
  /\ p.(visibility) = Ventures
  /\ p.(stars) = number_of_Z 0
  /\ p.(source) = Manual.
Proof.
  intros dir p.
  assert (Hin : In p (loadManualProjects sample_now dir).(projects))
    by (left; reflexivity).
  split; [exact Hin|].
  destruct (local_defaults sample_now dir p Hin) as [_ [Hstars [Hsource _]]].
  split; [reflexivity|]. split; assumption.
Defined.


(** The first sample client serves its two pages under [data]. *)
Lemma sample_host_serves : serves sample_host 0 None [sample_page1; sample_page2].
Proof. repeat split. Defined.

(** Fetching through the first sample client. *)
Lemma fetchAllRepositories_all_pages_witness :
  serves sample_host 0 None [sample_page1; sample_page2]
  /\ fetchAllRepositories sample_host 2
     = Some (Return [flagged_repo "a" false false; flagged_repo "b" false false])
  /\ fetchAllRepositories sample_host 1 = None.
Proof.
  split; [exact sample_host_serves|].
  destruct (@fetchAllRepositories_all_pages sample_host _ 2 sample_host_serves)
    as [H2 _].
  destruct (@fetchAllRepositories_all_pages sample_host _ 1 sample_host_serves)
    as [_ H1].
  split; [apply H2; cbn; lia | apply H1; cbn; lia].
Defined.

(** The fetch through the client that resolves to the data itself ends
    with the error of the fetch. *)
Lemma fetchAllRepositories_result_witness :
  fetchAllRepositories sample_bare_host 3
  = Some (Throw (Error ("Failed to fetch repositories: "
                        ++ "Cannot read properties of undefined (reading 'user')")))
  /\ exists msg,
       Error ("Failed to fetch repositories: "
              ++ "Cannot read properties of undefined (reading 'user')")
       = Error ("Failed to fetch repositories: " ++ msg).
Proof.
  assert (E : fetchAllRepositories sample_bare_host 3
              = Some (Throw (Error ("Failed to fetch repositories: "
                        ++ "Cannot read properties of undefined (reading 'user')"))))
    by reflexivity.
  split; [exact E|].
  exact (@fetchAllRepositories_result sample_bare_host 3 _ E).
Defined.

(** A host that rejects the second request, and a client whose first
    answer has no [data] property. *)
Lemma fetchAllRepositories_fails_fast_witness :
  (serves_then_fails sample_failing_host 0 None [sample_page1] "502 Bad Gateway"
   /\ List.length [sample_page1] < 5
   /\ fetchAllRepositories sample_failing_host 5
      = Some (Throw (Error "Failed to fetch repositories: 502 Bad Gateway")))
  /\ (serves_then_fails sample_bare_host 0 None []
        "Cannot read properties of undefined (reading 'user')"
      /\ fetchAllRepositories sample_bare_host 5
         = Some (Throw (Error ("Failed to fetch repositories: "
                 ++ "Cannot read properties of undefined (reading 'user')")))).
Proof.
  assert (H : serves_then_fails sample_failing_host 0 None [sample_page1]
                "502 Bad Gateway") by (repeat split; left; reflexivity).
  assert (L : List.length [sample_page1] < 5) by (cbn; lia).
  assert (B : serves_then_fails sample_bare_host 0 None []
                "Cannot read properties of undefined (reading 'user')").
  { right. eexists; split; reflexivity. }
  assert (L0 : @List.length RepositoriesPage [] < 5) by (cbn; lia).
  split.
  - split; [exact H|]. split; [exact L|].
    exact (@fetchAllRepositories_fails_fast sample_failing_host _ _ 5 H L).
  - split; [exact B|].
    exact (@fetchAllRepositories_fails_fast sample_bare_host _ _ 5 B L0).
Defined.

(** The client that resolves to the data itself never lets the fetch
    return the two pages the host serves. *)
Lemma sample_bare_host_resolves_to_the_data : resolves_to_the_data sample_bare_host.
Proof.
  intros n after response. unfold sample_bare_host.
  destruct (sample_host n after) as [[data|data]|e]; intros H;
    [injection H as <- | injection H as <- | discriminate]; eexists; reflexivity.
Defined.

Lemma fetchAllRepositories_needs_data_property_witness :
  resolves_to_the_data sample_bare_host
  /\ sample_bare_host 0 None = Return (Bare (page_data sample_page1))
  /\ fetchAllRepositories sample_bare_host 2
     = Some (Throw (Error ("Failed to fetch repositories: "
             ++ "Cannot read properties of undefined (reading 'user')")))
  /\ fetchAllRepositories sample_bare_host 2
     <> Some (Return [flagged_repo "a" false false; flagged_repo "b" false false]).
Proof.
  split; [exact sample_bare_host_resolves_to_the_data|]. split; [reflexivity|].
  destruct (@fetchAllRepositories_needs_data_property sample_bare_host 1
              sample_bare_host_resolves_to_the_data) as [E _].
  destruct (@fetchAllRepositories_needs_data_property sample_bare_host 2
              sample_bare_host_resolves_to_the_data) as [_ N].
  split; [exact E | apply N].
Defined.

(** The legacy sample projects carry dates and are ranked. *)
Lemma legacy_projects_valid : Forall (valid_date sample_getTime) legacy_projects.
Proof. repeat constructor; discriminate. Defined.

Lemma legacy_projects_ranked :
  Sorted (in_order (compareProjects sample_getTime)) legacy_projects.
Proof. repeat constructor; discriminate. Defined.

(** The listing of the completed legacy sample projects. *)
Lemma getFilteredProjects_keeps_ranked_order_witness :
  Forall (valid_date sample_getTime) legacy_projects
  /\ Sorted (in_order (compareProjects sample_getTime)) legacy_projects
  /\ map slug (getFilteredProjects sample_getTime toLowerCase sample_filters
                 legacy_projects)
     = ["kids-call-home"; "box-breather"; "mindmaster-pro"].
Proof.
  split; [exact legacy_projects_valid|]. split; [exact legacy_projects_ranked|].
  rewrite (@getFilteredProjects_keeps_ranked_order sample_getTime toLowerCase
             sample_filters legacy_projects legacy_projects_valid
             legacy_projects_ranked).
  reflexivity.
Defined.

(** The section lists of the sample projects. *)
Lemma sections_most_recent_first_witness :
  Forall (valid_date sample_getTime) sample_projects
  /\ most_recent_first sample_getTime (getPortfolioProjects sample_getTime sample_projects)
  /\ map slug (getPortfolioProjects sample_getTime sample_projects) = ["c"; "a"; "d"; "b"].
Proof.
  split; [exact sample_projects_valid|]. split; [|reflexivity].
  exact (proj1 (proj2 (@sections_most_recent_first sample_getTime sample_projects
                         sample_projects_valid))).
Defined.

(** The one sample project in progress. *)
Lemma getCurrentlyBuildingProjects_six_most_recent_witness :
  Forall (valid_date sample_getTime) sample_projects
  /\ List.length (getCurrentlyBuildingProjects sample_getTime sample_projects) <= 6
  /\ map slug (getCurrentlyBuildingProjects sample_getTime sample_projects) = ["a"].
Proof.
  split; [exact sample_projects_valid|]. split; [|reflexivity].
  exact (proj1 (@getCurrentlyBuildingProjects_six_most_recent sample_getTime
                  sample_projects sample_projects_valid)).
Defined.

(** A repository whose manifest has an invalid status. *)
Lemma normalizeProject_without_usable_manifest_witness :
  let repo := sample_repo "a" "2024-01-01T00:00:00Z" ["react"] (Some "status: bogus") in
  (manifest_text repo = None
   \/ exists s, manifest_text repo = Some s
                /\ (fails_to_parse sample_yaml_load s
                    \/ fails_validation sample_yaml_load s))
  /\ exists p, normalizeProject sample_yaml_load repo = Return p
               /\ p.(title) = "a" /\ p.(tier) = Experiment /\ p.(topics) = ["react"].
Proof.
  intros repo.
  assert (H : manifest_text repo = None
              \/ exists s, manifest_text repo = Some s
                           /\ (fails_to_parse sample_yaml_load s
                               \/ fails_validation sample_yaml_load s)).
  { right; exists "status: bogus"; split; [reflexivity|].
    right; exists (JObj [("status", JStr "bogus")]), zod_error; split; reflexivity. }
  split; [exact H|].
  destruct (@normalizeProject_without_usable_manifest sample_yaml_load repo H)
    as [p [Hp [Ht [Hr [_ [_ [_ [_ [_ [_ [Htop _]]]]]]]]]]].
  exists p; repeat split; assumption.
Defined.

(** Two sample projects of equal rank keep their input order. *)
Lemma sortProjects_keeps_ties_in_order_witness :
  let a := sample_project "first" Experiment Complete "2024-01-01T00:00:00Z" in
  let b := sample_project "second" Experiment Complete "2024-01-01T00:00:00Z" in
  let c := sample_project "c" Flagship Complete "2024-03-01T00:00:00Z" in
  Forall (valid_date sample_getTime) ([] ++ a :: [c] ++ b :: [])
  /\ compareProjects sample_getTime a b = Some 0%Z
  /\ exists m1 m2 m3,
       sortProjects sample_getTime ([] ++ a :: [c] ++ b :: []) = m1 ++ a :: m2 ++ b :: m3.
Proof.
  intros a b c.
  assert (Hd : Forall (valid_date sample_getTime) ([] ++ a :: [c] ++ b :: []))
    by (repeat constructor; discriminate).
  split; [exact Hd|]. split; [reflexivity|].
  exact (@sortProjects_keeps_ties_in_order sample_getTime [] [c] [] a b Hd eq_refl).
Defined.

(** A status in capitals between blanks. *)
Lemma validators_ignore_case_and_blanks_witness :
  blank " " = true /\ blank "  " = true
  /\ validateStatus (" " ++ "ARCHIVED" ++ "  ") = Archived
  /\ validateTier (" " ++ "Flagship" ++ "  ") = Flagship.
Proof.
  split; [reflexivity|]. split; [reflexivity|].
  destruct (@validators_ignore_case_and_blanks " " "ARCHIVED" "  " eq_refl eq_refl)
    as [Hs _].
  destruct (@validators_ignore_case_and_blanks " " "Flagship" "  " eq_refl eq_refl)
    as [_ [Ht _]].
  split; [apply Hs | apply Ht]; reflexivity.
Defined.
